(** * bc1pSendBtc: batch payment builders for P2TR and P2WPKH funding addresses

    A shallow embedding of the two batch-send scripts of the repository:

    - the taproot script ([batchSend], module [P2TR]), which selects UTXOs
      greedily, checks every previous-output script against the funding
      script and signs with Schnorr through [@noble/curves];
    - the witness-key-hash script ([createTransaction], module [P2WPKH],
      the [main.js] of the README), which spends every UTXO of the address
      and signs with [psbt.signInput].

    Conventions of the embedding.

    - JavaScript [Number]s that can carry decimals (configuration values,
      fee rates, virtual sizes) are IEEE-754 doubles, modelled by Rocq's
      primitive [float], so [0.0001 * 100000000] rounds here as it does in
      Node.  [BigInt]s are [Z].
    - Satoshi amounts coming from the block explorer ([utxo.value]) and their
      running sums are integers far below [2^53], where [Number] addition is
      exact; they are modelled as [Z] and converted with [Number_of_Z] where
      the script mixes them with doubles.
    - The block explorer, the operator and the cryptographic libraries are
      collaborators: their answers are fields of a record the scripts are
      run against.  A request that fails (a rejected promise) or a library
      call that throws is [None].
    - Strings are held as the bytes of their UTF-8 encoding.
    - [console.log] output is not modelled; every abort is a value of the
      failure type, and calls that leave the process (HTTP requests,
      signatures, the broadcast) are recorded in a trace. *)

From Stdlib Require Import ZArith List String Ascii Bool Lia Floats.
Import ListNotations.

Set Warnings "-inexact-float".

Open Scope Z_scope.

(** ** The JavaScript values and number operations the scripts use *)

Module JS.

(** A scalar read from [config.json] or from a JSON response. *)
Inductive value : Type :=
| undefined
| null
| boolean (b : bool)
| number (x : float)
| str (s : string).

Definition isNaN (x : float) : bool := negb (x =? x)%float.

(** [Boolean(v)], the test behind [||], [&&] and [if]. *)
Definition truthy (v : value) : bool :=
  match v with
  | undefined | null => false
  | boolean b => b
  | number x => negb ((x =? 0)%float || isNaN x)
  | str s => negb (s =? "")%string
  end.

(** [a || b] *)
Definition or (a b : value) : value := if truthy a then a else b.

(** [typeof v === 'number'] *)
Definition typeof_number (v : value) : bool :=
  match v with number _ => true | _ => false end.

(** [v > 0], for a [v] already known to be a number. *)
Definition gt0 (v : value) : bool :=
  match v with number x => (0 <? x)%float | _ => false end.

(** [Number(z)] for an integer [z]: the nearest double. *)
Definition Number_of_Z (z : Z) : float :=
  SF2Prim (binary_normalize prec emax z 0 false).

(** Rounding of a double to an integral double, towards +oo ([up]) or -oo. *)
Definition round_integral (up : bool) (x : float) : float :=
  match Prim2SF x with
  | S754_finite s m e =>
      if 0 <=? e then x
      else
        let d := 2 ^ (- e) in
        let q := Z.pos m / d in
        if Z.pos m mod d =? 0 then x
        else if s then (- Number_of_Z (if up then q else q + 1))%float
             else Number_of_Z (if up then q + 1 else q)
  | _ => x
  end.

Definition Math_floor : float -> float := round_integral false.
Definition Math_ceil : float -> float := round_integral true.

(** [BigInt(x)]: the integer [x] denotes; [None] is the [RangeError] thrown
    for [NaN], the infinities and every non-integral double. *)
Definition BigInt (x : float) : option Z :=
  match Prim2SF x with
  | S754_zero _ => Some 0
  | S754_finite s m e =>
      let a :=
        if 0 <=? e then Some (Z.pos m * 2 ^ e)
        else if Z.pos m mod 2 ^ (- e) =? 0 then Some (Z.pos m / 2 ^ (- e))
        else None in
      option_map (fun z => if s then - z else z) a
  | _ => None
  end.

Section ToNumber.

(** The runtime's conversion of a string to a number (decimal parsing). *)
Variable StringToNumber : string -> float.

(** [Number(v)], applied implicitly by [*]. *)
Definition ToNumber (v : value) : float :=
  match v with
  | undefined => nan
  | null => 0%float
  | boolean b => if b then 1%float else 0%float
  | number x => x
  | str s => StringToNumber s
  end.

End ToNumber.

(** *** Hexadecimal strings: [Buffer.from(s, 'hex').toString('hex')] *)

Definition hexval (c : ascii) : option N :=
  let n := N_of_ascii c in
  if ((48 <=? n) && (n <=? 57))%N then Some (n - 48)%N
  else if ((97 <=? n) && (n <=? 102))%N then Some (n - 87)%N
  else if ((65 <=? n) && (n <=? 70))%N then Some (n - 55)%N
  else None.

Definition hexdigit (n : N) : ascii :=
  if (n <? 10)%N then ascii_of_N (n + 48) else ascii_of_N (n + 87).

(** Decoding stops at the first pair that is not two hexadecimal digits and
    drops a trailing single digit; re-encoding prints lower case. *)
Fixpoint Buffer_hex_roundtrip (s : string) : string :=
  match s with
  | String a (String b rest) =>
      match hexval a, hexval b with
      | Some x, Some y =>
          String (hexdigit x) (String (hexdigit y) (Buffer_hex_roundtrip rest))
      | _, _ => EmptyString
      end
  | _ => EmptyString
  end.

(** *** Big-endian bytes and integers *)

(** [schnorr.utils.bytesToNumberBE]: the number the bytes denote, most
    significant byte first. *)
Definition bytesToNumberBE (bytes : list Z) : Z :=
  fold_left (fun acc b => acc * 256 + b) bytes 0.

(** The [len] low-order bytes of [n], most significant first.  The scripts
    do not call this; the statements and the stand-in libraries do. *)
Fixpoint bytesBE (len : nat) (n : Z) : list Z :=
  match len with
  | O => []
  | S len' => bytesBE len' (n / 256) ++ [n mod 256]
  end.

End JS.

(** ** What the block explorer returns *)

(** An entry of [GET /address/:address/utxo]. *)
Record utxo : Type := mkUtxo {
  txid : string;
  vout : nat;
  value : Z
}.

(** An entry of the [vout] array of [GET /tx/:txid]; [scriptpubkey] may be
    missing. *)
Record tx_vout : Type := mkVout {
  scriptpubkey : option string
}.

(** The body of [GET /v1/fees/recommended]. *)
Record fees : Type := mkFees {
  halfHourFee : JS.value;
  fastestFee : JS.value
}.

(** The collaborator: every field is the answer to one request, [None] when
    the request fails. *)
Record Mempool : Type := mkMempool {
  address_utxo : string -> option (list utxo);
  tx_details : string -> option (list tx_vout);
  fees_recommended : option fees;
  post_tx : string -> option string
}.

(** [config.json] *)
Record Config : Type := mkConfig {
  privateKey : string;
  sendAmountBTC : JS.value;
  feeRate : JS.value;
  network : string
}.

(** Calls that leave the process, in the order they are made. *)
Inductive event : Type :=
| FetchFees
| FetchUtxos (address : string)
| FetchTx (id : string)
| Signature (input : nat)
| Broadcast (hex : string).

Definition sum_values (us : list utxo) : Z :=
  fold_right (fun u acc => value u + acc) 0 us.

(** ** Runs: a trace of outside calls and either a failure or a result *)

Module Run.

Definition M (F A : Type) : Type := (list event * (F + A))%type.

Definition ret {F A : Type} (a : A) : M F A := ([], inr a).

Definition fail {F A : Type} (f : F) : M F A := ([], inl f).

Definition emit {F : Type} (e : event) : M F unit := ([e], inr tt).

Definition bind {F A B : Type} (c : M F A) (k : A -> M F B) : M F B :=
  match c with
  | (t, inl f) => (t, inl f)
  | (t, inr a) => let (t', r) := k a in (t ++ t', r)
  end.

(** A library call or request that throws aborts the run with [f]. *)
Definition orFail {F A : Type} (f : F) (o : option A) : M F A :=
  match o with Some a => ret a | None => fail f end.

Definition trace {F A : Type} (c : M F A) : list event := fst c.

Definition outcome {F A : Type} (c : M F A) : F + A := snd c.

Definition is_signature (e : event) : bool :=
  match e with Signature _ => true | _ => false end.

Definition is_broadcast (e : event) : bool :=
  match e with Broadcast _ => true | _ => false end.

(** No signature was produced and nothing was broadcast. *)
Definition nothing_signed (t : list event) : bool :=
  forallb (fun e => negb (is_signature e || is_broadcast e)) t.

End Run.

Notation "x <- c ;; k" := (Run.bind c (fun x => k))
  (at level 61, c at next level, right associativity).
Notation "c ;;; k" := (Run.bind c (fun _ => k))
  (at level 61, right associativity).

(** ** [String.prototype.trim]

    A string of the scripts is held as the bytes of its UTF-8 encoding.
    [trim] removes the white space and line terminators of ECMAScript from
    both ends: U+0009 to U+000D and U+0020 (one byte each), U+00A0 (two
    bytes), and U+1680, U+2000 to U+200A, U+2028, U+2029, U+202F, U+205F,
    U+3000 and U+FEFF (three bytes each). *)
Definition is_space (c : ascii) : bool :=
  let n := N_of_ascii c in ((n =? 32) || ((9 <=? n) && (n <=? 13)))%N.

Definition is_space2 (a b : ascii) : bool :=
  ((N_of_ascii a =? 194) && (N_of_ascii b =? 160))%N.

Definition is_space3 (a b c : ascii) : bool :=
  let x := N_of_ascii a in
  let y := N_of_ascii b in
  let z := N_of_ascii c in
  (((x =? 225) && (y =? 154) && (z =? 128))
   || ((x =? 226) && (y =? 128)
       && (((128 <=? z) && (z <=? 138)) || (z =? 168) || (z =? 169) || (z =? 175)))
   || ((x =? 226) && (y =? 129) && (z =? 159))
   || ((x =? 227) && (y =? 128) && (z =? 128))
   || ((x =? 239) && (y =? 187) && (z =? 191)))%N.

Fixpoint ltrim (s : string) : string :=
  match s with
  | String a r =>
      if is_space a then ltrim r
      else
        match r with
        | String b r2 =>
            if is_space2 a b then ltrim r2
            else
              match r2 with
              | String c r3 => if is_space3 a b c then ltrim r3 else s
              | EmptyString => s
              end
        | EmptyString => s
        end
  | EmptyString => EmptyString
  end.

(** The string without the white space it ends with: a suffix is dropped
    when it is white space throughout. *)
Fixpoint rtrim (s : string) : string :=
  match s with
  | String c r => if (ltrim s =? "")%string then EmptyString else String c (rtrim r)
  | EmptyString => EmptyString
  end.

Definition trim (s : string) : string := rtrim (ltrim s).

(** ** The taproot script *)

Module P2TR.

Record psbt_input : Type := mkInput {
  hash : string;
  index : nat;
  witnessUtxo_script : string;
  witnessUtxo_value : Z;
  tapInternalKey : list Z;
  tapKeySig : option (list Z)
}.

Record psbt_output : Type := mkOutput {
  address : string;
  out_value : Z
}.

Record Psbt : Type := mkPsbt {
  inputs : list psbt_input;
  outputs : list psbt_output
}.

(** The arguments of one [tx.hashForWitnessV1] call. *)
Record sighash_call : Type := mkCall {
  tx : Psbt;
  inIndex : nat;
  prevOutScripts : list string;
  values : list Z;
  hashType : Z;
  leafHash : option string
}.

(** [bitcoinjs-lib], [ecpair], [@noble/curves] and the runtime. *)
Record Lib : Type := mkLib {
  StringToNumber : string -> float;
  toUpperCase : string -> string;
  fromWIF : string -> string -> option (list Z);
  isValidPrivateKey : list Z -> bool;
  getPublicKey : list Z -> list Z;
  CURVE_n : Z;
  (** [schnorr.utils.numberToBytesBE] called with the number alone, as step 6
      calls it; [None] when it throws. *)
  numberToBytesBE : Z -> option (list Z);
  p2tr : list Z -> string -> option (string * string);
  addInput_accepts : Psbt -> psbt_input -> bool;
  addOutput_accepts : Psbt -> psbt_output -> bool;
  hashForWitnessV1 : sighash_call -> option (list Z);
  schnorr_sign : list Z -> list Z -> option (list Z);
  schnorr_verify : list Z -> list Z -> list Z -> option bool;
  finalize_toHex : Psbt -> option string
}.

Inductive failure : Type :=
| WifError
| NoUtxo
| InsufficientFunds (needed available : Z)
| AddInputFailed (u : utxo)
| ScriptMismatch (u : utxo) (fromApi expected : string)
| NegativeChange (change : Z)
| SigningFailed
| FinalizeFailed
| Uncaught.

Inductive ending : Type :=
| Sent (txId : string)
| BroadcastFailed
| Cancelled.

(** What steps 1 to 5 leave behind. *)
Record built : Type := mkBuilt {
  b_privateKeyBytes : list Z;
  b_pubkey : list Z;
  b_fromAddress : string;
  b_psbt : Psbt;
  b_selectedUtxos : list utxo;
  b_totalInput : Z;
  b_totalAmountToSend : Z;
  b_finalFee : Z;
  b_changeValue : Z
}.

(** What a run that reaches step 8 has computed. *)
Record summary : Type := mkSummary {
  psbt : Psbt;
  txHex : string;
  unsigned : built;
  how : ending
}.

Definition M : Type -> Type := Run.M failure.

Definition SIGHASH_DEFAULT : Z := 0.

Definition genesisBlockHash : string :=
  "000000000019d6689c085ae165831e934ff763ae46a2a6c172b3f1b60a8ce26f".

(** [estimateTxVbytes(inputCount, outputCount)] *)
Definition estimateTxVbytes (inputCount outputCount : nat) : float :=
  let base := 10.5%float in
  let inputSize := 57.5%float in
  let outputSize := 43%float in
  JS.Math_ceil (base + JS.Number_of_Z (Z.of_nat inputCount) * inputSize
                + JS.Number_of_Z (Z.of_nat outputCount) * outputSize)%float.

Section Script.

Variable lib : Lib.
Variable api : Mempool.
Variable config : Config.
Variable addresses : list string.
(** The operator's answer to the confirmation prompt as [confirmBroadcast]
    resolves it, trimmed and in upper case. *)
Variable answer : string.

(** [config.sendAmountBTC || 0.0001] *)
Definition amountToSendBTC : JS.value :=
  JS.or (sendAmountBTC config) (JS.number 0.0001%float).

(** [Math.floor(amountToSendBTC * 100000000)] *)
Definition amountInSats : float :=
  JS.Math_floor (JS.ToNumber (StringToNumber lib) amountToSendBTC * 100000000)%float.

(** [getFeeRate()]: the recommended rate first, the configured one when the
    response carries no usable rate or the request fails. *)
Definition getFeeRate : M JS.value :=
  Run.emit FetchFees ;;;
  match fees_recommended api with
  | Some data =>
      Run.ret (JS.or (JS.or (halfHourFee data) (fastestFee data)) (feeRate config))
  | None => Run.ret (feeRate config)
  end.

(** [BigInt(estimateTxVbytes(inputCount, addresses.length + 1) * feeRate)] *)
Definition feeFor (feeRate : JS.value) (inputCount : nat) : option Z :=
  JS.BigInt (estimateTxVbytes inputCount (List.length addresses + 1)
             * JS.ToNumber (StringToNumber lib) feeRate)%float.

(** Step 1: the private key bytes and the x-only public key. *)
Definition initKeys : option (list Z * list Z) :=
  match fromWIF lib (privateKey config) (network config) with
  | None => None
  | Some privateKeyBytes =>
      if negb (isValidPrivateKey lib privateKeyBytes) then None
      else
        let publicKeyBytes := firstn 32 (skipn 1 (getPublicKey lib privateKeyBytes)) in
        Some (privateKeyBytes, publicKeyBytes)
  end.

(** Step 2, the [for (const utxo of utxos)] loop.  [None] is the
    [RangeError] of [BigInt]. *)
Fixpoint selectLoop (feeRate : JS.value) (totalAmountToSend : Z)
    (utxos : list utxo) (selectedUtxos : list utxo) (totalInput : Z)
    (estimatedFee : Z) : option (list utxo * Z * Z) :=
  match utxos with
  | [] => Some (selectedUtxos, totalInput, estimatedFee)
  | utxo :: rest =>
      let selectedUtxos := selectedUtxos ++ [utxo] in
      let totalInput := totalInput + value utxo in
      match feeFor feeRate (List.length selectedUtxos) with
      | None => None
      | Some estimatedFee =>
          let totalNeeded := totalAmountToSend + estimatedFee in
          if totalNeeded <=? totalInput
          then Some (selectedUtxos, totalInput, estimatedFee)
          else selectLoop feeRate totalAmountToSend rest selectedUtxos
                 totalInput estimatedFee
      end
  end.

(** Step 2 as a whole: the first estimate, the loop and the balance check. *)
Definition selectUtxos (feeRate : JS.value) (totalAmountToSend : Z)
    (utxos : list utxo) : M (list utxo * Z * Z) :=
  _initialEstimatedFee <- Run.orFail Uncaught (feeFor feeRate 1) ;;
  sel <- Run.orFail Uncaught
           (selectLoop feeRate totalAmountToSend utxos [] 0 0) ;;
  let '(selectedUtxos, totalInput, estimatedFee) := sel in
  if totalInput <? totalAmountToSend + estimatedFee
  then Run.fail (InsufficientFunds (totalAmountToSend + estimatedFee) totalInput)
  else Run.ret (selectedUtxos, totalInput, estimatedFee).

(** Step 3: one input per selected UTXO, its script fetched and compared
    with the funding script. *)
Fixpoint addInputs (pubkey : list Z) (expectedScriptPubKeyHex : string)
    (selected : list utxo) (p : Psbt) : M Psbt :=
  match selected with
  | [] => Run.ret p
  | utxo :: rest =>
      Run.emit (FetchTx (txid utxo)) ;;;
      utxoDetails <- Run.orFail (AddInputFailed utxo) (tx_details api (txid utxo)) ;;
      let output := nth_error utxoDetails (vout utxo) in
      let scriptPubKeyFromApi :=
        match output with Some o => scriptpubkey o | None => None end in
      match scriptPubKeyFromApi with
      | None => Run.fail (AddInputFailed utxo)
      | Some s =>
          if (s =? "")%string then Run.fail (AddInputFailed utxo)
          else
            let scriptPubKeyFromApiHex := JS.Buffer_hex_roundtrip s in
            if negb (scriptPubKeyFromApiHex =? expectedScriptPubKeyHex)%string
            then Run.fail (ScriptMismatch utxo scriptPubKeyFromApiHex
                             expectedScriptPubKeyHex)
            else
              let input :=
                {| hash := txid utxo;
                   index := vout utxo;
                   witnessUtxo_script := JS.Buffer_hex_roundtrip scriptPubKeyFromApiHex;
                   witnessUtxo_value := value utxo;
                   tapInternalKey := pubkey;
                   tapKeySig := None |} in
              if addInput_accepts lib p input
              then addInputs pubkey expectedScriptPubKeyHex rest
                     {| inputs := inputs p ++ [input]; outputs := outputs p |}
              else Run.fail (AddInputFailed utxo)
      end
  end.

(** [psbt.addOutput]; a rejected output throws out of the script's body. *)
Definition addOutput (p : Psbt) (o : psbt_output) : M Psbt :=
  if addOutput_accepts lib p o
  then Run.ret {| inputs := inputs p; outputs := outputs p ++ [o] |}
  else Run.fail Uncaught.

(** Step 4: one output per recipient. *)
Fixpoint addOutputs (amount : Z) (recipients : list string) (p : Psbt) : M Psbt :=
  match recipients with
  | [] => Run.ret p
  | a :: rest =>
      p' <- addOutput p {| address := trim a; out_value := amount |} ;;
      addOutputs amount rest p'
  end.

(** Step 5: the change, and its output when it is not dust. *)
Definition addChange (fromAddress : string) (totalInput totalAmountToSend finalFee : Z)
    (p : Psbt) : M (Psbt * Z) :=
  let changeValue := totalInput - totalAmountToSend - finalFee in
  if changeValue <? 0 then Run.fail (NegativeChange changeValue)
  else if 546 <=? changeValue
  then p' <- addOutput p {| address := fromAddress; out_value := changeValue |} ;;
       Run.ret (p', changeValue)
  else Run.ret (p, changeValue).

(** Step 6, the key the signatures are made with.  [None] is the error the
    inner [try] rethrows when the conversion of the negated key throws. *)
Definition privateKeyToUse (privateKeyBytes : list Z) : option (list Z) :=
  let fullPublicKeyBytes := getPublicKey lib privateKeyBytes in
  match nth_error fullPublicKeyBytes 0 with
  | Some 3 =>
      let privKeyBigInt := JS.bytesToNumberBE privateKeyBytes in
      let N := CURVE_n lib in
      let tweakedPrivKeyBigInt := Z.rem (N - privKeyBigInt) N in
      numberToBytesBE lib tweakedPrivKeyBigInt
  | _ => Some privateKeyBytes
  end.

(** Step 6, what input [i]'s signature hash is asked over. *)
Definition sighashCall (p : Psbt) (selectedUtxos : list utxo) (i : nat)
    : option sighash_call :=
  match nth_error (inputs p) i with
  | None => None
  | Some input_i =>
      let prevoutScripts := map (fun _ : utxo => witnessUtxo_script input_i) selectedUtxos in
      let prevoutValues := map (fun _ : utxo => witnessUtxo_value input_i) selectedUtxos in
      match nth_error prevoutScripts i, nth_error prevoutValues i with
      | Some prevoutScript, Some prevoutValue =>
          Some {| tx := p;
                  inIndex := i;
                  prevOutScripts := [prevoutScript];
                  values := [prevoutValue];
                  hashType := SIGHASH_DEFAULT;
                  leafHash := Some genesisBlockHash |}
      | _, _ => None
      end
  end.

Definition setTapKeySig (i : nat) (sig : list Z) (p : Psbt) : Psbt :=
  {| inputs :=
       map (fun '(j, input) =>
              if Nat.eqb j i
              then {| hash := hash input;
                      index := index input;
                      witnessUtxo_script := witnessUtxo_script input;
                      witnessUtxo_value := witnessUtxo_value input;
                      tapInternalKey := tapInternalKey input;
                      tapKeySig := Some sig |}
              else input)
           (combine (seq 0 (List.length (inputs p))) (inputs p));
     outputs := outputs p |}.

(** Step 6, the body of the signing loop for input [i]. *)
Definition signInput (keyToUse pubkey : list Z) (selectedUtxos : list utxo)
    (i : nat) (p : Psbt) : M Psbt :=
  call <- Run.orFail SigningFailed (sighashCall p selectedUtxos i) ;;
  sighashBytes <- Run.orFail SigningFailed (hashForWitnessV1 lib call) ;;
  schnorrSignatureBytes <-
    Run.orFail SigningFailed (schnorr_sign lib sighashBytes keyToUse) ;;
  Run.emit (Signature i) ;;;
  isValid <- Run.orFail SigningFailed
               (schnorr_verify lib schnorrSignatureBytes sighashBytes pubkey) ;;
  if negb isValid then Run.fail SigningFailed
  else
    let finalSignatureBuffer :=
      if hashType call =? SIGHASH_DEFAULT then schnorrSignatureBytes
      else schnorrSignatureBytes ++ [hashType call] in
    Run.ret (setTapKeySig i finalSignatureBuffer p).

Fixpoint signLoop (keyToUse pubkey : list Z) (selectedUtxos : list utxo)
    (indices : list nat) (p : Psbt) : M Psbt :=
  match indices with
  | [] => Run.ret p
  | i :: rest =>
      p' <- signInput keyToUse pubkey selectedUtxos i p ;;
      signLoop keyToUse pubkey selectedUtxos rest p'
  end.

Definition signInputs (privateKeyBytes pubkey : list Z) (selectedUtxos : list utxo)
    (p : Psbt) : M Psbt :=
  keyToUse <- Run.orFail SigningFailed (privateKeyToUse privateKeyBytes) ;;
  signLoop keyToUse pubkey selectedUtxos (seq 0 (List.length (inputs p))) p.

(** Steps 1 to 5: the unsigned transaction. *)
Definition build : M built :=
  feeRate <- getFeeRate ;;
  keys <- Run.orFail WifError initKeys ;;
  let '(privateKeyBytes, pubkey) := keys in
  payment <- Run.orFail Uncaught (p2tr lib pubkey (network config)) ;;
  let '(fromAddress, expectedScriptPubKeyHex) := payment in
  Run.emit (FetchUtxos fromAddress) ;;;
  utxos <- Run.orFail Uncaught (address_utxo api fromAddress) ;;
  if Nat.eqb (List.length utxos) 0 then Run.fail NoUtxo
  else
    amount <- Run.orFail Uncaught (JS.BigInt amountInSats) ;;
    let totalAmountToSend := amount * Z.of_nat (List.length addresses) in
    sel <- selectUtxos feeRate totalAmountToSend utxos ;;
    let '(selectedUtxos, totalInput, estimatedFee) := sel in
    p <- addInputs pubkey expectedScriptPubKeyHex selectedUtxos
           {| inputs := []; outputs := [] |} ;;
    p <- addOutputs amount addresses p ;;
    let finalFee := estimatedFee in
    pc <- addChange fromAddress totalInput totalAmountToSend finalFee p ;;
    let '(p, changeValue) := pc in
    Run.ret {| b_privateKeyBytes := privateKeyBytes;
               b_pubkey := pubkey;
               b_fromAddress := fromAddress;
               b_psbt := p;
               b_selectedUtxos := selectedUtxos;
               b_totalInput := totalInput;
               b_totalAmountToSend := totalAmountToSend;
               b_finalFee := finalFee;
               b_changeValue := changeValue |}.

(** [confirmBroadcast]: what the prompt resolves to for the line the operator
    typed, [answer.trim().toUpperCase()]. *)
Definition confirmBroadcast (typed : string) : string :=
  toUpperCase lib (trim typed).

(** Steps 7 and 8: finalisation, the operator's confirmation, the
    broadcast. *)
Definition finish (b : built) (p : Psbt) : M summary :=
  txHex <- Run.orFail FinalizeFailed (finalize_toHex lib p) ;;
  let done (e : ending) :=
    {| psbt := p; txHex := txHex; unsigned := b; how := e |} in
  if (answer =? "Y")%string
  then
    Run.emit (Broadcast txHex) ;;;
    match post_tx api txHex with
    | Some txId => Run.ret (done (Sent txId))
    | None => Run.ret (done BroadcastFailed)
    end
  else Run.ret (done Cancelled).

(** [batchSend()] *)
Definition batchSend : M summary :=
  b <- build ;;
  p <- signInputs (b_privateKeyBytes b) (b_pubkey b) (b_selectedUtxos b)
         (b_psbt b) ;;
  finish b p.

End Script.

End P2TR.

(** ** The witness-key-hash script ([main.js]) *)

Module P2WPKH.

Record psbt_input : Type := mkInput {
  hash : string;
  index : nat;
  witnessUtxo_script : string;
  witnessUtxo_value : Z;
  partialSig : option (list Z)
}.

(** Output values are the script's [Number]s. *)
Record psbt_output : Type := mkOutput {
  address : string;
  out_value : float
}.

Record Psbt : Type := mkPsbt {
  inputs : list psbt_input;
  outputs : list psbt_output
}.

(** [bitcoinjs-lib], [ecpair], [tiny-secp256k1] and the runtime.  A key pair
    is the bytes of its private key. *)
Record Lib : Type := mkLib {
  StringToNumber : string -> float;
  fromWIF : string -> option (list Z);
  p2wpkh_address : list Z -> string;
  addInput_accepts : Psbt -> psbt_input -> bool;
  addOutput_accepts : Psbt -> psbt_output -> bool;
  psbt_signInput : Psbt -> nat -> list Z -> option (list Z);
  validateSignaturesOfAllInputs : Psbt -> option bool;
  finalize_toHex : Psbt -> option string
}.

Inductive failure : Type :=
| WifError
| FetchFailed
| NoUtxo
| NoFeeRate
| NoValidInput
| InsufficientFunds (needed sendTotal fee available shortfall : float)
| LibraryError
| BroadcastError.

Definition M : Type -> Type := Run.M failure.

(** The size estimate of [createTransaction], for [inputCount] inputs and
    [outputCount] outputs. *)
Definition estimatedSize (inputCount outputCount : nat) : float :=
  let inputSize := (JS.Number_of_Z (Z.of_nat inputCount) * 68)%float in
  let outputSize := (JS.Number_of_Z (Z.of_nat outputCount) * 34)%float in
  let baseSize := 10.5%float in
  JS.Math_ceil (inputSize + outputSize + baseSize)%float.

Section Script.

Variable lib : Lib.
Variable api : Mempool.
Variable config : Config.
Variable addresses : list string.

(** [Math.ceil(feeRate * estimatedSize)] *)
Definition estimatedFee (feeRate : JS.value) (inputCount outputCount : nat) : float :=
  JS.Math_ceil (JS.ToNumber (StringToNumber lib) feeRate
                * estimatedSize inputCount outputCount)%float.

(** [getFeeRate()]: the configured rate when it is a positive number, the
    recommended [fastestFee] otherwise. *)
Definition getFeeRate : M JS.value :=
  if JS.truthy (feeRate config) && JS.typeof_number (feeRate config)
     && JS.gt0 (feeRate config)
  then Run.ret (feeRate config)
  else
    Run.emit FetchFees ;;;
    match fees_recommended api with
    | Some data => Run.ret (fastestFee data)
    | None => Run.fail NoFeeRate
    end.

(** The [for (const utxo of utxos)] loop: every UTXO whose previous output
    carries a script becomes an input. *)
Fixpoint addInputs (utxos : list utxo) (p : Psbt) (inputAmount : Z) : M (Psbt * Z) :=
  match utxos with
  | [] => Run.ret (p, inputAmount)
  | utxo :: rest =>
      Run.emit (FetchTx (txid utxo)) ;;;
      txDetails <- Run.orFail FetchFailed (tx_details api (txid utxo)) ;;
      let output := nth_error txDetails (vout utxo) in
      match match output with Some o => scriptpubkey o | None => None end with
      | None => addInputs rest p inputAmount
      | Some s =>
          if (s =? "")%string then addInputs rest p inputAmount
          else
            let input :=
              {| hash := txid utxo;
                 index := vout utxo;
                 witnessUtxo_script := JS.Buffer_hex_roundtrip s;
                 witnessUtxo_value := value utxo;
                 partialSig := None |} in
            if addInput_accepts lib p input
            then addInputs rest
                   {| inputs := inputs p ++ [input]; outputs := outputs p |}
                   (inputAmount + value utxo)
            else Run.fail LibraryError
      end
  end.

Definition addOutput (p : Psbt) (o : psbt_output) : M Psbt :=
  if addOutput_accepts lib p o
  then Run.ret {| inputs := inputs p; outputs := outputs p ++ [o] |}
  else Run.fail LibraryError.

Fixpoint addOutputs (amount : float) (recipients : list string) (p : Psbt) : M Psbt :=
  match recipients with
  | [] => Run.ret p
  | recipientAddress :: rest =>
      p' <- addOutput p {| address := recipientAddress; out_value := amount |} ;;
      addOutputs amount rest p'
  end.

Definition setPartialSig (i : nat) (sig : list Z) (p : Psbt) : Psbt :=
  {| inputs :=
       map (fun '(j, input) =>
              if Nat.eqb j i
              then {| hash := hash input;
                      index := index input;
                      witnessUtxo_script := witnessUtxo_script input;
                      witnessUtxo_value := witnessUtxo_value input;
                      partialSig := Some sig |}
              else input)
           (combine (seq 0 (List.length (inputs p))) (inputs p));
     outputs := outputs p |}.

(** [for (let i = 0; ...) psbt.signInput(i, keyPair)] *)
Fixpoint signLoop (keyPair : list Z) (indices : list nat) (p : Psbt) : M Psbt :=
  match indices with
  | [] => Run.ret p
  | i :: rest =>
      sig <- Run.orFail LibraryError (psbt_signInput lib p i keyPair) ;;
      Run.emit (Signature i) ;;;
      signLoop keyPair rest (setPartialSig i sig p)
  end.

(** What [createTransaction] has computed when it returns. *)
Record created : Type := mkCreated {
  c_psbt : Psbt;
  c_txHex : string;
  c_inputAmount : Z;
  c_estimatedFee : float;
  c_totalAddressesAmount : float;
  c_changeAmount : float
}.

(** [createTransaction(privateKey, sendAmountBTC)] *)
Definition createTransaction (privateKey : string) (sendAmountBTC : JS.value)
    : M created :=
  keyPair <- Run.orFail WifError (fromWIF lib privateKey) ;;
  let address := p2wpkh_address lib keyPair in
  Run.emit (FetchUtxos address) ;;;
  utxos <- Run.orFail FetchFailed (address_utxo api address) ;;
  if Nat.eqb (List.length utxos) 0 then Run.fail NoUtxo
  else
    feeRate <- getFeeRate ;;
    pi <- addInputs utxos {| inputs := []; outputs := [] |} 0 ;;
    let '(p, inputAmount) := pi in
    if Nat.eqb (List.length (inputs p)) 0 then Run.fail NoValidInput
    else
      let totalAmountInSatoshis :=
        JS.Math_floor (JS.ToNumber (StringToNumber lib) sendAmountBTC * 100000000)%float in
      let inputCount := List.length utxos in
      let outputCount := (List.length addresses + 1)%nat in
      let estimatedFee := estimatedFee feeRate inputCount outputCount in
      let totalAddressesAmount :=
        (JS.Number_of_Z (Z.of_nat (List.length addresses)) * totalAmountInSatoshis)%float in
      let available := JS.Number_of_Z inputAmount in
      if (available <? totalAddressesAmount + estimatedFee)%float
      then Run.fail (InsufficientFunds (totalAddressesAmount + estimatedFee)%float
                       totalAddressesAmount estimatedFee available
                       (totalAddressesAmount + estimatedFee - available)%float)
      else
        p <- addOutputs totalAmountInSatoshis addresses p ;;
        let changeAmount := (available - totalAddressesAmount - estimatedFee)%float in
        p <- (if (546 <? changeAmount)%float
              then addOutput p {| address := address; out_value := changeAmount |}
              else Run.ret p) ;;
        p <- signLoop keyPair (seq 0 (List.length (inputs p))) p ;;
        _valid <- Run.orFail LibraryError (validateSignaturesOfAllInputs lib p) ;;
        txHex <- Run.orFail LibraryError (finalize_toHex lib p) ;;
        Run.ret {| c_psbt := p;
                   c_txHex := txHex;
                   c_inputAmount := inputAmount;
                   c_estimatedFee := estimatedFee;
                   c_totalAddressesAmount := totalAddressesAmount;
                   c_changeAmount := changeAmount |}.

(** The main program: build, then broadcast. *)
Definition main : M (created * string) :=
  c <- createTransaction (privateKey config) (sendAmountBTC config) ;;
  Run.emit (Broadcast (c_txHex c)) ;;;
  txId <- Run.orFail BroadcastError (post_tx api (c_txHex c)) ;;
  Run.ret (c, txId).

End Script.

End P2WPKH.

(** [btcToSats] of [utils.js] *)
Definition btcToSats (btc : float) : float :=
  JS.Math_floor (btc * 100000000)%float.

(** ** Statements the theorems are phrased with *)

(** The configured rate is "a valid positive number", as [main.js] tests it. *)
Definition valid_configured_rate (v : JS.value) : bool :=
  JS.truthy v && JS.typeof_number v && JS.gt0 v.

(** The selector's bound for the first [j] candidates of the taproot script:
    their values cover the payout and the fee estimated for [j] inputs. *)
Definition covers (lib : P2TR.Lib) (addresses : list string) (feeRate : JS.value)
    (totalAmountToSend : Z) (utxos : list utxo) (j : nat) : bool :=
  match P2TR.feeFor lib addresses feeRate j with
  | Some fee => totalAmountToSend + fee <=? sum_values (firstn j utxos)
  | None => false
  end.

(** The same bound with the estimate of [main.js]. *)
Definition covers_wpkh (lib : P2WPKH.Lib) (addresses : list string)
    (feeRate sendAmountBTC : JS.value) (utxos : list utxo) (j : nat) : bool :=
  let amount :=
    JS.Math_floor (JS.ToNumber (P2WPKH.StringToNumber lib) sendAmountBTC * 100000000)%float in
  let total := (JS.Number_of_Z (Z.of_nat (List.length addresses)) * amount)%float in
  let fee := P2WPKH.estimatedFee lib feeRate j (List.length addresses + 1) in
  (total + fee <=? JS.Number_of_Z (sum_values (firstn j utxos)))%float.

(** The previous outputs a UTXO of the response has a usable script for. *)
Definition script_of (api : Mempool) (u : utxo) : option string :=
  match tx_details api (txid u) with
  | Some vouts =>
      match nth_error vouts (vout u) with
      | Some o =>
          match scriptpubkey o with
          | Some s => if (s =? "")%string then None else Some s
          | None => None
          end
      | None => None
      end
  | None => None
  end.

Definition has_script (api : Mempool) (u : utxo) : bool :=
  match script_of api u with Some _ => true | None => false end.

(** An input with its key-path signature set. *)
Definition with_sig (sig : list Z) (input : P2TR.psbt_input) : P2TR.psbt_input :=
  {| P2TR.hash := P2TR.hash input;
     P2TR.index := P2TR.index input;
     P2TR.witnessUtxo_script := P2TR.witnessUtxo_script input;
     P2TR.witnessUtxo_value := P2TR.witnessUtxo_value input;
     P2TR.tapInternalKey := P2TR.tapInternalKey input;
     P2TR.tapKeySig := Some sig |}.

(** The x-only public key of a private key: bytes 1 to 32 of the compressed
    key. *)
Definition xonly_of (lib : P2TR.Lib) (priv : list Z) : list Z :=
  firstn 32 (skipn 1 (P2TR.getPublicKey lib priv)).

(** The input carries a signature made with [keyToUse] over some hash, and
    the library verifies it over that hash against [pubkey]. *)
Definition verified (lib : P2TR.Lib) (keyToUse pubkey : list Z)
    (input : P2TR.psbt_input) : Prop :=
  exists hash sig,
    P2TR.tapKeySig input = Some sig /\
    P2TR.schnorr_sign lib hash keyToUse = Some sig /\
    P2TR.schnorr_verify lib sig hash pubkey = Some true.

(** What an input spends, and what a UTXO offers. *)
Definition wpkh_outpoint (i : P2WPKH.psbt_input) : string * nat * Z :=
  (P2WPKH.hash i, P2WPKH.index i, P2WPKH.witnessUtxo_value i).

Definition utxo_outpoint (u : utxo) : string * nat * Z :=
  (txid u, vout u, value u).

Definition sum_out_values (os : list P2TR.psbt_output) : Z :=
  fold_right (fun o acc => P2TR.out_value o + acc) 0 os.

(** [r] is the double [x] rounded down to an integer: for a finite
    [x = v * 2^e] the largest integer that is not above it, and nothing for
    [NaN] and the infinities. *)
Definition rounded_down (x : float) (r : option Z) : Prop :=
  match Prim2SF x with
  | S754_zero _ => r = Some 0
  | S754_finite s m e =>
      let v := if s then Z.neg m else Z.pos m in
      exists z,
        r = Some z /\
        (0 <= e -> z = v * 2 ^ e) /\
        (e < 0 -> z * 2 ^ (- e) <= v < (z + 1) * 2 ^ (- e))
  | _ => r = None
  end.

(** ** Concrete collaborators, used to run the scripts on examples *)

Module Demo.

Local Open Scope string_scope.
Local Open Scope list_scope.
Local Open Scope Z_scope.

(** The order of the secp256k1 group. *)
Definition secp256k1_n : Z :=
  0xFFFFFFFFFFFFFFFFFFFFFFFFFFFFFFFEBAAEDCE6AF48A03BBFD25E8CD0364141.

(** A stand-in for the curve: the additive group of integers modulo the
    group order, generated by 1.  A "point" is even or odd as the integer
    is, and a point and its opposite share the "x coordinate"
    [min P (n - P)]. *)
Definition scalar (bytes : list Z) : Z := JS.bytesToNumberBE bytes mod secp256k1_n.

Definition even_point (P : Z) : Z := if Z.even P then P else secp256k1_n - P.

Definition xonly (P : Z) : list Z := JS.bytesBE 32 (Z.min P (secp256k1_n - P)).

Definition getPublicKey (priv : list Z) : list Z :=
  let P := scalar priv in
  (if Z.even P then 2 else 3) :: xonly P.

Definition challenge (r p m : list Z) : Z :=
  JS.bytesToNumberBE (r ++ p ++ m) mod secp256k1_n.

(** Schnorr signing and verification in the fashion of BIP340 over that
    group. *)
Definition schnorr_sign (m key : list Z) : option (list Z) :=
  let d0 := scalar key in
  if d0 =? 0 then None
  else
    let d := even_point d0 in
    let k := even_point (1 + JS.bytesToNumberBE m mod (secp256k1_n - 1)) in
    let e := challenge (xonly k) (xonly d) m in
    Some (xonly k ++ JS.bytesBE 32 ((k + e * d) mod secp256k1_n)).

Definition schnorr_verify (sig m pub : list Z) : option bool :=
  let r := firstn 32 sig in
  let s := JS.bytesToNumberBE (skipn 32 sig) in
  let P := even_point (JS.bytesToNumberBE pub) in
  let e := challenge r pub m in
  let R := (s - e * P) mod secp256k1_n in
  Some (Z.even R && negb (R =? 0)
        && (JS.bytesToNumberBE (xonly R) =? JS.bytesToNumberBE r)).

(** A stand-in for the signature hash: it returns what it was asked to
    commit to. *)
Definition hashForWitnessV1 (c : P2TR.sighash_call) : option (list Z) :=
  Some (Z.of_nat (P2TR.inIndex c) :: P2TR.values c).

Definition fundingScript : string := "5120ab".

(** The conversion of a number to bytes when no length is given, in the
    fashion of the signer library: the number's hexadecimal digits, unpadded,
    read as bytes, and an error when their count is odd. *)
Definition numberToBytesBE (n : Z) : option (list Z) :=
  if n <? 0 then None
  else
    let digits := if n =? 0 then 1 else Z.log2 n / 4 + 1 in
    if Z.odd digits then None else Some (JS.bytesBE (Z.to_nat (digits / 2)) n).

(** Upper case of the letters a to z. *)
Fixpoint toUpperCase (s : string) : string :=
  match s with
  | String c r =>
      let n := N_of_ascii c in
      String (if ((97 <=? n) && (n <=? 122))%N then ascii_of_N (n - 32) else c)
        (toUpperCase r)
  | EmptyString => EmptyString
  end.

Definition lib (key : Z) : P2TR.Lib :=
  {| P2TR.StringToNumber := fun _ => nan;
     P2TR.toUpperCase := toUpperCase;
     P2TR.fromWIF := fun _ _ => Some (JS.bytesBE 32 key);
     P2TR.isValidPrivateKey :=
       fun k => (0 <? JS.bytesToNumberBE k) && (JS.bytesToNumberBE k <? secp256k1_n);
     P2TR.getPublicKey := getPublicKey;
     P2TR.CURVE_n := secp256k1_n;
     P2TR.numberToBytesBE := numberToBytesBE;
     P2TR.p2tr := fun _ _ => Some ("bc1pfunding", fundingScript);
     P2TR.addInput_accepts := fun _ _ => true;
     P2TR.addOutput_accepts := fun _ _ => true;
     P2TR.hashForWitnessV1 := hashForWitnessV1;
     P2TR.schnorr_sign := schnorr_sign;
     P2TR.schnorr_verify := schnorr_verify;
     P2TR.finalize_toHex := fun _ => Some "020000000001" |}.

Definition u (id : string) (v : Z) : utxo := {| txid := id; vout := 0; value := v |}.

(** A block explorer that knows [utxos], answers every transaction lookup
    with [script] at output 0 except for the transaction [odd], which
    carries [oddScript], and recommends [rate]. *)
Definition api (utxos : list utxo) (script : string) (odd : string)
    (oddScript : option string) (rate : option fees) : Mempool :=
  {| address_utxo := fun _ => Some utxos;
     tx_details :=
       fun id => Some [ {| scriptpubkey :=
                             if (id =? odd)%string then oddScript else Some script |} ];
     fees_recommended := rate;
     post_tx := fun _ => Some "txid" |}.

Definition config (amount rate : JS.value) : Config :=
  {| privateKey := "wif"; sendAmountBTC := amount; feeRate := rate;
     network := "mainnet" |}.

Definition rate5 : option fees :=
  Some {| halfHourFee := JS.number 5; fastestFee := JS.number 8 |}.

Definition recipients : list string := ["bc1qalice"; " bc1qbob "].

(** The lines of an address file saved with a byte order mark and Windows
    line ends: the first starts with U+FEFF, each ends with a carriage
    return, and the second has a no-break space before it. *)
Definition fileRecipients : list string :=
  [ String "239"%char (String "187"%char (String "191"%char
      (String.append "bc1qalice" (String "013"%char EmptyString))));
    String.append "bc1qbob"
      (String "194"%char (String "160"%char (String "013"%char EmptyString))) ].

(** The scenario of three UTXOs, two recipients at 10000 satoshis and 5
    sat/vB. *)
Definition three : list utxo := [u "a" 100000; u "b" 50000; u "c" 20000].

(** A wallet whose first UTXO does not cover the payment. *)
Definition two : list utxo := [u "a" 15000; u "b" 10000; u "c" 7000].

(** The witness-key-hash library: it signs an input only when the input's
    script is the funding script. *)
Definition wpkhScript : string := "0014cd".

Definition wlib : P2WPKH.Lib :=
  {| P2WPKH.StringToNumber := fun _ => nan;
     P2WPKH.fromWIF := fun _ => Some (JS.bytesBE 32 4);
     P2WPKH.p2wpkh_address := fun _ => "bc1qfunding";
     P2WPKH.addInput_accepts := fun _ _ => true;
     P2WPKH.addOutput_accepts := fun _ _ => true;
     P2WPKH.psbt_signInput :=
       fun p i _ =>
         match nth_error (P2WPKH.inputs p) i with
         | Some input =>
             if (P2WPKH.witnessUtxo_script input =? wpkhScript)%string
             then Some [48; Z.of_nat i] else None
         | None => None
         end;
     P2WPKH.validateSignaturesOfAllInputs := fun _ => Some true;
     P2WPKH.finalize_toHex := fun _ => Some "020000000001" |}.

End Demo.

(** ** [utils.js], and the conversion helpers of the taproot script *)

Module Utils.

(** [hexToBuffer]: [Buffer.from(hex, 'hex')], as bytes. *)
Fixpoint hexToBuffer (hex : string) : list Z :=
  match hex with
  | String a (String b rest) =>
      match JS.hexval a, JS.hexval b with
      | Some x, Some y => Z.of_N (16 * x + y) :: hexToBuffer rest
      | _, _ => []
      end
  | _ => []
  end.

(** [bufferToHex]: [Buffer.from(buffer).toString('hex')].  [Buffer.from]
    keeps the low eight bits of every element. *)
Fixpoint bufferToHex (buffer : list Z) : string :=
  match buffer with
  | [] => EmptyString
  | b :: rest =>
      let byte := b mod 256 in
      String (JS.hexdigit (Z.to_N (byte / 16)))
        (String (JS.hexdigit (Z.to_N (byte mod 16))) (bufferToHex rest))
  end.

(** [satoshiToBTC] *)
Definition satoshiToBTC (satoshi : float) : float := (satoshi / 100000000)%float.

End Utils.

(** ** More vocabulary for the statements *)

(** What a trace broadcast, and which inputs it signed, in order. *)
Definition broadcasts (t : list event) : list string :=
  flat_map (fun e => match e with Broadcast hex => [hex] | _ => [] end) t.

Definition signed_inputs (t : list event) : list nat :=
  flat_map (fun e => match e with Signature i => [i] | _ => [] end) t.

(** The requests of a trace for previous transactions, in order. *)
Definition fetched_txs (t : list event) : list string :=
  flat_map (fun e => match e with FetchTx id => [id] | _ => [] end) t.

(** Everything of a taproot input but its signature. *)
Definition tr_unsigned (i : P2TR.psbt_input) : string * nat * string * Z * list Z :=
  (P2TR.hash i, P2TR.index i, P2TR.witnessUtxo_script i, P2TR.witnessUtxo_value i,
   P2TR.tapInternalKey i).

(** A library that differs from [lib] only in what
    [validateSignaturesOfAllInputs] answers. *)
Definition with_validation (lib : P2WPKH.Lib)
    (answer : P2WPKH.Psbt -> option bool) : P2WPKH.Lib :=
  {| P2WPKH.StringToNumber := P2WPKH.StringToNumber lib;
     P2WPKH.fromWIF := P2WPKH.fromWIF lib;
     P2WPKH.p2wpkh_address := P2WPKH.p2wpkh_address lib;
     P2WPKH.addInput_accepts := P2WPKH.addInput_accepts lib;
     P2WPKH.addOutput_accepts := P2WPKH.addOutput_accepts lib;
     P2WPKH.psbt_signInput := P2WPKH.psbt_signInput lib;
     P2WPKH.validateSignaturesOfAllInputs := answer;
     P2WPKH.finalize_toHex := P2WPKH.finalize_toHex lib |}.

(** [btcToSats(satoshiToBTC(n))] gives back [n] or [n - 1]. *)
Definition satoshi_roundtrip_close (n : Z) : bool :=
  match JS.BigInt (btcToSats (Utils.satoshiToBTC (JS.Number_of_Z n))) with
  | Some m => (m =? n) || (m =? n - 1)
  | None => false
  end.

(** [f] holds of [z], [z + 1], ..., [z + k - 1]. *)
Fixpoint holds_from (f : Z -> bool) (z : Z) (k : nat) : bool :=
  match k with
  | O => true
  | S k' => f z && holds_from f (z + 1) k'
  end.

(** * Properties *)

(** ** The model on small inputs *)

Example Math_floor_half : JS.Math_floor 2.5 = 2%float.
Proof. reflexivity. Qed.

Example Math_ceil_negative_half : JS.BigInt (JS.Math_ceil (-0.5)) = Some 0.
Proof. reflexivity. Qed.

Example BigInt_of_integral_product : JS.BigInt (154 * 1.5) = Some 231.
Proof. reflexivity. Qed.

Example BigInt_of_fraction_throws : JS.BigInt (255 * 1.5) = None.
Proof. reflexivity. Qed.

Example BigInt_of_NaN_throws : JS.BigInt nan = None.
Proof. reflexivity. Qed.

(** Doubles, not decimals: 0.00000029 BTC are 28 satoshis. *)
Example btcToSats_rounds_as_doubles : btcToSats 0.00000029 = 28%float.
Proof. reflexivity. Qed.

Example btcToSats_default : btcToSats 0.0001 = 10000%float.
Proof. reflexivity. Qed.

Example hex_is_lowered : JS.Buffer_hex_roundtrip "5120AB" = "5120ab"%string.
Proof. reflexivity. Qed.

Example hex_stops_at_first_bad_pair : JS.Buffer_hex_roundtrip "51zz20" = "51"%string.
Proof. reflexivity. Qed.

Example hex_drops_odd_digit : JS.Buffer_hex_roundtrip "abc" = "ab"%string.
Proof. reflexivity. Qed.

Example trim_address : trim " bc1qbob " = "bc1qbob"%string.
Proof. reflexivity. Qed.

Example trim_file_lines :
  map trim Demo.fileRecipients = ["bc1qalice"%string; "bc1qbob"%string] /\
  map String.length Demo.fileRecipients = [13%nat; 10%nat].
Proof. split; reflexivity. Qed.

(** White space inside a line stays, and so does a byte that only looks like
    the end of a white-space character. *)
Example trim_keeps_the_inside :
  trim " a b " = "a b"%string /\
  trim (String "160"%char "x") = String "160"%char "x".
Proof. split; reflexivity. Qed.

Example bytes_of_258 :
  JS.bytesBE 3 258 = [0; 1; 2] /\ JS.bytesToNumberBE [0; 1; 2] = 258.
Proof. split; reflexivity. Qed.

(** 10.5 + 57.5 + 3 * 43 = 197, and 10.5 + 2 * 57.5 + 3 * 43 = 254.5. *)
Example estimateTxVbytes_1_3 : P2TR.estimateTxVbytes 1 3 = 197%float.
Proof. reflexivity. Qed.

Example estimateTxVbytes_2_3 : P2TR.estimateTxVbytes 2 3 = 255%float.
Proof. reflexivity. Qed.

(** 3 * 68 + 3 * 34 + 10.5 = 316.5. *)
Example estimatedSize_3_3 : P2WPKH.estimatedSize 3 3 = 317%float.
Proof. reflexivity. Qed.

(** A rate of 1.5 sat/vB makes the fee of two inputs 382.5, which is no
    [BigInt]: the taproot run ends in its outermost handler. *)
Example fractional_fee_is_uncaught :
  P2TR.feeFor (Demo.lib 4) Demo.recipients (JS.number 1.5) 2 = None /\
  Run.outcome
    (P2TR.batchSend (Demo.lib 4)
       (Demo.api Demo.two "5120ab" "none" None
          (Some {| halfHourFee := JS.number 1.5; fastestFee := JS.null |}))
       (Demo.config JS.undefined JS.undefined) Demo.recipients "Y")
  = inl P2TR.Uncaught.
Proof. split; reflexivity. Qed.

(** Three UTXOs of 100000, 50000 and 20000 satoshis, two recipients of 10000
    satoshis, 5 sat/vB: the taproot script selects the first UTXO, pays a fee
    of 985 satoshis and returns 79015 satoshis. *)
Example taproot_three_utxos :
  exists t b,
    P2TR.build (Demo.lib 4) (Demo.api Demo.three "5120ab" "none" None Demo.rate5)
      (Demo.config JS.undefined JS.undefined) Demo.recipients = (t, inr b) /\
    P2TR.b_selectedUtxos b = [Demo.u "a" 100000] /\
    P2TR.b_finalFee b = 985 /\
    P2TR.b_changeValue b = 79015 /\
    List.length (P2TR.outputs (P2TR.b_psbt b)) = 3%nat.
Proof. do 2 eexists. vm_compute. repeat split. Qed.

(** ** Runs *)

Section RunFacts.

Context {F A B : Type}.

Lemma bind_inr (c : Run.M F A) (k : A -> Run.M F B) t b :
  Run.bind c k = (t, inr b) ->
  exists t1 a t2, c = (t1, inr a) /\ k a = (t2, inr b) /\ t = t1 ++ t2.
Proof.
  unfold Run.bind. destruct c as [t1 [f | a]]; [discriminate |].
  destruct (k a) as [t2 r] eqn:E. intros H. inversion H; subst.
  exists t1, a, t2. auto.
Qed.

Lemma bind_inl (c : Run.M F A) (k : A -> Run.M F B) t f :
  Run.bind c k = (t, inl f) ->
  c = (t, inl f) \/
  exists t1 a t2, c = (t1, inr a) /\ k a = (t2, inl f) /\ t = t1 ++ t2.
Proof.
  unfold Run.bind. destruct c as [t1 [f' | a]].
  - intros H. inversion H; subst. now left.
  - destruct (k a) as [t2 r] eqn:E. intros H. inversion H; subst.
    right. exists t1, a, t2. auto.
Qed.

Lemma bind_ok (c : Run.M F A) (k : A -> Run.M F B) t1 a :
  c = (t1, inr a) -> Run.bind c k = (t1 ++ fst (k a), snd (k a)).
Proof. intros ->. unfold Run.bind. now destruct (k a). Qed.

Lemma orFail_inr (f : F) (o : option A) t a :
  Run.orFail f o = (t, inr a) -> o = Some a /\ t = [].
Proof. destruct o; cbn; intros H; inversion H; auto. Qed.

Lemma orFail_inl (f : F) (o : option A) t g :
  Run.orFail f o = (t, inl g) -> o = None /\ t = [] /\ g = f.
Proof. destruct o; cbn; intros H; inversion H; auto. Qed.

End RunFacts.

Lemma emit_inr {F : Type} (e : event) t (x : unit) :
  @Run.emit F e = (t, inr x) -> t = [e].
Proof. cbn. intros H. now inversion H. Qed.

Lemma nothing_signed_app t1 t2 :
  Run.nothing_signed (t1 ++ t2) = Run.nothing_signed t1 && Run.nothing_signed t2.
Proof. unfold Run.nothing_signed. apply forallb_app. Qed.

(** Splits a successful [bind] in a hypothesis into its two halves. *)
Tactic Notation "run_inv" hyp(H) "as" ident(a) ident(H1) ident(H2) :=
  let t1 := fresh "t" in
  let t2 := fresh "t" in
  let Ht := fresh "Htrace" in
  apply bind_inr in H; destruct H as (t1 & a & t2 & H1 & H2 & Ht).

(** ** Numbers *)

Lemma number_eq_inv x y : JS.number x = JS.number y -> x = y.
Proof. intros H. now inversion H. Qed.

Lemma sum_values_app us vs :
  sum_values (us ++ vs) = sum_values us + sum_values vs.
Proof.
  unfold sum_values.
  induction us as [| u us IH]; cbn; [reflexivity | rewrite IH; lia].
Qed.

Lemma bytesToNumberBE_snoc l b :
  JS.bytesToNumberBE (l ++ [b]) = JS.bytesToNumberBE l * 256 + b.
Proof. unfold JS.bytesToNumberBE. now rewrite fold_left_app. Qed.

Lemma bytes_roundtrip_len len n :
  JS.bytesToNumberBE (JS.bytesBE len n) = n mod 256 ^ Z.of_nat len.
Proof.
  revert n. induction len as [| len IH]; intros n.
  - cbn. now rewrite Z.mod_1_r.
  - cbn [JS.bytesBE]. rewrite bytesToNumberBE_snoc, IH.
    rewrite Nat2Z.inj_succ, Z.pow_succ_r by lia.
    rewrite Z.rem_mul_r by (try apply Z.pow_nonzero; lia). ring.
Qed.

Lemma bytes_roundtrip n :
  0 <= n < 2 ^ 256 -> JS.bytesToNumberBE (JS.bytesBE 32 n) = n.
Proof.
  intros H. rewrite bytes_roundtrip_len.
  apply Z.mod_small. exact H.
Qed.
(** ** The taproot selector *)

Section Selector.

Variable lib : P2TR.Lib.
Variable addresses : list string.
Variable feeRate : JS.value.
Variable total : Z.

Let feeFor := P2TR.feeFor lib addresses feeRate.
Let selectLoop := P2TR.selectLoop lib addresses feeRate total.

(** What the loop returns, from any intermediate state: a prefix of the
    remaining candidates was appended; no shorter non-empty prefix met the
    bound; the loop ended on the bound or on the end of the list. *)
Lemma selectLoop_spec utxos :
  forall sel0 tot0 fee0 sel tot fee,
    selectLoop utxos sel0 tot0 fee0 = Some (sel, tot, fee) ->
    exists k,
      (k <= List.length utxos)%nat /\
      sel = sel0 ++ firstn k utxos /\
      tot = tot0 + sum_values (firstn k utxos) /\
      (forall j, (1 <= j < k)%nat ->
         exists fj, feeFor (List.length sel0 + j) = Some fj /\
                    tot0 + sum_values (firstn j utxos) < total + fj) /\
      ((k = 0%nat /\ utxos = [] /\ fee = fee0) \/
       ((1 <= k)%nat /\ feeFor (List.length sel0 + k) = Some fee /\
        (total + fee <= tot \/ k = List.length utxos))).
Proof.
  subst feeFor selectLoop.
  induction utxos as [| u rest IH]; intros sel0 tot0 fee0 sel tot fee H.
  - cbn in H. inversion H; subst. exists 0%nat. cbn.
    rewrite app_nil_r. repeat split; auto; try lia.
  - cbn [P2TR.selectLoop] in H.
    assert (Hlen : List.length (sel0 ++ [u]) = (List.length sel0 + 1)%nat)
      by (rewrite length_app; reflexivity).
    destruct (P2TR.feeFor lib addresses feeRate (List.length (sel0 ++ [u])))
      as [f |] eqn:Hf; [| discriminate].
    rewrite Hlen in Hf.
    destruct (total + f <=? tot0 + value u) eqn:Hc.
    + inversion H; subst. exists 1%nat. cbn [firstn List.length].
      apply Z.leb_le in Hc.
      split; [lia |]. split; [reflexivity |].
      split; [unfold sum_values; cbn; lia |].
      split; [intros j Hj; lia |].
      right. split; [lia |]. split; [exact Hf |]. left. exact Hc.
    + apply IH in H. destruct H as (k & Hk & Hsel & Htot & Hpre & Hend).
      apply Z.leb_gt in Hc.
      exists (S k). cbn [firstn List.length].
      assert (Hsum : forall l, sum_values (u :: l) = value u + sum_values l)
        by reflexivity.
      split; [lia |].
      split; [rewrite Hsel, <- app_assoc; reflexivity |].
      split; [rewrite Htot, Hsum; lia |].
      split.
      * intros j Hj. destruct j as [| [| j]]; [lia | |].
        -- exists f. split; [exact Hf |].
           cbn [firstn]. rewrite Hsum. unfold sum_values at 1. cbn. lia.
        -- destruct (Hpre (S j)) as (fj & Hfj & Hlt); [lia |].
           exists fj. rewrite Hlen in Hfj. split.
           ++ rewrite <- Hfj. f_equal. lia.
           ++ cbn [firstn] in *. rewrite Hsum. lia.
      * right. destruct Hend as [(-> & -> & ->) | (Hk1 & Hfee & Hstop)].
        -- split; [lia |]. split; [exact Hf |]. right. reflexivity.
        -- split; [lia |]. split.
           ++ rewrite Hlen in Hfee. rewrite <- Hfee. f_equal. lia.
           ++ destruct Hstop as [Hstop | ->]; [left; exact Hstop | right; reflexivity].
Qed.

(** A selection that passes the balance check is the shortest non-empty
    prefix of the candidates that meets the bound. *)
Lemma selectUtxos_greedy utxos t sel tot fee :
  P2TR.selectUtxos lib addresses feeRate total utxos = (t, inr (sel, tot, fee)) ->
  utxos <> [] ->
  exists k,
    (1 <= k <= List.length utxos)%nat /\
    sel = firstn k utxos /\
    tot = sum_values sel /\
    feeFor k = Some fee /\
    total + fee <= tot /\
    covers lib addresses feeRate total utxos k = true /\
    (forall j, (1 <= j < k)%nat ->
       covers lib addresses feeRate total utxos j = false).
Proof.
  intros H Hne. unfold P2TR.selectUtxos in H.
  run_inv H as fee1 Hfee1 H. apply orFail_inr in Hfee1 as [_ ->].
  run_inv H as r Hloop H. apply orFail_inr in Hloop as [Hloop ->].
  destruct r as [[sel' tot'] fee'].
  destruct (tot' <? total + fee') eqn:Hchk; [discriminate |].
  cbn in H. inversion H; subst. clear H.
  apply Z.ltb_ge in Hchk.
  apply selectLoop_spec in Hloop.
  destruct Hloop as (k & Hk & Hsel & Htot & Hpre & Hend).
  cbn [List.length app Nat.add] in *.
  destruct Hend as [(_ & Hnil & _) | (Hk1 & Hfee & _)]; [contradiction |].
  exists k. subst sel tot. rewrite Z.add_0_l in *.
  repeat split; auto; try lia.
  - unfold covers. fold feeFor. rewrite Hfee. apply Z.leb_le. lia.
  - intros j Hj. destruct (Hpre j Hj) as (fj & Hfj & Hlt).
    unfold covers. fold feeFor. rewrite Hfj. apply Z.leb_gt. lia.
Qed.

End Selector.

(** ** Traces of the taproot script *)

Lemma bind_nothing_signed {F A B : Type} (c : Run.M F A) (k : A -> Run.M F B) :
  Run.nothing_signed (Run.trace c) = true ->
  (forall a, Run.nothing_signed (Run.trace (k a)) = true) ->
  Run.nothing_signed (Run.trace (Run.bind c k)) = true.
Proof.
  intros Hc Hk. unfold Run.bind. destruct c as [t [f | a]]; [exact Hc |].
  specialize (Hk a). destruct (k a) as [t' r]. unfold Run.trace in *. cbn [fst] in *.
  rewrite nothing_signed_app, Hc, Hk. reflexivity.
Qed.

Lemma orFail_nothing_signed {F A : Type} (f : F) (o : option A) :
  Run.nothing_signed (Run.trace (Run.orFail f o)) = true.
Proof. now destruct o. Qed.

Create HintDb run.

#[local] Hint Resolve orFail_nothing_signed : run.

Section TaprootTraces.

Variable lib : P2TR.Lib.
Variable api : Mempool.
Variable config : Config.
Variable addresses : list string.

Lemma selectUtxos_trace feeRate total utxos :
  Run.trace (P2TR.selectUtxos lib addresses feeRate total utxos) = [].
Proof.
  unfold P2TR.selectUtxos.
  destruct (P2TR.feeFor lib addresses feeRate 1); [| reflexivity].
  cbn. destruct (P2TR.selectLoop _ _ _ _ _ _ _ _) as [[[? ?] ?] |]; [| reflexivity].
  cbn. now destruct (_ <? _).
Qed.

Lemma addInputs_nothing_signed pubkey expected selected :
  forall p,
    Run.nothing_signed
      (Run.trace (P2TR.addInputs lib api pubkey expected selected p)) = true.
Proof.
  induction selected as [| u rest IH]; intros p; [reflexivity |].
  cbn [P2TR.addInputs].
  apply bind_nothing_signed; [reflexivity | intros _].
  apply bind_nothing_signed; [auto with run | intros details].
  destruct (match nth_error details (vout u) with
            | Some o => scriptpubkey o
            | None => None
            end) as [s |]; [| reflexivity].
  destruct (s =? "")%string; [reflexivity |].
  destruct (negb _); [reflexivity |].
  destruct (P2TR.addInput_accepts _ _ _); [apply IH | reflexivity].
Qed.

Lemma addOutput_trace p o :
  Run.trace (P2TR.addOutput lib p o) = [].
Proof. unfold P2TR.addOutput. now destruct (P2TR.addOutput_accepts _ _ _). Qed.

Lemma addOutputs_nothing_signed amount recipients :
  forall p,
    Run.nothing_signed (Run.trace (P2TR.addOutputs lib amount recipients p)) = true.
Proof.
  induction recipients as [| a rest IH]; intros p; [reflexivity |].
  cbn [P2TR.addOutputs].
  apply bind_nothing_signed; [now rewrite addOutput_trace | intros p'; apply IH].
Qed.

Lemma addChange_nothing_signed from totalInput total fee p :
  Run.nothing_signed
    (Run.trace (P2TR.addChange lib from totalInput total fee p)) = true.
Proof.
  unfold P2TR.addChange. destruct (_ <? 0); [reflexivity |].
  destruct (546 <=? _); [| reflexivity].
  apply bind_nothing_signed; [now rewrite addOutput_trace | reflexivity].
Qed.

(** Steps 1 to 5 produce no signature and broadcast nothing, however they
    end. *)
Lemma build_nothing_signed :
  Run.nothing_signed (Run.trace (P2TR.build lib api config addresses)) = true.
Proof.
  unfold P2TR.build.
  apply bind_nothing_signed.
  { unfold P2TR.getFeeRate. now destruct (fees_recommended api). }
  intros feeRate.
  apply bind_nothing_signed; [auto with run | intros [priv pubkey]].
  apply bind_nothing_signed; [auto with run | intros [from expected]].
  apply bind_nothing_signed; [reflexivity | intros _].
  apply bind_nothing_signed; [auto with run | intros utxos].
  destruct (Nat.eqb _ 0); [reflexivity |].
  apply bind_nothing_signed; [auto with run | intros amount].
  apply bind_nothing_signed; [now rewrite selectUtxos_trace | intros [[sel tot] fee]].
  apply bind_nothing_signed; [apply addInputs_nothing_signed | intros p].
  apply bind_nothing_signed; [apply addOutputs_nothing_signed | intros p'].
  apply bind_nothing_signed; [apply addChange_nothing_signed | intros [p'' change]].
  reflexivity.
Qed.

End TaprootTraces.

(** ** The unsigned taproot transaction *)

Section TaprootBuild.

Variable lib : P2TR.Lib.
Variable api : Mempool.
Variable config : Config.
Variable addresses : list string.

(** The steps behind a successful build. *)
Lemma build_inv t b :
  P2TR.build lib api config addresses = (t, inr b) ->
  exists feeRate utxos amount expected p1 p2 tf t1 t2 t3,
    P2TR.getFeeRate api config = (tf, inr feeRate) /\
    P2TR.initKeys lib config = Some (P2TR.b_privateKeyBytes b, P2TR.b_pubkey b) /\
    P2TR.p2tr lib (P2TR.b_pubkey b) (network config)
    = Some (P2TR.b_fromAddress b, expected) /\
    address_utxo api (P2TR.b_fromAddress b) = Some utxos /\
    utxos <> [] /\
    JS.BigInt (P2TR.amountInSats lib config) = Some amount /\
    P2TR.b_totalAmountToSend b = amount * Z.of_nat (List.length addresses) /\
    P2TR.selectUtxos lib addresses feeRate (P2TR.b_totalAmountToSend b) utxos
    = ([], inr (P2TR.b_selectedUtxos b, P2TR.b_totalInput b, P2TR.b_finalFee b)) /\
    P2TR.addInputs lib api (P2TR.b_pubkey b) expected (P2TR.b_selectedUtxos b)
      {| P2TR.inputs := []; P2TR.outputs := [] |} = (t1, inr p1) /\
    P2TR.addOutputs lib amount addresses p1 = (t2, inr p2) /\
    P2TR.addChange lib (P2TR.b_fromAddress b) (P2TR.b_totalInput b)
      (P2TR.b_totalAmountToSend b) (P2TR.b_finalFee b) p2
    = (t3, inr (P2TR.b_psbt b, P2TR.b_changeValue b)).
Proof.
  intros H. unfold P2TR.build in H.
  run_inv H as feeRate Hrate H.
  run_inv H as keys Hkeys H. destruct keys as [priv pubkey].
  apply orFail_inr in Hkeys as [Hkeys _].
  run_inv H as pay Hpay H. destruct pay as [from expected].
  apply orFail_inr in Hpay as [Hpay _].
  run_inv H as x Hemit H. clear Hemit.
  run_inv H as utxos Hutxos H. apply orFail_inr in Hutxos as [Hutxos _].
  destruct (Nat.eqb (List.length utxos) 0) eqn:Hlen; [discriminate |].
  run_inv H as amount Hamount H. apply orFail_inr in Hamount as [Hamount _].
  run_inv H as sel Hsel H. destruct sel as [[sel tot] fee].
  run_inv H as p1 Hin H.
  run_inv H as p2 Hout H.
  run_inv H as pc Hchange H. destruct pc as [p3 change].
  cbn in H. inversion H; subst b. cbn.
  exists feeRate, utxos, amount, expected, p1, p2.
  pose proof (selectUtxos_trace lib addresses feeRate
                (amount * Z.of_nat (List.length addresses)) utxos) as Htr.
  rewrite Hsel in Htr. cbn in Htr. subst.
  do 4 eexists. repeat split; eauto.
  intros ->. discriminate.
Qed.

Lemma addOutput_inv p o t p' :
  P2TR.addOutput lib p o = (t, inr p') ->
  P2TR.inputs p' = P2TR.inputs p /\ P2TR.outputs p' = P2TR.outputs p ++ [o].
Proof.
  unfold P2TR.addOutput. destruct (P2TR.addOutput_accepts _ _ _); [| discriminate].
  intros H. inversion H; subst. auto.
Qed.

(** Step 4 appends one output per recipient, in the order of the list, each
    of the fixed amount. *)
Lemma addOutputs_inv amount recipients :
  forall p t p',
    P2TR.addOutputs lib amount recipients p = (t, inr p') ->
    P2TR.inputs p' = P2TR.inputs p /\
    P2TR.outputs p'
    = P2TR.outputs p
      ++ map (fun a => {| P2TR.address := trim a; P2TR.out_value := amount |})
           recipients.
Proof.
  induction recipients as [| a rest IH]; intros p t p' H.
  - cbn in H. inversion H; subst. now rewrite app_nil_r.
  - cbn [P2TR.addOutputs] in H. run_inv H as p1 Hone H.
    apply addOutput_inv in Hone as [Hi Ho].
    apply IH in H as [Hi' Ho'].
    rewrite Hi', Hi, Ho', Ho, <- app_assoc. auto.
Qed.

(** Step 5: the change is not negative, and its output exists exactly when
    it is at least 546. *)
Lemma addChange_inv from totalInput total fee p t p' change :
  P2TR.addChange lib from totalInput total fee p = (t, inr (p', change)) ->
  change = totalInput - total - fee /\
  0 <= change /\
  P2TR.inputs p' = P2TR.inputs p /\
  P2TR.outputs p'
  = P2TR.outputs p
    ++ (if 546 <=? change
        then [ {| P2TR.address := from; P2TR.out_value := change |} ]
        else []).
Proof.
  unfold P2TR.addChange.
  destruct (totalInput - total - fee <? 0) eqn:Hneg; [discriminate |].
  apply Z.ltb_ge in Hneg.
  destruct (546 <=? totalInput - total - fee) eqn:Hdust; intros H.
  - run_inv H as p1 Hone H. apply addOutput_inv in Hone as [Hi Ho].
    cbn in H. inversion H; subst. rewrite Hdust. auto.
  - cbn in H. inversion H; subst. rewrite Hdust, app_nil_r. auto.
Qed.

Lemma addInputs_inv pubkey expected selected :
  forall p t p',
    P2TR.addInputs lib api pubkey expected selected p = (t, inr p') ->
    P2TR.outputs p' = P2TR.outputs p /\
    exists added,
      P2TR.inputs p' = P2TR.inputs p ++ added /\
      map P2TR.witnessUtxo_value added = map value selected /\
      map P2TR.hash added = map txid selected /\
      Forall (fun i => P2TR.witnessUtxo_script i = JS.Buffer_hex_roundtrip expected)
        added /\
      Forall (fun u => exists s, script_of api u = Some s /\
                                 JS.Buffer_hex_roundtrip s = expected) selected.
Proof.
  induction selected as [| u rest IH]; intros p t p' H.
  - cbn in H. inversion H; subst. split; [reflexivity |].
    exists []. rewrite app_nil_r. repeat split; constructor.
  - cbn [P2TR.addInputs] in H. run_inv H as x Hemit H. clear Hemit.
    run_inv H as details Hd H. apply orFail_inr in Hd as [Hd _].
    destruct (match nth_error details (vout u) with
              | Some o => scriptpubkey o
              | None => None
              end) as [s |] eqn:Hs; [| discriminate].
    destruct (s =? "")%string eqn:Hempty; [discriminate |].
    destruct (negb (JS.Buffer_hex_roundtrip s =? expected)%string) eqn:Hm;
      [discriminate |].
    apply negb_false_iff, String.eqb_eq in Hm.
    destruct (P2TR.addInput_accepts _ _ _); [| discriminate].
    apply IH in H as (Ho & added & Hi & Hv & Hh & Hsc & Hsel).
    cbn in Ho, Hi. split; [exact Ho |].
    eexists (_ :: added). rewrite Hi, <- app_assoc. cbn.
    split; [reflexivity |]. rewrite Hv, Hh.
    split; [reflexivity |]. split; [reflexivity |]. split.
    + constructor; [| exact Hsc]. cbn. now rewrite Hm.
    + constructor; [| exact Hsel]. exists s. split; [| exact Hm].
      unfold script_of. rewrite Hd.
      destruct (nth_error details (vout u)) as [o |]; [| discriminate].
      rewrite Hs, Hempty. reflexivity.
Qed.

End TaprootBuild.

(** ** How the taproot script fails *)

(** Splits a failed [bind] in a hypothesis: the first half failed, or it
    succeeded and the second half failed. *)
Tactic Notation "run_fail" hyp(H) "as" ident(a) ident(H1) ident(H2) :=
  let t1 := fresh "t" in
  let t2 := fresh "t" in
  let Ht := fresh "Htrace" in
  apply bind_inl in H;
  destruct H as [H1 | (t1 & a & t2 & H1 & H2 & Ht)].

Section TaprootFailures.

Variable lib : P2TR.Lib.
Variable api : Mempool.
Variable config : Config.
Variable addresses : list string.
Variable answer : string.

Lemma selectUtxos_fail feeRate total utxos t f :
  P2TR.selectUtxos lib addresses feeRate total utxos = (t, inl f) ->
  f = P2TR.Uncaught \/
  exists sel tot fee,
    P2TR.selectLoop lib addresses feeRate total utxos [] 0 0 = Some (sel, tot, fee) /\
    tot < total + fee /\
    f = P2TR.InsufficientFunds (total + fee) tot.
Proof.
  unfold P2TR.selectUtxos. intros H.
  run_fail H as fee1 H1 H.
  { apply orFail_inl in H1 as (_ & _ & ->). now left. }
  run_fail H as r Hloop H.
  { apply orFail_inl in Hloop as (_ & _ & ->). now left. }
  apply orFail_inr in Hloop as [Hloop _]. destruct r as [[sel tot] fee].
  destruct (tot <? total + fee) eqn:Hchk; [| discriminate].
  cbn in H. inversion H; subst. right. exists sel, tot, fee.
  apply Z.ltb_lt in Hchk. auto.
Qed.

Lemma addInputs_fail pubkey expected selected :
  forall p t f,
    P2TR.addInputs lib api pubkey expected selected p = (t, inl f) ->
    (exists u, f = P2TR.AddInputFailed u) \/
    (exists u got, In u selected /\ f = P2TR.ScriptMismatch u got expected /\
                   got <> expected /\
                   exists s, script_of api u = Some s /\
                             got = JS.Buffer_hex_roundtrip s).
Proof.
  induction selected as [| u rest IH]; intros p t f H; [discriminate |].
  cbn [P2TR.addInputs] in H.
  run_fail H as x Hemit H; [discriminate |]. clear Hemit.
  run_fail H as details Hd H.
  { apply orFail_inl in Hd as (_ & _ & ->). left. now exists u. }
  apply orFail_inr in Hd as [Hd _].
  destruct (match nth_error details (vout u) with
            | Some o => scriptpubkey o
            | None => None
            end) as [s |] eqn:Hs.
  2: { inversion H; subst. left. now exists u. }
  destruct (s =? "")%string eqn:Hempty.
  { inversion H; subst. left. now exists u. }
  destruct (negb (JS.Buffer_hex_roundtrip s =? expected)%string) eqn:Hm.
  { inversion H; subst. right. exists u, (JS.Buffer_hex_roundtrip s).
    apply negb_true_iff, String.eqb_neq in Hm.
    split; [now left |]. split; [reflexivity |]. split; [exact Hm |].
    exists s. split; [| reflexivity].
    unfold script_of. rewrite Hd.
    destruct (nth_error details (vout u)) as [o |]; [| discriminate].
    now rewrite Hs, Hempty. }
  destruct (P2TR.addInput_accepts _ _ _).
  - apply IH in H as [H | (u' & got & Hin & H)]; [now left |].
    right. exists u', got. split; [now right | exact H].
  - inversion H; subst. left. now exists u.
Qed.

Lemma addOutput_fail p o t f :
  P2TR.addOutput lib p o = (t, inl f) -> f = P2TR.Uncaught.
Proof.
  unfold P2TR.addOutput. destruct (P2TR.addOutput_accepts _ _ _); [discriminate |].
  intros H. now inversion H.
Qed.

Lemma addOutputs_fail amount recipients :
  forall p t f,
    P2TR.addOutputs lib amount recipients p = (t, inl f) -> f = P2TR.Uncaught.
Proof.
  induction recipients as [| a rest IH]; intros p t f H; [discriminate |].
  cbn [P2TR.addOutputs] in H. run_fail H as p' H1 H.
  - eapply addOutput_fail; eauto.
  - eapply IH; eauto.
Qed.

Lemma addChange_fail from totalInput total fee p t f :
  P2TR.addChange lib from totalInput total fee p = (t, inl f) ->
  f = P2TR.Uncaught \/
  (totalInput - total - fee < 0 /\
   f = P2TR.NegativeChange (totalInput - total - fee)).
Proof.
  unfold P2TR.addChange.
  destruct (totalInput - total - fee <? 0) eqn:Hneg.
  - intros H. inversion H; subst. right. apply Z.ltb_lt in Hneg. auto.
  - destruct (546 <=? _); [| discriminate]. intros H.
    run_fail H as p' H1 H; [| discriminate].
    left. eapply addOutput_fail; eauto.
Qed.

Lemma signInput_fail keyToUse pubkey selected i p t f :
  P2TR.signInput lib keyToUse pubkey selected i p = (t, inl f) ->
  f = P2TR.SigningFailed.
Proof.
  unfold P2TR.signInput. intros H.
  run_fail H as call H1 H; [now apply orFail_inl in H1 as (_ & _ & ->) |].
  run_fail H as hash H2 H; [now apply orFail_inl in H2 as (_ & _ & ->) |].
  run_fail H as sig H3 H; [now apply orFail_inl in H3 as (_ & _ & ->) |].
  run_fail H as x H4 H; [discriminate |].
  run_fail H as ok H5 H; [now apply orFail_inl in H5 as (_ & _ & ->) |].
  destruct (negb ok); [| discriminate]. now inversion H.
Qed.

Lemma signLoop_fail keyToUse pubkey selected indices :
  forall p t f,
    P2TR.signLoop lib keyToUse pubkey selected indices p = (t, inl f) ->
    f = P2TR.SigningFailed.
Proof.
  induction indices as [| i rest IH]; intros p t f H; [discriminate |].
  cbn [P2TR.signLoop] in H. run_fail H as p' H1 H.
  - eapply signInput_fail; eauto.
  - eapply IH; eauto.
Qed.

(** Step 6 is the choice of the key followed by the signing loop; it fails
    without a trace when the key cannot be converted. *)
Lemma signInputs_unfold priv pubkey selected p :
  P2TR.signInputs lib priv pubkey selected p
  = match P2TR.privateKeyToUse lib priv with
    | Some keyToUse =>
        P2TR.signLoop lib keyToUse pubkey selected
          (seq 0 (List.length (P2TR.inputs p))) p
    | None => ([], inl P2TR.SigningFailed)
    end.
Proof.
  unfold P2TR.signInputs.
  destruct (P2TR.privateKeyToUse lib priv) as [k |]; [| reflexivity].
  cbn [Run.orFail]. unfold Run.bind, Run.ret.
  now destruct (P2TR.signLoop lib k pubkey selected _ p).
Qed.

Lemma signInputs_inr priv pubkey selected p t p' :
  P2TR.signInputs lib priv pubkey selected p = (t, inr p') ->
  exists keyToUse,
    P2TR.privateKeyToUse lib priv = Some keyToUse /\
    P2TR.signLoop lib keyToUse pubkey selected
      (seq 0 (List.length (P2TR.inputs p))) p = (t, inr p').
Proof.
  rewrite signInputs_unfold.
  destruct (P2TR.privateKeyToUse lib priv) as [k |]; [| discriminate].
  intros H. now exists k.
Qed.

Lemma signInputs_fail priv pubkey selected p t f :
  P2TR.signInputs lib priv pubkey selected p = (t, inl f) ->
  f = P2TR.SigningFailed.
Proof.
  rewrite signInputs_unfold.
  destruct (P2TR.privateKeyToUse lib priv) as [k |].
  - apply signLoop_fail.
  - intros H. now inversion H.
Qed.

Lemma finish_fail b p t f :
  P2TR.finish lib api answer b p = (t, inl f) -> f = P2TR.FinalizeFailed.
Proof.
  unfold P2TR.finish. intros H.
  run_fail H as hex H1 H; [now apply orFail_inl in H1 as (_ & _ & ->) |].
  destruct (answer =? "Y")%string; [| discriminate].
  run_fail H as x H2 H; [discriminate |].
  destruct (post_tx api hex); discriminate.
Qed.

(** A run that fails for a reason other than signing or finalisation failed
    while building, before any signature. *)
Lemma batchSend_fails_in_build f :
  Run.outcome (P2TR.batchSend lib api config addresses answer) = inl f ->
  f <> P2TR.SigningFailed -> f <> P2TR.FinalizeFailed ->
  P2TR.build lib api config addresses
  = (Run.trace (P2TR.batchSend lib api config addresses answer), inl f).
Proof.
  intros H Hs Hf.
  destruct (P2TR.batchSend lib api config addresses answer) as [t r] eqn:E.
  cbn in H. subst r. cbn [Run.trace fst].
  unfold P2TR.batchSend in E.
  run_fail E as b Hb E; [exact Hb |].
  run_fail E as p Hp E.
  - apply signInputs_fail in Hp. contradiction.
  - apply finish_fail in E. contradiction.
Qed.

(** The selection of a successful balance check leaves a change that is not
    negative. *)
Lemma selectUtxos_covers feeRate total utxos t sel tot fee :
  P2TR.selectUtxos lib addresses feeRate total utxos = (t, inr (sel, tot, fee)) ->
  0 <= tot - total - fee.
Proof.
  unfold P2TR.selectUtxos. intros H.
  run_inv H as fee1 H1 H. run_inv H as r Hloop H.
  destruct r as [[sel' tot'] fee'].
  destruct (tot' <? total + fee') eqn:Hchk; [discriminate |].
  cbn in H. inversion H; subst. apply Z.ltb_ge in Hchk. lia.
Qed.

Lemma build_never_negative_change t c :
  P2TR.build lib api config addresses <> (t, inl (P2TR.NegativeChange c)).
Proof.
  intros H. unfold P2TR.build in H.
  run_fail H as feeRate H1 H.
  { unfold P2TR.getFeeRate in H1. destruct (fees_recommended api); discriminate. }
  run_fail H as keys H2 H; [apply orFail_inl in H2 as (_ & _ & ?); discriminate |].
  destruct keys as [priv pubkey].
  run_fail H as pay H3 H; [apply orFail_inl in H3 as (_ & _ & ?); discriminate |].
  destruct pay as [from expected].
  run_fail H as x H4 H; [discriminate |].
  run_fail H as utxos H5 H; [apply orFail_inl in H5 as (_ & _ & ?); discriminate |].
  destruct (Nat.eqb _ 0); [discriminate |].
  run_fail H as amount H6 H; [apply orFail_inl in H6 as (_ & _ & ?); discriminate |].
  run_fail H as sel H7 H.
  { apply selectUtxos_fail in H7 as [? | (? & ? & ? & _ & _ & ?)]; discriminate. }
  destruct sel as [[sel tot] fee].
  run_fail H as p1 H8 H.
  { apply addInputs_fail in H8 as [[? ?] | (? & ? & _ & ? & _)]; discriminate. }
  run_fail H as p2 H9 H; [apply addOutputs_fail in H9; discriminate |].
  run_fail H as pc H10 H.
  - apply addChange_fail in H10 as [? | [Hneg _]]; [discriminate |].
    apply selectUtxos_covers in H7. lia.
  - destruct pc. discriminate.
Qed.

End TaprootFailures.

(** ** The witness-key-hash script *)

Lemma map_indexed_preserved {X Y : Type} (f : X -> Y) (g : nat -> X -> X) (l : list X) :
  (forall j x, f (g j x) = f x) ->
  forall s,
    map f (map (fun '(j, x) => g j x) (combine (seq s (List.length l)) l)) = map f l.
Proof.
  intros Hg. induction l as [| x l IH]; intros s; [reflexivity |].
  cbn. rewrite Hg, IH. reflexivity.
Qed.

Section WpkhFacts.

Variable lib : P2WPKH.Lib.
Variable api : Mempool.
Variable config : Config.
Variable addresses : list string.

Lemma setPartialSig_outpoints i sig p :
  map wpkh_outpoint (P2WPKH.inputs (P2WPKH.setPartialSig i sig p))
  = map wpkh_outpoint (P2WPKH.inputs p) /\
  P2WPKH.outputs (P2WPKH.setPartialSig i sig p) = P2WPKH.outputs p.
Proof.
  split; [| reflexivity]. unfold P2WPKH.setPartialSig. cbn [P2WPKH.inputs].
  apply (map_indexed_preserved wpkh_outpoint
           (fun j input =>
              if Nat.eqb j i
              then {| P2WPKH.hash := P2WPKH.hash input;
                      P2WPKH.index := P2WPKH.index input;
                      P2WPKH.witnessUtxo_script := P2WPKH.witnessUtxo_script input;
                      P2WPKH.witnessUtxo_value := P2WPKH.witnessUtxo_value input;
                      P2WPKH.partialSig := Some sig |}
              else input)).
  intros j x. now destruct (Nat.eqb j i).
Qed.

Lemma wpkh_signLoop_inv keyPair indices :
  forall p t p',
    P2WPKH.signLoop lib keyPair indices p = (t, inr p') ->
    map wpkh_outpoint (P2WPKH.inputs p') = map wpkh_outpoint (P2WPKH.inputs p) /\
    P2WPKH.outputs p' = P2WPKH.outputs p.
Proof.
  induction indices as [| i rest IH]; intros p t p' H.
  - cbn in H. inversion H; subst. auto.
  - cbn [P2WPKH.signLoop] in H. run_inv H as sig Hsig H.
    run_inv H as x Hemit H.
    apply IH in H as [Hi Ho].
    destruct (setPartialSig_outpoints i sig p) as [Hi' Ho'].
    rewrite Hi, Ho, Hi', Ho'. auto.
Qed.

(** The loop of [createTransaction] adds every UTXO that has a script, in
    the order of the response, and adds up their values. *)
Lemma wpkh_addInputs_inv utxos :
  forall p amount t p' amount',
    P2WPKH.addInputs lib api utxos p amount = (t, inr (p', amount')) ->
    P2WPKH.outputs p' = P2WPKH.outputs p /\
    amount' = amount + sum_values (filter (has_script api) utxos) /\
    map wpkh_outpoint (P2WPKH.inputs p')
    = map wpkh_outpoint (P2WPKH.inputs p)
      ++ map utxo_outpoint (filter (has_script api) utxos) /\
    Run.nothing_signed t = true.
Proof.
  induction utxos as [| u rest IH]; intros p amount t p' amount' H.
  - cbn in H. inversion H; subst. cbn. rewrite app_nil_r.
    repeat split; auto. lia.
  - cbn [P2WPKH.addInputs] in H. run_inv H as x Hemit H.
    apply emit_inr in Hemit. run_inv H as details Hd H.
    apply orFail_inr in Hd as [Hd ->]. subst.
    assert (Hhs : has_script api u
                  = match match nth_error details (vout u) with
                          | Some o => scriptpubkey o
                          | None => None
                          end with
                    | Some s => negb (s =? "")%string
                    | None => false
                    end).
    { unfold has_script, script_of. rewrite Hd.
      destruct (nth_error details (vout u)) as [o |]; [| reflexivity].
      destruct (scriptpubkey o) as [s |]; [| reflexivity].
      now destruct (s =? "")%string. }
    cbn [filter]. rewrite Hhs. clear Hhs.
    destruct (match nth_error details (vout u) with
              | Some o => scriptpubkey o
              | None => None
              end) as [s |].
    2: { apply IH in H as (Ho & Ha & Hi & Ht). repeat split; auto. }
    destruct (s =? "")%string; cbn [negb].
    { apply IH in H as (Ho & Ha & Hi & Ht). repeat split; auto. }
    destruct (P2WPKH.addInput_accepts _ _ _); [| discriminate].
    apply IH in H as (Ho & Ha & Hi & Ht). cbn in Ho, Hi.
    repeat split; auto.
    + rewrite Ha. unfold sum_values. cbn. lia.
    + rewrite Hi, map_app, <- app_assoc. reflexivity.
Qed.

Lemma wpkh_addOutput_inv p o t p' :
  P2WPKH.addOutput lib p o = (t, inr p') ->
  P2WPKH.inputs p' = P2WPKH.inputs p /\
  P2WPKH.outputs p' = P2WPKH.outputs p ++ [o] /\ t = [].
Proof.
  unfold P2WPKH.addOutput. destruct (P2WPKH.addOutput_accepts _ _ _); [| discriminate].
  intros H. inversion H; subst. auto.
Qed.

Lemma wpkh_addOutputs_inv amount recipients :
  forall p t p',
    P2WPKH.addOutputs lib amount recipients p = (t, inr p') ->
    P2WPKH.inputs p' = P2WPKH.inputs p /\
    P2WPKH.outputs p'
    = P2WPKH.outputs p
      ++ map (fun a => {| P2WPKH.address := a; P2WPKH.out_value := amount |})
           recipients.
Proof.
  induction recipients as [| a rest IH]; intros p t p' H.
  - cbn in H. inversion H; subst. now rewrite app_nil_r.
  - cbn [P2WPKH.addOutputs] in H. run_inv H as p1 Hone H.
    apply wpkh_addOutput_inv in Hone as (Hi & Ho & _).
    apply IH in H as [Hi' Ho'].
    rewrite Hi', Hi, Ho', Ho, <- app_assoc. auto.
Qed.

(** The steps behind a transaction [createTransaction] returns. *)
Lemma createTransaction_inv key amountBTC t c :
  P2WPKH.createTransaction lib api config addresses key amountBTC = (t, inr c) ->
  exists keyPair utxos feeRate tf,
    let amount :=
      JS.Math_floor
        (JS.ToNumber (P2WPKH.StringToNumber lib) amountBTC * 100000000)%float in
    let total := (JS.Number_of_Z (Z.of_nat (List.length addresses)) * amount)%float in
    let fee :=
      P2WPKH.estimatedFee lib feeRate (List.length utxos) (List.length addresses + 1) in
    let available := JS.Number_of_Z (P2WPKH.c_inputAmount c) in
    let change := (available - total - fee)%float in
    P2WPKH.fromWIF lib key = Some keyPair /\
    address_utxo api (P2WPKH.p2wpkh_address lib keyPair) = Some utxos /\
    utxos <> [] /\
    P2WPKH.getFeeRate api config = (tf, inr feeRate) /\
    map wpkh_outpoint (P2WPKH.inputs (P2WPKH.c_psbt c))
    = map utxo_outpoint (filter (has_script api) utxos) /\
    P2WPKH.c_inputAmount c = sum_values (filter (has_script api) utxos) /\
    P2WPKH.c_estimatedFee c = fee /\
    P2WPKH.c_totalAddressesAmount c = total /\
    P2WPKH.c_changeAmount c = change /\
    (available <? total + fee)%float = false /\
    P2WPKH.outputs (P2WPKH.c_psbt c)
    = map (fun a => {| P2WPKH.address := a; P2WPKH.out_value := amount |}) addresses
      ++ (if (546 <? change)%float
          then [ {| P2WPKH.address := P2WPKH.p2wpkh_address lib keyPair;
                    P2WPKH.out_value := change |} ]
          else []).
Proof.
  intros H. unfold P2WPKH.createTransaction in H.
  run_inv H as keyPair Hkey H. apply orFail_inr in Hkey as [Hkey _].
  run_inv H as x Hemit H. clear Hemit.
  run_inv H as utxos Hutxos H. apply orFail_inr in Hutxos as [Hutxos _].
  destruct (Nat.eqb (List.length utxos) 0) eqn:Hlen; [discriminate |].
  run_inv H as feeRate Hrate H.
  run_inv H as pi Hin H. destruct pi as [p inputAmount].
  destruct (Nat.eqb (List.length (P2WPKH.inputs p)) 0); [discriminate |].
  match type of H with
  | (if ?c then _ else _) = _ => destruct c eqn:Hchk; [discriminate |]
  end.
  run_inv H as p1 Hout H.
  run_inv H as p2 Hchange H.
  run_inv H as p3 Hsign H.
  run_inv H as valid Hvalid H.
  run_inv H as hex Hhex H.
  cbn in H. inversion H; subst c. cbn.
  apply wpkh_addInputs_inv in Hin as (Ho0 & Ha & Hi0 & _). cbn in Ho0, Ha, Hi0.
  apply wpkh_addOutputs_inv in Hout as [Hi1 Ho1].
  apply wpkh_signLoop_inv in Hsign as [Hi3 Ho3].
  assert (Hi2 : P2WPKH.inputs p2 = P2WPKH.inputs p1 /\
                P2WPKH.outputs p2
                = P2WPKH.outputs p1
                  ++ (if (546 <? JS.Number_of_Z inputAmount
                                 - JS.Number_of_Z (Z.of_nat (List.length addresses))
                                   * JS.Math_floor
                                       (JS.ToNumber (P2WPKH.StringToNumber lib) amountBTC
                                        * 100000000)
                                 - P2WPKH.estimatedFee lib feeRate (List.length utxos)
                                     (List.length addresses + 1))%float
                      then [ {| P2WPKH.address := P2WPKH.p2wpkh_address lib keyPair;
                                P2WPKH.out_value :=
                                  (JS.Number_of_Z inputAmount
                                   - JS.Number_of_Z (Z.of_nat (List.length addresses))
                                     * JS.Math_floor
                                         (JS.ToNumber (P2WPKH.StringToNumber lib) amountBTC
                                          * 100000000)
                                   - P2WPKH.estimatedFee lib feeRate (List.length utxos)
                                       (List.length addresses + 1))%float |} ]
                      else [])).
  { destruct (546 <? _)%float.
    - apply wpkh_addOutput_inv in Hchange as (? & ? & _). auto.
    - cbn in Hchange. inversion Hchange; subst. now rewrite app_nil_r. }
  destruct Hi2 as [Hi2 Ho2].
  exists keyPair, utxos, feeRate. eexists.
  split; [exact Hkey |]. split; [exact Hutxos |].
  split; [intros ->; discriminate |]. split; [exact Hrate |].
  split; [rewrite Hi3, Hi2, Hi1, Hi0; reflexivity |].
  split; [lia |]. split; [reflexivity |]. split; [reflexivity |].
  split; [reflexivity |]. split; [exact Hchk |].
  rewrite Ho3, Ho2, Ho1, Ho0. reflexivity.
Qed.

End WpkhFacts.

(** * The claims *)

Local Open Scope string_scope.
Local Open Scope list_scope.
Local Open Scope Z_scope.

(** ** C1: the selector *)

(** C1, as stated, fails on [main.js]: with UTXOs of 100000, 50000 and 20000
    satoshis, two recipients of 10000 satoshis and 5 sat/vB,
    [createTransaction] spends all three UTXOs, although the first one alone
    already covers the payout and the fee estimated for one input. *)
Lemma C1_createTransaction_spends_past_the_bound :
  exists t c,
    P2WPKH.createTransaction Demo.wlib
      (Demo.api Demo.three "0014CD" "none" None None)
      (Demo.config (JS.number 0.0001) (JS.number 5))
      ["bc1qalice"; "bc1qbob"] "wif" (JS.number 0.0001) = (t, inr c) /\
    map wpkh_outpoint (P2WPKH.inputs (P2WPKH.c_psbt c))
    = map utxo_outpoint Demo.three /\
    covers_wpkh Demo.wlib ["bc1qalice"; "bc1qbob"] (JS.number 5)
      (JS.number 0.0001) Demo.three 1 = true.
Proof. do 2 eexists. vm_compute. repeat split. Qed.

(** C1, amended.  In the taproot script the selection of a successful build
    is a prefix of the UTXOs in the order of the response, its total is the
    sum of their values, the fee is the one estimated for that many inputs
    and [addresses.length + 1] outputs, the bound
    [sum >= totalAmountToSend + fee] holds for it and fails for every
    shorter non-empty prefix (and for the empty one as well when payout plus
    the fee for no input is positive).  In [main.js] every UTXO of the response that
    has a previous-output script is spent, in order; the fee is estimated
    once, for as many inputs as the response has UTXOs, and the total input
    covers payout and fee. *)
Theorem C1_selection :
  (forall lib api config addresses t b,
      P2TR.build lib api config addresses = (t, inr b) ->
      exists feeRate utxos k,
        Run.outcome (P2TR.getFeeRate api config) = inr feeRate /\
        address_utxo api (P2TR.b_fromAddress b) = Some utxos /\
        (1 <= k <= List.length utxos)%nat /\
        P2TR.b_selectedUtxos b = firstn k utxos /\
        P2TR.b_totalInput b = sum_values (firstn k utxos) /\
        P2TR.feeFor lib addresses feeRate k = Some (P2TR.b_finalFee b) /\
        covers lib addresses feeRate (P2TR.b_totalAmountToSend b) utxos k = true /\
        (forall j, (1 <= j < k)%nat ->
           covers lib addresses feeRate (P2TR.b_totalAmountToSend b) utxos j = false) /\
        (covers lib addresses feeRate (P2TR.b_totalAmountToSend b) utxos 0 = false ->
         forall j, (j < k)%nat ->
           covers lib addresses feeRate (P2TR.b_totalAmountToSend b) utxos j = false)) /\
  (forall lib api config addresses key amountBTC t c,
      P2WPKH.createTransaction lib api config addresses key amountBTC = (t, inr c) ->
      exists keyPair utxos feeRate,
        P2WPKH.fromWIF lib key = Some keyPair /\
        address_utxo api (P2WPKH.p2wpkh_address lib keyPair) = Some utxos /\
        Run.outcome (P2WPKH.getFeeRate api config) = inr feeRate /\
        map wpkh_outpoint (P2WPKH.inputs (P2WPKH.c_psbt c))
        = map utxo_outpoint (filter (has_script api) utxos) /\
        P2WPKH.c_inputAmount c = sum_values (filter (has_script api) utxos) /\
        P2WPKH.c_estimatedFee c
        = P2WPKH.estimatedFee lib feeRate (List.length utxos)
            (List.length addresses + 1) /\
        (JS.Number_of_Z (P2WPKH.c_inputAmount c)
         <? P2WPKH.c_totalAddressesAmount c + P2WPKH.c_estimatedFee c)%float = false).
Proof.
  split.
  - intros lib api config addresses t b H.
    destruct (build_inv _ _ _ _ _ _ H)
      as (feeRate & utxos & amount & expected & p1 & p2 & tf & t1 & t2 & t3
          & Hrate & _ & _ & Hutxos & Hne & _ & _ & Hsel & _).
    destruct (selectUtxos_greedy _ _ _ _ _ _ _ _ _ Hsel Hne)
      as (k & Hk & Hpre & Htot & Hfee & _ & Hcov & Hmin).
    exists feeRate, utxos, k. rewrite Hrate. cbn [Run.outcome snd].
    rewrite Htot, Hpre.
    split; [reflexivity |]. split; [exact Hutxos |]. split; [exact Hk |].
    split; [reflexivity |]. split; [reflexivity |]. split; [exact Hfee |].
    split; [exact Hcov |]. split; [exact Hmin |].
    intros H0 j Hj. destruct j as [| j]; [exact H0 | apply Hmin; lia].
  - intros lib api config addresses key amountBTC t c H.
    destruct (createTransaction_inv _ _ _ _ _ _ _ _ H)
      as (keyPair & utxos & feeRate & tf & Hkey & Hutxos & _ & Hrate & Hin
          & Hamount & Hfee & Htotal & _ & Hchk & _).
    exists keyPair, utxos, feeRate. rewrite Hrate, Htotal, Hfee.
    cbn [Run.outcome snd]. repeat split; auto.
Qed.

(** C1 on two runs: a taproot wallet whose first UTXO is too small (two
    inputs are selected), and the three-UTXO scenario under [main.js]. *)
Lemma C1_selection_witness :
  (exists t b,
      P2TR.build (Demo.lib 4) (Demo.api Demo.two "5120AB" "none" None Demo.rate5)
        (Demo.config JS.undefined JS.undefined) Demo.recipients = (t, inr b) /\
      exists k, (1 <= k <= 3)%nat /\ P2TR.b_selectedUtxos b = firstn k Demo.two) /\
  (exists t c,
      P2WPKH.createTransaction Demo.wlib
        (Demo.api Demo.three "0014CD" "none" None None)
        (Demo.config (JS.number 0.0001) (JS.number 5))
        ["bc1qalice"; "bc1qbob"] "wif" (JS.number 0.0001) = (t, inr c) /\
      P2WPKH.c_inputAmount c
      = sum_values (filter (has_script (Demo.api Demo.three "0014CD" "none" None None))
                      Demo.three)).
Proof.
  split.
  - assert (E : exists t b,
               P2TR.build (Demo.lib 4)
                 (Demo.api Demo.two "5120AB" "none" None Demo.rate5)
                 (Demo.config JS.undefined JS.undefined) Demo.recipients
               = (t, inr b))
      by (do 2 eexists; vm_compute; reflexivity).
    destruct E as (t & b & E). exists t, b. split; [exact E |].
    destruct (proj1 C1_selection _ _ _ _ _ _ E)
      as (feeRate & utxos & k & _ & Hu & Hk & Hsel & _).
    cbn in Hu. inversion Hu; subst utxos. exists k. split; [exact Hk | exact Hsel].
  - assert (E : exists t c,
               P2WPKH.createTransaction Demo.wlib
                 (Demo.api Demo.three "0014CD" "none" None None)
                 (Demo.config (JS.number 0.0001) (JS.number 5))
                 ["bc1qalice"; "bc1qbob"] "wif" (JS.number 0.0001) = (t, inr c))
      by (do 2 eexists; vm_compute; reflexivity).
    destruct E as (t & c & E). exists t, c. split; [exact E |].
    destruct (proj2 C1_selection _ _ _ _ _ _ _ _ E)
      as (keyPair & utxos & feeRate & _ & Hu & _ & _ & Hsum & _).
    cbn in Hu. inversion Hu; subst utxos. exact Hsum.
Defined.

(** ** C5: the change is never negative *)

(** C5.  After a selection that passed the balance check,
    [totalInput - totalAmountToSend - finalFee] is not negative, step 5 does
    not take its negative-change branch, and no run of [batchSend] ends
    there. *)
Theorem C5_change_not_negative :
  forall lib addresses feeRate total utxos t sel tot fee,
    P2TR.selectUtxos lib addresses feeRate total utxos = (t, inr (sel, tot, fee)) ->
    0 <= tot - total - fee /\
    (forall from p t' c,
        P2TR.addChange lib from tot total fee p <> (t', inl (P2TR.NegativeChange c))) /\
    (forall api config answer c,
        Run.outcome (P2TR.batchSend lib api config addresses answer)
        <> inl (P2TR.NegativeChange c)).
Proof.
  intros lib addresses feeRate total utxos t sel tot fee H.
  pose proof (selectUtxos_covers _ _ _ _ _ _ _ _ _ H) as Hchange.
  split; [exact Hchange |]. split.
  - intros from p t' c Hc.
    apply addChange_fail in Hc as [Hc | [Hneg _]]; [discriminate | lia].
  - intros api config answer c Hc.
    apply batchSend_fails_in_build in Hc; try discriminate.
    now apply build_never_negative_change in Hc.
Qed.

(** C5 on the wallet of [Demo.two] asked for 20000 satoshis at 5 sat/vB. *)
Lemma C5_change_not_negative_witness :
  exists t sel tot fee,
    P2TR.selectUtxos (Demo.lib 4) Demo.recipients (JS.number 5) 20000 Demo.two
    = (t, inr (sel, tot, fee)) /\
    0 <= tot - 20000 - fee.
Proof.
  assert (E : exists t sel tot fee,
             P2TR.selectUtxos (Demo.lib 4) Demo.recipients (JS.number 5) 20000 Demo.two
             = (t, inr (sel, tot, fee)))
    by (do 4 eexists; vm_compute; reflexivity).
  destruct E as (t & sel & tot & fee & E). exists t, sel, tot, fee.
  split; [exact E |].
  exact (proj1 (C5_change_not_negative _ _ _ _ _ _ _ _ _ E)).
Defined.

(** ** C6: the dust threshold *)

(** The taproot script keeps a change of exactly 546 satoshis, and of any
    larger amount, and drops any smaller one. *)
Lemma batchSend_change_output lib api config addresses t b :
  P2TR.build lib api config addresses = (t, inr b) ->
  exists amount,
    JS.BigInt (P2TR.amountInSats lib config) = Some amount /\
    P2TR.b_changeValue b
    = P2TR.b_totalInput b - P2TR.b_totalAmountToSend b - P2TR.b_finalFee b /\
    0 <= P2TR.b_changeValue b /\
    P2TR.b_totalAmountToSend b = amount * Z.of_nat (List.length addresses) /\
    P2TR.outputs (P2TR.b_psbt b)
    = map (fun a => {| P2TR.address := trim a; P2TR.out_value := amount |}) addresses
      ++ (if 546 <=? P2TR.b_changeValue b
          then [ {| P2TR.address := P2TR.b_fromAddress b;
                    P2TR.out_value := P2TR.b_changeValue b |} ]
          else []).
Proof.
  intros H.
  destruct (build_inv _ _ _ _ _ _ H)
    as (feeRate & utxos & amount & expected & p1 & p2 & tf & t1 & t2 & t3
        & _ & _ & _ & _ & _ & Hamount & Htotal & _ & Hin & Hout & Hchange).
  apply addInputs_inv in Hin as [Ho1 _]. cbn in Ho1.
  apply addOutputs_inv in Hout as [_ Ho2].
  apply addChange_inv in Hchange as (Hc & Hpos & _ & Ho3).
  exists amount. rewrite Ho3, Ho2, Ho1. cbn [app]. auto.
Qed.

(** C6 fails on [main.js]: with one UTXO of 10693 satoshis, one recipient of
    10000 satoshis and 1 sat/vB the fee is 147 and the change exactly 546
    satoshis, and no change output is created; the taproot script, at a
    change of exactly 546 (one UTXO of 10700 satoshis, fee 154), creates
    it. *)
Lemma C6_createTransaction_drops_change_of_546 :
  (exists t c,
      P2WPKH.createTransaction Demo.wlib
        (Demo.api [Demo.u "a" 10693] "0014CD" "none" None None)
        (Demo.config (JS.number 0.0001) (JS.number 1))
        ["bc1qalice"] "wif" (JS.number 0.0001) = (t, inr c) /\
      P2WPKH.c_estimatedFee c = 147%float /\
      P2WPKH.c_changeAmount c = 546%float /\
      P2WPKH.outputs (P2WPKH.c_psbt c)
      = [ {| P2WPKH.address := "bc1qalice"; P2WPKH.out_value := 10000%float |} ]) /\
  (exists t b,
      P2TR.build (Demo.lib 4)
        (Demo.api [Demo.u "a" 10700] "5120ab" "none" None None)
        (Demo.config (JS.number 0.0001) (JS.number 1)) ["bc1qalice"] = (t, inr b) /\
      P2TR.b_finalFee b = 154 /\
      P2TR.b_changeValue b = 546 /\
      P2TR.outputs (P2TR.b_psbt b)
      = [ {| P2TR.address := "bc1qalice"; P2TR.out_value := 10000 |};
          {| P2TR.address := "bc1pfunding"; P2TR.out_value := 546 |} ]).
Proof. split; do 2 eexists; vm_compute; repeat split. Qed.

(** ** C7: where the satoshis go when the change is dust *)

Lemma sum_out_values_recipients amount (recipients : list string) :
  sum_out_values
    (map (fun a => {| P2TR.address := trim a; P2TR.out_value := amount |}) recipients)
  = amount * Z.of_nat (List.length recipients).
Proof.
  unfold sum_out_values.
  induction recipients as [| a rest IH]; [cbn; lia |].
  cbn [map fold_right List.length P2TR.out_value]. rewrite IH. lia.
Qed.

(** C7, as stated, fails: with one UTXO of 21085 satoshis, two recipients of
    10000 satoshis and 5 sat/vB the computed fee is 985 and the change 100
    satoshis; there is no change output, and the outputs and the computed
    fee add up to 20985 satoshis, not to the 21085 of the input. *)
Lemma C7_dust_is_not_in_the_computed_fee :
  exists t b,
    P2TR.build (Demo.lib 4) (Demo.api [Demo.u "a" 21085] "5120ab" "none" None Demo.rate5)
      (Demo.config JS.undefined JS.undefined) Demo.recipients = (t, inr b) /\
    P2TR.b_changeValue b = 100 /\
    List.length (P2TR.outputs (P2TR.b_psbt b)) = List.length Demo.recipients /\
    sum_out_values (P2TR.outputs (P2TR.b_psbt b)) + P2TR.b_finalFee b = 20985 /\
    P2TR.b_totalInput b = 21085 /\
    sum_out_values (P2TR.outputs (P2TR.b_psbt b)) + P2TR.b_finalFee b
    <> P2TR.b_totalInput b.
Proof. do 2 eexists. vm_compute. repeat split. discriminate. Qed.

(** C7, amended.  For a successful build whose change is below 546 satoshis
    the outputs are the recipients' outputs alone, and the sum of the output
    values, the computed fee and the change is the total input: the fee the
    transaction pays is the computed fee plus the change, and outputs plus
    computed fee equal the input only when the change is zero. *)
Theorem C7_dust_change_conservation :
  forall lib api config addresses t b,
    P2TR.build lib api config addresses = (t, inr b) ->
    P2TR.b_changeValue b < 546 ->
    (exists amount,
        JS.BigInt (P2TR.amountInSats lib config) = Some amount /\
        P2TR.outputs (P2TR.b_psbt b)
        = map (fun a => {| P2TR.address := trim a; P2TR.out_value := amount |})
            addresses) /\
    sum_out_values (P2TR.outputs (P2TR.b_psbt b)) + P2TR.b_finalFee b
    + P2TR.b_changeValue b = P2TR.b_totalInput b /\
    (sum_out_values (P2TR.outputs (P2TR.b_psbt b)) + P2TR.b_finalFee b
     = P2TR.b_totalInput b <-> P2TR.b_changeValue b = 0).
Proof.
  intros lib api config addresses t b H Hdust.
  destruct (batchSend_change_output _ _ _ _ _ _ H)
    as (amount & Hamount & Hc & Hpos & Htotal & Hout).
  apply Z.leb_gt in Hdust. rewrite Hdust, app_nil_r in Hout.
  assert (Hsum : sum_out_values (P2TR.outputs (P2TR.b_psbt b))
                 = P2TR.b_totalAmountToSend b)
    by (rewrite Hout, sum_out_values_recipients; lia).
  split; [exists amount; auto |]. rewrite Hsum. split; lia.
Qed.

(** C7 on a single UTXO of 21085 satoshis, which leaves 100 satoshis of
    dust. *)
Lemma C7_dust_change_conservation_witness :
  exists t b,
    P2TR.build (Demo.lib 4) (Demo.api [Demo.u "a" 21085] "5120ab" "none" None Demo.rate5)
      (Demo.config JS.undefined JS.undefined) Demo.recipients = (t, inr b) /\
    P2TR.b_changeValue b < 546 /\
    sum_out_values (P2TR.outputs (P2TR.b_psbt b)) + P2TR.b_finalFee b
    + P2TR.b_changeValue b = P2TR.b_totalInput b.
Proof.
  assert (E : exists t b,
             P2TR.build (Demo.lib 4)
               (Demo.api [Demo.u "a" 21085] "5120ab" "none" None Demo.rate5)
               (Demo.config JS.undefined JS.undefined) Demo.recipients
             = (t, inr b) /\ P2TR.b_changeValue b < 546)
    by (do 2 eexists; vm_compute; split; reflexivity).
  destruct E as (t & b & E & Hdust). exists t, b.
  split; [exact E |]. split; [exact Hdust |].
  exact (proj1 (proj2 (C7_dust_change_conservation _ _ _ _ _ _ E Hdust))).
Defined.

(** ** C8: a wallet that cannot pay *)

Section Exhaustion.

Variable lib : P2TR.Lib.
Variable addresses : list string.
Variable feeRate : JS.value.
Variable total : Z.

(** When no prefix meets the bound the loop takes every candidate. *)
Lemma selectLoop_takes_all rest :
  forall sel0 tot0 fee0,
    (forall j, (1 <= j <= List.length rest)%nat ->
       exists fj, P2TR.feeFor lib addresses feeRate (List.length sel0 + j) = Some fj /\
                  tot0 + sum_values (firstn j rest) < total + fj) ->
    exists fee,
      P2TR.selectLoop lib addresses feeRate total rest sel0 tot0 fee0
      = Some (sel0 ++ rest, tot0 + sum_values rest, fee) /\
      (rest <> [] ->
       P2TR.feeFor lib addresses feeRate (List.length sel0 + List.length rest) = Some fee /\
       tot0 + sum_values rest < total + fee).
Proof.
  induction rest as [| u rest IH]; intros sel0 tot0 fee0 H.
  - exists fee0. cbn. rewrite app_nil_r, Z.add_0_r. split; [reflexivity | congruence].
  - cbn [P2TR.selectLoop].
    assert (Hlen : List.length (sel0 ++ [u]) = (List.length sel0 + 1)%nat)
      by (rewrite length_app; reflexivity).
    destruct (H 1%nat) as (f1 & Hf1 & Hlt1); [cbn; lia |].
    rewrite Hlen, Hf1. cbn [firstn] in Hlt1.
    assert (Hu : sum_values [u] = value u) by (unfold sum_values; cbn; lia).
    rewrite Hu in Hlt1.
    destruct (total + f1 <=? tot0 + value u) eqn:Hc; [apply Z.leb_le in Hc; lia |].
    destruct (IH (sel0 ++ [u]) (tot0 + value u) f1) as (fee & Hloop & Hlast).
    { intros j Hj. destruct (H (S j)) as (fj & Hfj & Hlt); [cbn; lia |].
      exists fj. rewrite Hlen. split.
      - rewrite <- Hfj. f_equal. lia.
      - cbn [firstn] in Hlt.
        change (sum_values (u :: firstn j rest))
          with (value u + sum_values (firstn j rest)) in Hlt. lia. }
    exists fee. rewrite Hloop, <- app_assoc.
    change (sum_values (u :: rest)) with (value u + sum_values rest).
    split.
    { replace (tot0 + value u + sum_values rest)
        with (tot0 + (value u + sum_values rest)) by lia. reflexivity. }
    intros _. destruct rest as [| u' rest'].
    + cbn in Hloop. inversion Hloop; subst fee.
      cbn [List.length]. unfold sum_values at 1. cbn [fold_right].
      split; [exact Hf1 | lia].
    + destruct Hlast as [Hfee Hlt]; [discriminate |].
      rewrite Hlen in Hfee. split.
      * rewrite <- Hfee. f_equal. cbn [List.length]. lia.
      * lia.
Qed.

Lemma selectUtxos_insufficient utxos :
  utxos <> [] ->
  (forall j, (1 <= j <= List.length utxos)%nat ->
     P2TR.feeFor lib addresses feeRate j <> None) ->
  (forall j, (1 <= j <= List.length utxos)%nat ->
     covers lib addresses feeRate total utxos j = false) ->
  exists fee,
    P2TR.feeFor lib addresses feeRate (List.length utxos) = Some fee /\
    sum_values utxos < total + fee /\
    P2TR.selectUtxos lib addresses feeRate total utxos
    = ([], inl (P2TR.InsufficientFunds (total + fee) (sum_values utxos))).
Proof.
  intros Hne Hfee Hcov.
  destruct (selectLoop_takes_all utxos [] 0 0) as (fee & Hloop & Hlast).
  { intros j Hj. specialize (Hfee j Hj). specialize (Hcov j Hj).
    unfold covers in Hcov. cbn [List.length Nat.add].
    destruct (P2TR.feeFor lib addresses feeRate j) as [fj |]; [| contradiction].
    exists fj. apply Z.leb_gt in Hcov. split; [reflexivity | lia]. }
  destruct (Hlast Hne) as [Hf Hlt]. cbn [List.length Nat.add app] in *.
  rewrite Z.add_0_l in *.
  exists fee. split; [exact Hf |]. split; [exact Hlt |].
  unfold P2TR.selectUtxos.
  destruct (P2TR.feeFor lib addresses feeRate 1) as [f1 |] eqn:E.
  2: { exfalso. apply (Hfee 1%nat); [| exact E].
       destruct utxos; [contradiction | cbn; lia]. }
  cbn [Run.orFail]. rewrite Hloop. cbn.
  apply Z.ltb_lt in Hlt. rewrite Hlt. reflexivity.
Qed.

End Exhaustion.

(** The shortage of [main.js], from the steps before it. *)
Lemma createTransaction_insufficient lib api config addresses key amountBTC
    keyPair utxos feeRate tf ti p inputAmount :
  let amount :=
    JS.Math_floor
      (JS.ToNumber (P2WPKH.StringToNumber lib) amountBTC * 100000000)%float in
  let total := (JS.Number_of_Z (Z.of_nat (List.length addresses)) * amount)%float in
  let fee :=
    P2WPKH.estimatedFee lib feeRate (List.length utxos) (List.length addresses + 1) in
  let available := JS.Number_of_Z inputAmount in
  P2WPKH.fromWIF lib key = Some keyPair ->
  address_utxo api (P2WPKH.p2wpkh_address lib keyPair) = Some utxos ->
  utxos <> [] ->
  P2WPKH.getFeeRate api config = (tf, inr feeRate) ->
  P2WPKH.addInputs lib api utxos
    {| P2WPKH.inputs := []; P2WPKH.outputs := [] |} 0 = (ti, inr (p, inputAmount)) ->
  P2WPKH.inputs p <> [] ->
  (available <? total + fee)%float = true ->
  P2WPKH.createTransaction lib api config addresses key amountBTC
  = (FetchUtxos (P2WPKH.p2wpkh_address lib keyPair) :: tf ++ ti,
     inl (P2WPKH.InsufficientFunds (total + fee)%float total fee available
            (total + fee - available)%float)) /\
  Run.nothing_signed (FetchUtxos (P2WPKH.p2wpkh_address lib keyPair) :: tf ++ ti)
  = true.
Proof.
  intros amount total fee available Hkey Hutxos Hne Hrate Hin Hinputs Hchk.
  split.
  - unfold P2WPKH.createTransaction. rewrite Hkey. cbn [Run.orFail].
    unfold Run.bind at 1. cbn [Run.ret].
    unfold Run.bind at 1. cbn [Run.emit].
    rewrite Hutxos. cbn [Run.orFail]. unfold Run.bind at 1. cbn [Run.ret].
    destruct utxos as [| u0 us]; [contradiction |].
    cbn [List.length Nat.eqb].
    rewrite Hrate. unfold Run.bind at 1. rewrite Hin. unfold Run.bind at 1.
    destruct (P2WPKH.inputs p) as [| i0 irest] eqn:Hp; [contradiction |].
    cbn [List.length Nat.eqb].
    subst amount total fee available. cbn zeta in Hchk. cbn [List.length] in Hchk.
    rewrite Hchk. cbn. rewrite app_nil_r. reflexivity.
  - apply wpkh_addInputs_inv in Hin as (_ & _ & _ & Hti).
    change (FetchUtxos (P2WPKH.p2wpkh_address lib keyPair) :: tf ++ ti)
      with ([FetchUtxos (P2WPKH.p2wpkh_address lib keyPair)] ++ tf ++ ti).
    rewrite !nothing_signed_app, Hti, andb_true_r. cbn [andb].
    unfold P2WPKH.getFeeRate in Hrate.
    destruct (_ && _ && _).
    + cbn in Hrate. inversion Hrate; subst. reflexivity.
    + destruct (fees_recommended api); cbn in Hrate; inversion Hrate; subst;
        reflexivity.
Qed.

Lemma build_insufficient_inv lib api config addresses t needed available :
  P2TR.build lib api config addresses
  = (t, inl (P2TR.InsufficientFunds needed available)) ->
  available < needed.
Proof.
  intros H. unfold P2TR.build in H.
  run_fail H as feeRate H1 H.
  { unfold P2TR.getFeeRate in H1. destruct (fees_recommended api); discriminate. }
  run_fail H as keys H2 H; [apply orFail_inl in H2 as (_ & _ & ?); discriminate |].
  destruct keys as [priv pubkey].
  run_fail H as pay H3 H; [apply orFail_inl in H3 as (_ & _ & ?); discriminate |].
  destruct pay as [from expected].
  run_fail H as x H4 H; [discriminate |].
  run_fail H as utxos H5 H; [apply orFail_inl in H5 as (_ & _ & ?); discriminate |].
  destruct (Nat.eqb _ 0); [discriminate |].
  run_fail H as amount H6 H; [apply orFail_inl in H6 as (_ & _ & ?); discriminate |].
  run_fail H as sel H7 H.
  { apply selectUtxos_fail in H7 as [? | (sel & tot & fee & _ & Hlt & Hf)];
      [discriminate |].
    inversion Hf; subst. exact Hlt. }
  destruct sel as [[sel tot] fee].
  run_fail H as p1 H8 H.
  { apply addInputs_fail in H8 as [[? ?] | (? & ? & _ & ? & _)]; discriminate. }
  run_fail H as p2 H9 H; [apply addOutputs_fail in H9; discriminate |].
  run_fail H as pc H10 H.
  - apply addChange_fail in H10 as [? | [_ ?]]; discriminate.
  - destruct pc. discriminate.
Qed.

(** C8, as stated, fails on an empty wallet: the taproot script stops on its
    no-UTXO guard and [main.js], when no UTXO of the response yields a
    script, on its no-input guard; neither reports a required or an
    available total. *)
Lemma C8_empty_wallet_reports_no_totals :
  P2TR.batchSend (Demo.lib 4) (Demo.api [] "5120ab" "none" None Demo.rate5)
    (Demo.config JS.undefined JS.undefined) Demo.recipients "Y"
  = ([FetchFees; FetchUtxos "bc1pfunding"], inl P2TR.NoUtxo) /\
  (forall needed available,
      Run.outcome
        (P2TR.batchSend (Demo.lib 4) (Demo.api [] "5120ab" "none" None Demo.rate5)
           (Demo.config JS.undefined JS.undefined) Demo.recipients "Y")
      <> inl (P2TR.InsufficientFunds needed available)) /\
  P2WPKH.main Demo.wlib (Demo.api [Demo.u "a" 1000] "0014cd" "a" None None)
    (Demo.config (JS.number 0.0001) (JS.number 5)) ["bc1qalice"]
  = ([FetchUtxos "bc1qfunding"; FetchTx "a"], inl P2WPKH.NoValidInput).
Proof.
  split; [vm_compute; reflexivity |]. split; [| vm_compute; reflexivity].
  intros needed available H. vm_compute in H. discriminate.
Qed.

(** C8, amended.  Taproot script: when the response has at least one UTXO,
    every fee estimate is an integer and no prefix of the candidates meets
    the bound, step 2 ends in the shortage that carries the amount needed
    (payout plus the fee for all candidates) and the amount available (the
    sum of all candidates); a run that ends in a shortage has produced no
    signature and broadcast nothing, and what it reports as available is
    less than what it reports as needed.  [main.js]: when at least one input
    was added and the total input is below payout plus fee, the run ends in
    the shortage carrying needed, payout, fee, available and the difference,
    before any signature. *)
Theorem C8_insufficient_funds :
  (forall lib addresses feeRate total utxos,
      utxos <> [] ->
      (forall j, (1 <= j <= List.length utxos)%nat ->
         P2TR.feeFor lib addresses feeRate j <> None) ->
      (forall j, (1 <= j <= List.length utxos)%nat ->
         covers lib addresses feeRate total utxos j = false) ->
      exists fee,
        P2TR.feeFor lib addresses feeRate (List.length utxos) = Some fee /\
        P2TR.selectUtxos lib addresses feeRate total utxos
        = ([], inl (P2TR.InsufficientFunds (total + fee) (sum_values utxos)))) /\
  (forall lib api config addresses answer needed available,
      Run.outcome (P2TR.batchSend lib api config addresses answer)
      = inl (P2TR.InsufficientFunds needed available) ->
      Run.nothing_signed (Run.trace (P2TR.batchSend lib api config addresses answer))
      = true /\
      available < needed) /\
  (forall lib api config addresses key amountBTC keyPair utxos feeRate tf ti p
          inputAmount,
      let amount :=
        JS.Math_floor
          (JS.ToNumber (P2WPKH.StringToNumber lib) amountBTC * 100000000)%float in
      let total := (JS.Number_of_Z (Z.of_nat (List.length addresses)) * amount)%float in
      let fee :=
        P2WPKH.estimatedFee lib feeRate (List.length utxos) (List.length addresses + 1) in
      let available := JS.Number_of_Z inputAmount in
      P2WPKH.fromWIF lib key = Some keyPair ->
      address_utxo api (P2WPKH.p2wpkh_address lib keyPair) = Some utxos ->
      utxos <> [] ->
      P2WPKH.getFeeRate api config = (tf, inr feeRate) ->
      P2WPKH.addInputs lib api utxos
        {| P2WPKH.inputs := []; P2WPKH.outputs := [] |} 0 = (ti, inr (p, inputAmount)) ->
      P2WPKH.inputs p <> [] ->
      (available <? total + fee)%float = true ->
      P2WPKH.createTransaction lib api config addresses key amountBTC
      = (FetchUtxos (P2WPKH.p2wpkh_address lib keyPair) :: tf ++ ti,
         inl (P2WPKH.InsufficientFunds (total + fee)%float total fee available
                (total + fee - available)%float)) /\
      Run.nothing_signed (FetchUtxos (P2WPKH.p2wpkh_address lib keyPair) :: tf ++ ti)
      = true).
Proof.
  split; [| split].
  - intros lib addresses feeRate total utxos Hne Hfee Hcov.
    destruct (selectUtxos_insufficient _ _ _ _ _ Hne Hfee Hcov)
      as (fee & Hf & _ & Hsel).
    exists fee. split; [exact Hf | exact Hsel].
  - intros lib api config addresses answer needed available H.
    apply batchSend_fails_in_build in H; try discriminate.
    split.
    + pose proof (build_nothing_signed lib api config addresses) as Hb.
      rewrite H in Hb. exact Hb.
    + eapply build_insufficient_inv; eauto.
  - intros. eapply createTransaction_insufficient; eauto.
Qed.

(** C8 on a taproot wallet of a single UTXO of 1000 satoshis asked to pay
    20000 satoshis at 5 sat/vB. *)
Lemma C8_insufficient_funds_witness :
  exists fee,
    P2TR.feeFor (Demo.lib 4) Demo.recipients (JS.number 5) 1 = Some fee /\
    P2TR.selectUtxos (Demo.lib 4) Demo.recipients (JS.number 5) 20000
      [Demo.u "a" 1000]
    = ([], inl (P2TR.InsufficientFunds (20000 + fee) 1000)).
Proof.
  apply (proj1 C8_insufficient_funds (Demo.lib 4) Demo.recipients (JS.number 5)
           20000 [Demo.u "a" 1000]).
  - discriminate.
  - intros j Hj. cbn in Hj. assert (j = 1%nat) as -> by lia.
    vm_compute. discriminate.
  - intros j Hj. cbn in Hj. assert (j = 1%nat) as -> by lia.
    vm_compute. reflexivity.
Defined.

(** ** C3: previous-output scripts that are not the funding script *)

Lemma bind_fail {F A B : Type} (f : F) (k : A -> Run.M F B) :
  Run.bind (Run.fail f) k = Run.fail f.
Proof. reflexivity. Qed.

Lemma bind_ret {F A B : Type} (a : A) (k : A -> Run.M F B) :
  Run.bind (Run.ret a) k = k a.
Proof. unfold Run.bind, Run.ret. now destruct (k a). Qed.

Lemma bind_assoc {F A B C : Type} (c : Run.M F A) (k : A -> Run.M F B)
    (h : B -> Run.M F C) :
  Run.bind (Run.bind c k) h = Run.bind c (fun a => Run.bind (k a) h).
Proof.
  unfold Run.bind. destruct c as [t [f | a]]; [reflexivity |].
  destruct (k a) as [t' [f | b]]; [reflexivity |].
  destruct (h b) as [t'' r]. now rewrite app_assoc.
Qed.

Lemma bind_ext {F A B : Type} (c : Run.M F A) (k k' : A -> Run.M F B) :
  (forall a, k a = k' a) -> Run.bind c k = Run.bind c k'.
Proof.
  intros H. unfold Run.bind. destruct c as [t [f | a]]; [reflexivity |].
  now rewrite H.
Qed.

Lemma addInputs_app lib api pubkey expected pre rest :
  forall p0,
    P2TR.addInputs lib api pubkey expected (pre ++ rest) p0
    = Run.bind (P2TR.addInputs lib api pubkey expected pre p0)
        (fun p => P2TR.addInputs lib api pubkey expected rest p).
Proof.
  induction pre as [| v pre IH]; intros p0.
  - cbn [app P2TR.addInputs]. now rewrite bind_ret.
  - cbn [app P2TR.addInputs].
    rewrite bind_assoc. apply bind_ext. intros _.
    rewrite bind_assoc. apply bind_ext. intros details.
    destruct (match nth_error details (vout v) with
              | Some o => scriptpubkey o
              | None => None
              end) as [s |]; [| now rewrite bind_fail].
    destruct (s =? "")%string; [now rewrite bind_fail |].
    destruct (negb _); [now rewrite bind_fail |].
    destruct (P2TR.addInput_accepts _ _ _); [apply IH | now rewrite bind_fail].
Qed.

(** The UTXO the loop of step 3 reaches with a script that is not the funding
    script ends the run. *)
Lemma addInputs_mismatch lib api pubkey expected pre u post p0 t1 p1 s :
  P2TR.addInputs lib api pubkey expected pre p0 = (t1, inr p1) ->
  script_of api u = Some s ->
  JS.Buffer_hex_roundtrip s <> expected ->
  P2TR.addInputs lib api pubkey expected (pre ++ u :: post) p0
  = (t1 ++ [FetchTx (txid u)],
     inl (P2TR.ScriptMismatch u (JS.Buffer_hex_roundtrip s) expected)).
Proof.
  intros Hpre Hs Hneq.
  assert (E : P2TR.addInputs lib api pubkey expected (u :: post) p1
              = ([FetchTx (txid u)],
                 inl (P2TR.ScriptMismatch u (JS.Buffer_hex_roundtrip s) expected))).
  { cbn [P2TR.addInputs]. unfold script_of in Hs.
    destruct (tx_details api (txid u)) as [details |]; [| discriminate].
    cbn [Run.orFail]. unfold Run.emit. unfold Run.bind at 1. rewrite bind_ret.
    destruct (nth_error details (vout u)) as [o |]; [| discriminate].
    destruct (scriptpubkey o) as [s' |]; [| discriminate].
    destruct (s' =? "")%string; [discriminate |].
    inversion Hs; subst s'.
    apply String.eqb_neq in Hneq. rewrite Hneq. reflexivity. }
  rewrite addInputs_app, (bind_ok _ _ _ _ Hpre), E. reflexivity.
Qed.

(** C3, as stated, fails on [main.js], which never compares a script with
    the funding script: with the second of three UTXOs carrying a foreign
    script, the input is added all the same, input 0 is signed, and the run
    ends only when the library refuses to sign input 1. *)
Lemma C3_createTransaction_signs_despite_foreign_script :
  script_of (Demo.api Demo.three "0014cd" "b" (Some "0014ee") None) (Demo.u "b" 50000)
  = Some "0014ee" /\
  JS.Buffer_hex_roundtrip "0014ee" <> Demo.wpkhScript /\
  (exists ti p amount,
      P2WPKH.addInputs Demo.wlib (Demo.api Demo.three "0014cd" "b" (Some "0014ee") None)
        Demo.three {| P2WPKH.inputs := []; P2WPKH.outputs := [] |} 0
      = (ti, inr (p, amount)) /\
      map P2WPKH.witnessUtxo_script (P2WPKH.inputs p) = ["0014cd"; "0014ee"; "0014cd"]) /\
  P2WPKH.main Demo.wlib (Demo.api Demo.three "0014cd" "b" (Some "0014ee") None)
    (Demo.config (JS.number 0.0001) (JS.number 5)) ["bc1qalice"; "bc1qbob"]
  = ([FetchUtxos "bc1qfunding"; FetchTx "a"; FetchTx "b"; FetchTx "c"; Signature 0],
     inl P2WPKH.LibraryError) /\
  Run.nothing_signed
    (Run.trace
       (P2WPKH.main Demo.wlib (Demo.api Demo.three "0014cd" "b" (Some "0014ee") None)
          (Demo.config (JS.number 0.0001) (JS.number 5)) ["bc1qalice"; "bc1qbob"]))
  = false.
Proof.
  split; [reflexivity |]. split; [vm_compute; discriminate |].
  split; [do 3 eexists; vm_compute; split; reflexivity |].
  split; vm_compute; reflexivity.
Qed.

(** C3, amended to the taproot script.  When step 3 reaches a selected UTXO
    whose previous-output script, decoded from hexadecimal, is not the
    funding script, the run ends there in a script mismatch naming the UTXO
    and both scripts; a run of [batchSend] that ends in a script mismatch has
    produced no signature and broadcast nothing; and in a build that
    succeeds every selected UTXO has the funding script and every input
    carries it.  The loop of [main.js] compares nothing: it adds every UTXO
    that has a script. *)
Theorem C3_script_mismatch :
  forall lib api pubkey expected pre u post p0 t1 p1 s,
    P2TR.addInputs lib api pubkey expected pre p0 = (t1, inr p1) ->
    script_of api u = Some s ->
    JS.Buffer_hex_roundtrip s <> expected ->
    P2TR.addInputs lib api pubkey expected (pre ++ u :: post) p0
    = (t1 ++ [FetchTx (txid u)],
       inl (P2TR.ScriptMismatch u (JS.Buffer_hex_roundtrip s) expected)) /\
    (forall config addresses answer u' got expected',
        Run.outcome (P2TR.batchSend lib api config addresses answer)
        = inl (P2TR.ScriptMismatch u' got expected') ->
        Run.nothing_signed (Run.trace (P2TR.batchSend lib api config addresses answer))
        = true) /\
    (forall config addresses t b,
        P2TR.build lib api config addresses = (t, inr b) ->
        exists funding,
          P2TR.p2tr lib (P2TR.b_pubkey b) (network config)
          = Some (P2TR.b_fromAddress b, funding) /\
          Forall (fun u' => exists s', script_of api u' = Some s' /\
                                       JS.Buffer_hex_roundtrip s' = funding)
            (P2TR.b_selectedUtxos b) /\
          Forall (fun i => P2TR.witnessUtxo_script i = JS.Buffer_hex_roundtrip funding)
            (P2TR.inputs (P2TR.b_psbt b))) /\
    (forall wlib utxos q amount t q' amount',
        P2WPKH.addInputs wlib api utxos q amount = (t, inr (q', amount')) ->
        map wpkh_outpoint (P2WPKH.inputs q')
        = map wpkh_outpoint (P2WPKH.inputs q)
          ++ map utxo_outpoint (filter (has_script api) utxos)).
Proof.
  intros lib api pubkey expected pre u post p0 t1 p1 s Hpre Hs Hneq.
  split; [now apply addInputs_mismatch with (p1 := p1) |].
  split; [| split].
  3: { intros wlib utxos q amount t q' amount' H.
       now apply wpkh_addInputs_inv in H as (_ & _ & Hi & _). }
  - intros config addresses answer u' got expected' H.
    apply batchSend_fails_in_build in H; try discriminate.
    pose proof (build_nothing_signed lib api config addresses) as Hb.
    rewrite H in Hb. exact Hb.
  - intros config addresses t b H.
    destruct (build_inv _ _ _ _ _ _ H)
      as (feeRate & utxos & amount & funding & q1 & q2 & tf & u1 & u2 & u3
          & _ & _ & Hpay & _ & _ & _ & _ & _ & Hin & Hout & Hchange).
    exists funding. split; [exact Hpay |].
    apply addInputs_inv in Hin as (_ & added & Hi & _ & _ & Hsc & Hsel).
    cbn in Hi.
    apply addOutputs_inv in Hout as [Hi2 _].
    apply addChange_inv in Hchange as (_ & _ & Hi3 & _).
    split; [exact Hsel |]. rewrite Hi3, Hi2, Hi. exact Hsc.
Qed.

(** C3 on the wallet of [Demo.two], whose second UTXO carries a foreign
    script. *)
Lemma C3_script_mismatch_witness :
  P2TR.addInputs (Demo.lib 4) (Demo.api Demo.two "5120AB" "b" (Some "5120ac") Demo.rate5)
    [4] Demo.fundingScript ([Demo.u "a" 15000] ++ Demo.u "b" 10000 :: [])
    {| P2TR.inputs := []; P2TR.outputs := [] |}
  = ([FetchTx "a"] ++ [FetchTx "b"],
     inl (P2TR.ScriptMismatch (Demo.u "b" 10000) "5120ac" Demo.fundingScript)).
Proof.
  refine (proj1 (C3_script_mismatch (Demo.lib 4)
                   (Demo.api Demo.two "5120AB" "b" (Some "5120ac") Demo.rate5)
                   [4] Demo.fundingScript [Demo.u "a" 15000] (Demo.u "b" 10000) []
                   {| P2TR.inputs := []; P2TR.outputs := [] |}
                   [FetchTx "a"] _ "5120ac" _ _ _)).
  - vm_compute. reflexivity.
  - reflexivity.
  - vm_compute. discriminate.
Defined.

(** ** C2: what the signature hash of an input covers *)

(** Whatever the transaction, the hash of input [i] is asked over one script
    and one value, those of input [i], with the genesis block hash in the
    place of the leaf hash. *)
Lemma sighashCall_own_prevout_only p selected i call :
  P2TR.sighashCall p selected i = Some call ->
  exists input,
    nth_error (P2TR.inputs p) i = Some input /\
    P2TR.prevOutScripts call = [P2TR.witnessUtxo_script input] /\
    P2TR.values call = [P2TR.witnessUtxo_value input] /\
    P2TR.hashType call = P2TR.SIGHASH_DEFAULT /\
    P2TR.leafHash call = Some P2TR.genesisBlockHash.
Proof.
  unfold P2TR.sighashCall.
  destruct (nth_error (P2TR.inputs p) i) as [input |]; [| discriminate].
  destruct (nth_error (map _ selected) i) as [sc |] eqn:Hs; [| discriminate].
  destruct (nth_error (map (fun _ => P2TR.witnessUtxo_value input) selected) i)
    as [v |] eqn:Hv; [| discriminate].
  intros H. inversion H; subst call. cbn. exists input.
  apply nth_error_In, in_map_iff in Hs as (? & <- & _).
  apply nth_error_In, in_map_iff in Hv as (? & <- & _).
  auto.
Qed.

(** C2 fails on a transaction of two inputs (UTXOs of 15000 and 10000
    satoshis): the inputs spend the values [15000; 10000], but the hash of
    input 0 is asked over the single value 15000 and the hash of input 1
    over the single value 10000, each with a single script. *)
Lemma C2_sighash_covers_own_prevout_only :
  exists t b call0 call1,
    P2TR.build (Demo.lib 4) (Demo.api Demo.two "5120AB" "none" None Demo.rate5)
      (Demo.config JS.undefined JS.undefined) Demo.recipients = (t, inr b) /\
    map P2TR.witnessUtxo_value (P2TR.inputs (P2TR.b_psbt b)) = [15000; 10000] /\
    P2TR.sighashCall (P2TR.b_psbt b) (P2TR.b_selectedUtxos b) 0 = Some call0 /\
    P2TR.values call0 = [15000] /\
    P2TR.prevOutScripts call0 = ["5120ab"] /\
    P2TR.sighashCall (P2TR.b_psbt b) (P2TR.b_selectedUtxos b) 1 = Some call1 /\
    P2TR.values call1 = [10000] /\
    P2TR.prevOutScripts call1 = ["5120ab"] /\
    P2TR.leafHash call1 = Some P2TR.genesisBlockHash.
Proof. do 4 eexists. vm_compute. repeat split. Qed.

(** ** C4: the parity of the taproot key *)


Lemma indexed_map_nth {X : Type} (g : nat -> X -> X) (l : list X) :
  forall s n,
    nth_error (map (fun '(j, x) => g j x) (combine (seq s (List.length l)) l)) n
    = option_map (g (s + n)%nat) (nth_error l n).
Proof.
  induction l as [| x l IH]; intros s n.
  - cbn. now destruct n.
  - destruct n as [| n]; cbn [List.length seq combine map nth_error option_map].
    + now rewrite Nat.add_0_r.
    + rewrite IH. f_equal. f_equal. lia.
Qed.

Lemma setTapKeySig_nth i sig p j :
  nth_error (P2TR.inputs (P2TR.setTapKeySig i sig p)) j
  = option_map (fun input => if Nat.eqb j i then with_sig sig input else input)
      (nth_error (P2TR.inputs p) j).
Proof.
  unfold P2TR.setTapKeySig. cbn [P2TR.inputs].
  exact (indexed_map_nth
           (fun j input => if Nat.eqb j i then with_sig sig input else input)
           (P2TR.inputs p) 0 j).
Qed.

Section TaprootSigning.

Variable lib : P2TR.Lib.

Lemma signInput_inv keyToUse pubkey selected i p t p' :
  P2TR.signInput lib keyToUse pubkey selected i p = (t, inr p') ->
  exists call hash sig,
    P2TR.sighashCall p selected i = Some call /\
    P2TR.hashForWitnessV1 lib call = Some hash /\
    P2TR.schnorr_sign lib hash keyToUse = Some sig /\
    P2TR.schnorr_verify lib sig hash pubkey = Some true /\
    p' = P2TR.setTapKeySig i sig p /\
    t = [Signature i].
Proof.
  unfold P2TR.signInput. intros H.
  run_inv H as call Hcall H. apply orFail_inr in Hcall as [Hcall ->].
  run_inv H as hash Hhash H. apply orFail_inr in Hhash as [Hhash ->].
  run_inv H as sig Hsig H. apply orFail_inr in Hsig as [Hsig ->].
  run_inv H as x Hemit H. apply emit_inr in Hemit as ->.
  run_inv H as ok Hok H. apply orFail_inr in Hok as [Hok ->].
  destruct ok; [| discriminate]. cbn [negb] in H.
  destruct (sighashCall_own_prevout_only _ _ _ _ Hcall) as (_ & _ & _ & _ & Hty & _).
  rewrite Hty, Z.eqb_refl in H. cbn in H. inversion H; subst.
  exists call, hash, sig. repeat split; auto.
Qed.

(** After the signing loop every input whose index was visited carries a
    verified signature, and the others are as before. *)
Lemma signLoop_inv keyToUse pubkey selected indices :
  forall p t p',
    P2TR.signLoop lib keyToUse pubkey selected indices p = (t, inr p') ->
    List.length (P2TR.inputs p') = List.length (P2TR.inputs p) /\
    P2TR.outputs p' = P2TR.outputs p /\
    forall j input',
      nth_error (P2TR.inputs p') j = Some input' ->
      (In j indices -> verified lib keyToUse pubkey input') /\
      (~ In j indices -> nth_error (P2TR.inputs p) j = Some input').
Proof.
  induction indices as [| i rest IH]; intros p t p' H.
  - cbn in H. inversion H; subst. repeat split; auto. intros [].
  - cbn [P2TR.signLoop] in H. run_inv H as p1 Hone H.
    apply signInput_inv in Hone
      as (call & hash & sig & _ & _ & Hsig & Hver & -> & _).
    apply IH in H as (Hlen & Hout & Hnth).
    split.
    { rewrite Hlen. unfold P2TR.setTapKeySig. cbn [P2TR.inputs].
      rewrite length_map, length_combine, length_seq. apply Nat.min_id. }
    split; [rewrite Hout; reflexivity |].
    intros j input' Hj. destruct (Hnth j input' Hj) as [Hin Hnot].
    assert (Hself : ~ In j rest -> j = i -> verified lib keyToUse pubkey input').
    { intros Hn ->. specialize (Hnot Hn). rewrite setTapKeySig_nth in Hnot.
      destruct (nth_error (P2TR.inputs p) i) as [input |]; [| discriminate].
      cbn in Hnot. rewrite Nat.eqb_refl in Hnot. inversion Hnot; subst input'.
      exists hash, sig. repeat split; auto. }
    split.
    + intros [<- | Hr]; [| now apply Hin].
      destruct (in_dec Nat.eq_dec i rest) as [Hr | Hr]; [now apply Hin |].
      now apply Hself.
    + intros Hn. assert (Hr : ~ In j rest) by (intros ?; apply Hn; now right).
      assert (Hji : j <> i) by (intros ->; apply Hn; now left).
      specialize (Hnot Hr). rewrite setTapKeySig_nth in Hnot.
      destruct (nth_error (P2TR.inputs p) j) as [input |]; [| discriminate].
      cbn in Hnot. apply Nat.eqb_neq in Hji. rewrite Hji in Hnot. exact Hnot.
Qed.

(** Every input of a run that reaches step 8 carries a signature made with
    the key of step 6 and verified against the x-only public key of the raw
    key. *)
Lemma batchSend_signatures_verified api config addresses answer t s :
  P2TR.batchSend lib api config addresses answer = (t, inr s) ->
  let priv := P2TR.b_privateKeyBytes (P2TR.unsigned s) in
  exists keyToUse,
    P2TR.privateKeyToUse lib priv = Some keyToUse /\
    Forall (verified lib keyToUse (xonly_of lib priv)) (P2TR.inputs (P2TR.psbt s)).
Proof.
  intros H priv. unfold P2TR.batchSend in H.
  run_inv H as b Hb H. run_inv H as p Hp H.
  assert (Hs : P2TR.psbt s = p /\ P2TR.unsigned s = b).
  { unfold P2TR.finish in H. run_inv H as hex Hhex H.
    destruct (answer =? "Y")%string.
    - run_inv H as x Hemit H.
      destruct (post_tx api hex); cbn in H; inversion H; subst; auto.
    - cbn in H. inversion H; subst; auto. }
  destruct Hs as [Hpsbt Hun]. subst priv. rewrite Hpsbt, Hun.
  destruct (build_inv _ _ _ _ _ _ Hb)
    as (feeRate & utxos & amount & expected & p1 & p2 & tf & u1 & u2 & u3
        & _ & Hkeys & _).
  assert (Hpub : P2TR.b_pubkey b = xonly_of lib (P2TR.b_privateKeyBytes b)).
  { unfold P2TR.initKeys in Hkeys.
    destruct (P2TR.fromWIF lib (privateKey config) (network config)) as [k |];
      [| discriminate].
    destruct (negb (P2TR.isValidPrivateKey lib k)); [discriminate |].
    inversion Hkeys; subst. reflexivity. }
  apply signInputs_inr in Hp as (keyToUse & Hkey & Hp). rewrite Hpub in Hp.
  exists keyToUse. split; [exact Hkey |].
  apply signLoop_inv in Hp as (Hlen & _ & Hnth).
  apply Forall_forall. intros input Hin.
  apply In_nth_error in Hin as [j Hj].
  apply (Hnth j input Hj), in_seq.
  assert (j < List.length (P2TR.inputs p))%nat
    by (apply nth_error_Some; rewrite Hj; discriminate).
  lia.
Qed.


End TaprootSigning.




(** ** C9: where the fee rate comes from *)

(** C9, as stated, fails on the taproot script: with a configured rate of 5
    sat/vB, a valid positive number, the script still asks the network first
    and uses the recommended half-hour rate of 20 sat/vB.  It fails on
    [main.js] too: with a configured rate that is not a number and a failed
    request, the run fails; the configured value is not a fallback there. *)
Lemma C9_configured_rate_is_not_first_in_taproot :
  valid_configured_rate (JS.number 5) = true /\
  P2TR.getFeeRate
    (Demo.api [] "" "" None
       (Some {| halfHourFee := JS.number 20; fastestFee := JS.number 30 |}))
    (Demo.config JS.undefined (JS.number 5))
  = ([FetchFees], inr (JS.number 20)) /\
  JS.number 20 <> JS.number 5 /\
  P2WPKH.getFeeRate (Demo.api [] "" "" None None)
    (Demo.config JS.undefined (JS.str "5"))
  = ([FetchFees], inl P2WPKH.NoFeeRate).
Proof.
  split; [reflexivity |]. split; [reflexivity |]. split; [| reflexivity].
  intros H. apply number_eq_inv in H.
  apply (f_equal (fun x => PrimFloat.eqb x 5)) in H. vm_compute in H. discriminate.
Qed.

(** C9, amended.  [main.js] uses the configured rate, without any request,
    when it is a positive number; otherwise it requests the recommended
    rates and uses [fastestFee], and fails when the request fails.  The
    taproot script always requests the recommended rates and uses
    [halfHourFee], else [fastestFee], else the configured value; when the
    request fails it uses the configured value; it never fails at this
    step. *)
Theorem C9_fee_rate_resolution :
  forall api config,
    (valid_configured_rate (feeRate config) = true ->
     P2WPKH.getFeeRate api config = ([], inr (feeRate config))) /\
    (valid_configured_rate (feeRate config) = false ->
     forall data, fees_recommended api = Some data ->
     P2WPKH.getFeeRate api config = ([FetchFees], inr (fastestFee data))) /\
    (valid_configured_rate (feeRate config) = false ->
     fees_recommended api = None ->
     P2WPKH.getFeeRate api config = ([FetchFees], inl P2WPKH.NoFeeRate)) /\
    (forall data, fees_recommended api = Some data ->
     P2TR.getFeeRate api config
     = ([FetchFees],
        inr (JS.or (JS.or (halfHourFee data) (fastestFee data)) (feeRate config)))) /\
    (fees_recommended api = None ->
     P2TR.getFeeRate api config = ([FetchFees], inr (feeRate config))).
Proof.
  intros api config. unfold P2WPKH.getFeeRate, P2TR.getFeeRate.
  fold (valid_configured_rate (feeRate config)). repeat split.
  - intros ->. reflexivity.
  - intros -> data ->. reflexivity.
  - intros -> ->. reflexivity.
  - intros data ->. reflexivity.
  - intros ->. reflexivity.
Qed.

(** C9 on a configured rate of 3 sat/vB, on no configured rate, and on a
    failed request. *)
Lemma C9_fee_rate_resolution_witness :
  P2WPKH.getFeeRate (Demo.api [] "" "" None Demo.rate5)
    (Demo.config JS.undefined (JS.number 3))
  = ([], inr (JS.number 3)) /\
  P2WPKH.getFeeRate (Demo.api [] "" "" None Demo.rate5)
    (Demo.config JS.undefined JS.undefined)
  = ([FetchFees], inr (JS.number 8)) /\
  P2TR.getFeeRate (Demo.api [] "" "" None None)
    (Demo.config JS.undefined (JS.number 3))
  = ([FetchFees], inr (JS.number 3)).
Proof.
  split; [| split].
  - apply (proj1 (C9_fee_rate_resolution (Demo.api [] "" "" None Demo.rate5)
                    (Demo.config JS.undefined (JS.number 3)))).
    reflexivity.
  - refine (proj1 (proj2 (C9_fee_rate_resolution (Demo.api [] "" "" None Demo.rate5)
                            (Demo.config JS.undefined JS.undefined)))
              _ {| halfHourFee := JS.number 5; fastestFee := JS.number 8 |} _);
      reflexivity.
  - apply (proj2 (proj2 (proj2 (proj2
             (C9_fee_rate_resolution (Demo.api [] "" "" None None)
                (Demo.config JS.undefined (JS.number 3))))))).
    reflexivity.
Defined.

(** ** [Math.floor] rounds down *)

Lemma digits2_pos_bounds p :
  2 ^ (Z.pos (digits2_pos p) - 1) <= Z.pos p < 2 ^ Z.pos (digits2_pos p).
Proof.
  induction p as [p IH | p IH |]; cbn [digits2_pos].
  - rewrite Pos2Z.inj_succ.
    replace (Z.succ (Z.pos (digits2_pos p)) - 1) with (Z.succ (Z.pos (digits2_pos p) - 1))
      by lia.
    rewrite !Z.pow_succ_r by lia. lia.
  - rewrite Pos2Z.inj_succ.
    replace (Z.succ (Z.pos (digits2_pos p)) - 1) with (Z.succ (Z.pos (digits2_pos p) - 1))
      by lia.
    rewrite !Z.pow_succ_r by lia. lia.
  - cbn. lia.
Qed.

Lemma iter_xO_spec d :
  forall p,
    Z.pos (Pos.iter xO p d) = Z.pos p * 2 ^ Z.pos d /\
    digits2_pos (Pos.iter xO p d) = (digits2_pos p + d)%positive.
Proof.
  induction d as [| d IH] using Pos.peano_ind; intros p.
  - cbn. split; lia.
  - rewrite Pos.iter_succ. cbn [digits2_pos].
    destruct (IH p) as [Hv Hd]. rewrite Pos2Z.inj_xO, Hv, Hd, Pos2Z.inj_succ.
    rewrite Z.pow_succ_r by lia. split; lia.
Qed.

Lemma binary_round_aux_canonical s m e :
  canonical_mantissa prec emax m e = true ->
  e <= emax - prec ->
  binary_round_aux prec emax s (Z.pos m) e loc_Exact = S754_finite s m e.
Proof.
  intros Hc He. unfold canonical_mantissa in Hc. apply Z.eqb_eq in Hc.
  unfold binary_round_aux, shr_fexp. cbn [Zdigits2 shr_record_of_loc].
  rewrite Hc, Z.sub_diag. cbn [shr loc_of_shr_record shr_m round_nearest_even].
  cbn [Zdigits2]. rewrite Hc, Z.sub_diag. cbn [shr shr_m].
  apply Z.leb_le in He. now rewrite He.
Qed.

(** An integer below 2^53 is a double, and [BigInt] gives it back. *)
Lemma Number_of_Z_exact q :
  0 <= q < 2 ^ 53 -> JS.BigInt (JS.Number_of_Z q) = Some q.
Proof.
  intros Hq. unfold JS.Number_of_Z.
  destruct q as [| p | p]; [| | lia].
  - cbn [binary_normalize]. unfold JS.BigInt.
    now rewrite Prim2SF_SF2Prim.
  - cbn [binary_normalize]. unfold binary_round.
    destruct (digits2_pos_bounds p) as [Hlo Hhi].
    assert (HL : Z.pos (digits2_pos p) <= 53).
    { destruct (Z_le_gt_dec (Z.pos (digits2_pos p)) 53) as [H | H]; [exact H |].
      assert (2 ^ 53 <= 2 ^ (Z.pos (digits2_pos p) - 1))
        by (apply Z.pow_le_mono_r; lia).
      lia. }
    assert (Hf : fexp prec emax (Z.pos (digits2_pos p) + 0) = Z.pos (digits2_pos p) - 53).
    { unfold fexp, emin, prec, emax. lia. }
    rewrite Hf. unfold shl_align.
    destruct (Z.pos (digits2_pos p) - 53 - 0) as [| d | d] eqn:Ed; [| lia |].
    + assert (HL53 : Z.pos (digits2_pos p) = 53) by lia.
      rewrite binary_round_aux_canonical.
      * unfold JS.BigInt. rewrite Prim2SF_SF2Prim.
        -- cbn. f_equal. lia.
        -- cbn [valid_binary]. unfold bounded, canonical_mantissa.
           rewrite Hf, HL53. reflexivity.
      * unfold canonical_mantissa. rewrite Hf, HL53. reflexivity.
      * unfold emax, prec. lia.
    + destruct (iter_xO_spec d p) as [Hv Hd].
      assert (Hd53 : Z.pos d = 53 - Z.pos (digits2_pos p)) by lia.
      assert (Hcan : canonical_mantissa prec emax (Pos.iter xO p d)
                       (Z.pos (digits2_pos p) - 53) = true).
      { unfold canonical_mantissa. rewrite Hd. apply Z.eqb_eq.
        unfold fexp, emin, prec, emax. lia. }
      rewrite binary_round_aux_canonical;
        [| exact Hcan | unfold emax, prec; lia].
      unfold JS.BigInt. rewrite Prim2SF_SF2Prim.
      * replace (0 <=? Z.pos (digits2_pos p) - 53) with false
          by (symmetry; apply Z.leb_gt; lia).
        replace (- (Z.pos (digits2_pos p) - 53)) with (Z.pos d) by lia.
        rewrite Hv, Z.mod_mul by lia. cbn [Z.eqb option_map].
        rewrite Z.div_mul by lia. reflexivity.
      * cbn [valid_binary]. unfold bounded. rewrite Hcan.
        apply Z.leb_le. unfold emax, prec. lia.
Qed.

Lemma BigInt_opp y : JS.BigInt (- y)%float = option_map Z.opp (JS.BigInt y).
Proof.
  unfold JS.BigInt. rewrite opp_spec.
  destruct (Prim2SF y) as [s | s | | s m e]; cbn [SFopp option_map]; try reflexivity.
  destruct (0 <=? e); [destruct s; cbn; f_equal; lia |].
  destruct (Z.pos m mod 2 ^ (- e) =? 0); [| reflexivity].
  destruct s; cbn; f_equal; lia.
Qed.

(** The mantissa of a double has at most 53 bits. *)
Lemma mantissa_bound x s m e :
  Prim2SF x = S754_finite s m e -> Z.pos m < 2 ^ 53.
Proof.
  intros H. pose proof (Prim2SF_valid x) as Hv. rewrite H in Hv.
  cbn [valid_binary] in Hv. unfold bounded in Hv.
  apply andb_true_iff in Hv as [Hc _].
  unfold canonical_mantissa in Hc. apply Z.eqb_eq in Hc.
  destruct (digits2_pos_bounds m) as [_ Hhi].
  assert (Z.pos (digits2_pos m) <= 53)
    by (unfold fexp, emin, prec, emax in Hc; lia).
  assert (2 ^ Z.pos (digits2_pos m) <= 2 ^ 53) by (apply Z.pow_le_mono_r; lia).
  lia.
Qed.

(** [Math.floor] of a finite double [v * 2^e] is the largest integer that is
    not above it, and that integer is a double. *)
Lemma Math_floor_rounds_down x s m e :
  Prim2SF x = S754_finite s m e ->
  let v := if s then Z.neg m else Z.pos m in
  exists z,
    JS.BigInt (JS.Math_floor x) = Some z /\
    (0 <= e -> z = v * 2 ^ e) /\
    (e < 0 -> z * 2 ^ (- e) <= v < (z + 1) * 2 ^ (- e)).
Proof.
  intros H v. pose proof (mantissa_bound _ _ _ _ H) as Hm.
  unfold JS.Math_floor, JS.round_integral. rewrite H.
  destruct (0 <=? e) eqn:Ee.
  - apply Z.leb_le in Ee. exists (v * 2 ^ e).
    split; [| split; [reflexivity | lia]].
    unfold JS.BigInt. rewrite H. apply Z.leb_le in Ee. rewrite Ee.
    subst v. destruct s; cbn [option_map]; f_equal; lia.
  - apply Z.leb_gt in Ee.
    assert (Hd : 2 <= 2 ^ (- e)).
    { replace 2 with (2 ^ 1) at 1 by reflexivity. apply Z.pow_le_mono_r; lia. }
    pose proof (Z.div_mod (Z.pos m) (2 ^ (- e)) ltac:(lia)) as Hdm.
    pose proof (Z.mod_pos_bound (Z.pos m) (2 ^ (- e)) ltac:(lia)) as Hr.
    assert (Hq : 0 <= Z.pos m / 2 ^ (- e)) by (apply Z.div_pos; lia).
    destruct (Z.pos m mod 2 ^ (- e) =? 0) eqn:Ex.
    + apply Z.eqb_eq in Ex.
      exists (if s then - (Z.pos m / 2 ^ (- e)) else Z.pos m / 2 ^ (- e)).
      split.
      * unfold JS.BigInt. rewrite H.
        replace (0 <=? e) with false by (symmetry; apply Z.leb_gt; lia).
        apply Z.eqb_eq in Ex. rewrite Ex. reflexivity.
      * split; [lia |]. intros _. subst v. destruct s; nia.
    + apply Z.eqb_neq in Ex.
      assert (Hq1 : Z.pos m / 2 ^ (- e) + 1 < 2 ^ 53) by nia.
      destruct s.
      * exists (- (Z.pos m / 2 ^ (- e) + 1)). split.
        -- rewrite BigInt_opp, Number_of_Z_exact by lia. reflexivity.
        -- split; [lia |]. intros _. subst v. nia.
      * exists (Z.pos m / 2 ^ (- e)). split.
        -- apply Number_of_Z_exact. lia.
        -- split; [lia |]. intros _. subst v. nia.
Qed.

(** ** C10: the amount per recipient *)

(** [Math.floor] followed by [BigInt] rounds every double down. *)
Lemma Math_floor_rounded_down x : rounded_down x (JS.BigInt (JS.Math_floor x)).
Proof.
  unfold rounded_down.
  destruct (Prim2SF x) as [s | s | | s m e] eqn:E.
  - unfold JS.Math_floor, JS.round_integral, JS.BigInt. now rewrite E, E.
  - unfold JS.Math_floor, JS.round_integral, JS.BigInt. now rewrite E, E.
  - unfold JS.Math_floor, JS.round_integral, JS.BigInt. now rewrite E, E.
  - exact (Math_floor_rounds_down x s m e E).
Qed.

(** C10.  When the configured [sendAmountBTC] is falsy (absent, [null],
    [false], zero, [NaN] or the empty string) the taproot script uses 0.0001
    BTC, which is 10000 satoshis in double arithmetic, and the conversion to
    [BigInt] succeeds; otherwise it uses the configured value.  In every case
    the amount in satoshis is the double product of the amount and 100000000
    rounded down to an integer (for a product that is not a number there is
    no amount, and no transaction), every recipient output of a successful
    build carries that amount, and [btcToSats] of [utils.js] rounds down the
    same way. *)
Theorem C10_amount_per_recipient :
  forall lib config,
    (JS.truthy (sendAmountBTC config) = false ->
     P2TR.amountToSendBTC config = JS.number 0.0001 /\
     P2TR.amountInSats lib config = 10000%float /\
     JS.BigInt (P2TR.amountInSats lib config) = Some 10000) /\
    (JS.truthy (sendAmountBTC config) = true ->
     P2TR.amountToSendBTC config = sendAmountBTC config) /\
    rounded_down
      (JS.ToNumber (P2TR.StringToNumber lib) (P2TR.amountToSendBTC config)
       * 100000000)%float
      (JS.BigInt (P2TR.amountInSats lib config)) /\
    (forall api addresses t b,
        P2TR.build lib api config addresses = (t, inr b) ->
        exists amount,
          JS.BigInt (P2TR.amountInSats lib config) = Some amount /\
          firstn (List.length addresses) (P2TR.outputs (P2TR.b_psbt b))
          = map (fun a => {| P2TR.address := trim a; P2TR.out_value := amount |})
              addresses) /\
    (forall btc, rounded_down (btc * 100000000)%float (JS.BigInt (btcToSats btc))).
Proof.
  intros lib config. split; [| split; [| split; [| split]]].
  - intros H. unfold P2TR.amountInSats, P2TR.amountToSendBTC, JS.or. rewrite H.
    cbn [JS.ToNumber]. split; [reflexivity |]. split; vm_compute; reflexivity.
  - intros H. unfold P2TR.amountToSendBTC, JS.or. now rewrite H.
  - unfold P2TR.amountInSats. apply Math_floor_rounded_down.
  - intros api addresses t b H.
    destruct (batchSend_change_output _ _ _ _ _ _ H)
      as (amount & Hamount & _ & _ & _ & Hout).
    exists amount. split; [exact Hamount |].
    rewrite Hout.
    rewrite <- (length_map
                  (fun a => {| P2TR.address := trim a; P2TR.out_value := amount |})
                  addresses).
    rewrite firstn_app, Nat.sub_diag, firstn_all. cbn [firstn].
    now rewrite app_nil_r.
  - intros btc. unfold btcToSats. apply Math_floor_rounded_down.
Qed.

(** C10 on a configured amount of zero, on a configured amount of 0.29 BTC,
    whose product with 100000000 is the double just below 29000000 and so
    gives 28999999 satoshis, and on the three-UTXO scenario without a
    configured amount. *)
Lemma C10_amount_per_recipient_witness :
  P2TR.amountInSats (Demo.lib 4) (Demo.config (JS.number 0) JS.undefined) = 10000%float /\
  P2TR.amountToSendBTC (Demo.config (JS.number 0.29) JS.undefined) = JS.number 0.29 /\
  JS.BigInt (P2TR.amountInSats (Demo.lib 4) (Demo.config (JS.number 0.29) JS.undefined))
  = Some 28999999 /\
  exists t b,
    P2TR.build (Demo.lib 4) (Demo.api Demo.three "5120ab" "none" None Demo.rate5)
      (Demo.config JS.undefined JS.undefined) Demo.recipients = (t, inr b) /\
    firstn 2 (P2TR.outputs (P2TR.b_psbt b))
    = [ {| P2TR.address := "bc1qalice"; P2TR.out_value := 10000 |};
        {| P2TR.address := "bc1qbob"; P2TR.out_value := 10000 |} ].
Proof.
  split; [| split; [| split]].
  - apply (proj1 (C10_amount_per_recipient (Demo.lib 4)
                    (Demo.config (JS.number 0) JS.undefined))).
    vm_compute. reflexivity.
  - apply (proj1 (proj2 (C10_amount_per_recipient (Demo.lib 4)
                           (Demo.config (JS.number 0.29) JS.undefined)))).
    vm_compute. reflexivity.
  - pose proof (proj1 (proj2 (proj2
                  (C10_amount_per_recipient (Demo.lib 4)
                     (Demo.config (JS.number 0.29) JS.undefined))))) as H.
    unfold rounded_down in H.
    assert (E : Prim2SF
                  (JS.ToNumber (P2TR.StringToNumber (Demo.lib 4))
                     (P2TR.amountToSendBTC (Demo.config (JS.number 0.29) JS.undefined))
                   * 100000000)%float
                = S754_finite false 7784628223999999 (-28))
      by (vm_compute; reflexivity).
    rewrite E in H. destruct H as (z & -> & _ & Hz). f_equal.
    specialize (Hz ltac:(lia)). change (2 ^ (- -28)) with 268435456 in Hz. lia.
  - assert (E : exists t b,
               P2TR.build (Demo.lib 4)
                 (Demo.api Demo.three "5120ab" "none" None Demo.rate5)
                 (Demo.config JS.undefined JS.undefined) Demo.recipients
               = (t, inr b))
      by (do 2 eexists; vm_compute; reflexivity).
    destruct E as (t & b & E). exists t, b. split; [exact E |].
    destruct (proj1 (proj2 (proj2 (proj2
                (C10_amount_per_recipient (Demo.lib 4)
                   (Demo.config JS.undefined JS.undefined))))) _ _ _ _ E)
      as (amount & Hamount & Hout).
    vm_compute in Hamount. inversion Hamount; subst amount. exact Hout.
Defined.

(** * Further properties of the code *)

(** ** Hexadecimal strings and bytes *)

Lemma hexval_hexdigit n : (n < 16)%N -> JS.hexval (JS.hexdigit n) = Some n.
Proof.
  intros H. destruct n as [| p]; [reflexivity |].
  do 4 (try destruct p as [p | p |]); try reflexivity; lia.
Qed.

Lemma hexval_bound c x : JS.hexval c = Some x -> (x < 16)%N.
Proof.
  unfold JS.hexval.
  destruct ((48 <=? N_of_ascii c) && (N_of_ascii c <=? 57))%N eqn:H1.
  { apply andb_true_iff in H1 as [Ha Hb].
    apply N.leb_le in Ha, Hb. intros H. inversion H. lia. }
  destruct ((97 <=? N_of_ascii c) && (N_of_ascii c <=? 102))%N eqn:H2.
  { apply andb_true_iff in H2 as [Ha Hb].
    apply N.leb_le in Ha, Hb. intros H. inversion H. lia. }
  destruct ((65 <=? N_of_ascii c) && (N_of_ascii c <=? 70))%N eqn:H3; [| discriminate].
  apply andb_true_iff in H3 as [Ha Hb].
  apply N.leb_le in Ha, Hb. intros H. inversion H. lia.
Qed.

Lemma byte_nibbles x y :
  (x < 16)%N -> (y < 16)%N ->
  let b := Z.of_N (16 * x + y) in
  b mod 256 = b /\ Z.to_N (b / 16) = x /\ Z.to_N (b mod 16) = y.
Proof.
  intros Hx Hy b. subst b. rewrite N2Z.inj_add, N2Z.inj_mul. cbn [Z.of_N].
  assert (Hq : (16 * Z.of_N x + Z.of_N y) / 16 = Z.of_N x)
    by (symmetry; apply (Z.div_unique _ 16 _ (Z.of_N y)); lia).
  assert (Hr : (16 * Z.of_N x + Z.of_N y) mod 16 = Z.of_N y)
    by (symmetry; apply (Z.mod_unique _ 16 (Z.of_N x)); lia).
  rewrite Hq, Hr, !N2Z.id. repeat split. apply Z.mod_small. lia.
Qed.

Lemma nibbles_byte b :
  0 <= b < 256 ->
  (Z.to_N (b / 16) < 16)%N /\ (Z.to_N (b mod 16) < 16)%N /\
  Z.of_N (16 * Z.to_N (b / 16) + Z.to_N (b mod 16)) = b.
Proof.
  intros H.
  assert (H1 : 0 <= b / 16 < 16)
    by (split; [apply Z.div_pos; lia | apply Z.div_lt_upper_bound; lia]).
  assert (H2 : 0 <= b mod 16 < 16) by (apply Z.mod_pos_bound; lia).
  repeat split; try lia.
  rewrite N2Z.inj_add, N2Z.inj_mul, !Z2N.id by lia. cbn [Z.of_N].
  symmetry. apply Z.div_mod. lia.
Qed.

(** X1.  Bytes written as hexadecimal and read back are the bytes
    ([Buffer.from] keeps the low eight bits of each element, so the bytes of
    a [Buffer] or [Uint8Array] come back unchanged). *)
Theorem X1_hexToBuffer_bufferToHex :
  forall buffer,
    Utils.hexToBuffer (Utils.bufferToHex buffer) = map (fun b => b mod 256) buffer.
Proof.
  induction buffer as [| b rest IH]; [reflexivity |].
  cbn [Utils.bufferToHex Utils.hexToBuffer map].
  destruct (nibbles_byte (b mod 256)) as (H1 & H2 & H3);
    [apply Z.mod_pos_bound; lia |].
  rewrite (hexval_hexdigit _ H1), (hexval_hexdigit _ H2), H3, IH. reflexivity.
Qed.

Lemma hex_decode_encode_bytes l :
  Forall (fun b => 0 <= b < 256) l ->
  Utils.hexToBuffer (Utils.bufferToHex l) = l.
Proof.
  induction 1 as [| b l Hb _ IH]; [reflexivity |].
  cbn [Utils.bufferToHex Utils.hexToBuffer].
  rewrite (Z.mod_small b 256) by lia.
  destruct (nibbles_byte b Hb) as (H1 & H2 & H3).
  rewrite (hexval_hexdigit _ H1), (hexval_hexdigit _ H2), H3, IH. reflexivity.
Qed.

Lemma hexToBuffer_bytes s : Forall (fun b => 0 <= b < 256) (Utils.hexToBuffer s).
Proof.
  assert (H : forall s, Forall (fun b => 0 <= b < 256) (Utils.hexToBuffer s) /\
                        forall c, Forall (fun b => 0 <= b < 256)
                                    (Utils.hexToBuffer (String c s))).
  { clear s. induction s as [| a s [IH1 IH2]]; [split; [constructor | intros c; constructor] |].
    split; [exact (IH2 a) |]. intros c. cbn [Utils.hexToBuffer].
    destruct (JS.hexval c) as [x |] eqn:Hx; [| constructor].
    destruct (JS.hexval a) as [y |] eqn:Hy; [| constructor].
    constructor; [| exact IH1].
    apply hexval_bound in Hx, Hy. lia. }
  apply H.
Qed.

Lemma hex_encode_decode s :
  Utils.bufferToHex (Utils.hexToBuffer s) = JS.Buffer_hex_roundtrip s.
Proof.
  assert (H : forall s,
             Utils.bufferToHex (Utils.hexToBuffer s) = JS.Buffer_hex_roundtrip s /\
             forall c, Utils.bufferToHex (Utils.hexToBuffer (String c s))
                       = JS.Buffer_hex_roundtrip (String c s)).
  { clear s.
    induction s as [| a s [IH1 IH2]]; [split; [reflexivity | intros c; reflexivity] |].
    split; [exact (IH2 a) |]. intros c.
    cbn [Utils.hexToBuffer JS.Buffer_hex_roundtrip].
    destruct (JS.hexval c) as [x |] eqn:Hx; [| reflexivity].
    destruct (JS.hexval a) as [y |] eqn:Hy; [| reflexivity].
    cbn [Utils.bufferToHex].
    apply hexval_bound in Hx, Hy.
    destruct (byte_nibbles x y Hx Hy) as (Hb & Hq & Hr).
    rewrite Hb, Hq, Hr, IH1. reflexivity. }
  apply H.
Qed.

Lemma hex_roundtrip_idempotent s :
  JS.Buffer_hex_roundtrip (JS.Buffer_hex_roundtrip s) = JS.Buffer_hex_roundtrip s.
Proof.
  rewrite <- !hex_encode_decode, hex_decode_encode_bytes by apply hexToBuffer_bytes.
  reflexivity.
Qed.

(** X2.  Reading a string as hexadecimal and writing the bytes back is the
    normalisation the taproot script applies to a fetched script; it is
    idempotent, and two strings normalise alike exactly when they decode to
    the same bytes: letter case, a trailing odd digit and everything from the
    first pair that is not hexadecimal on are ignored. *)
Theorem X2_hex_normalisation :
  forall s,
    Utils.bufferToHex (Utils.hexToBuffer s) = JS.Buffer_hex_roundtrip s /\
    JS.Buffer_hex_roundtrip (JS.Buffer_hex_roundtrip s) = JS.Buffer_hex_roundtrip s /\
    forall s',
      JS.Buffer_hex_roundtrip s = JS.Buffer_hex_roundtrip s' <->
      Utils.hexToBuffer s = Utils.hexToBuffer s'.
Proof.
  intros s. split; [apply hex_encode_decode |].
  split; [apply hex_roundtrip_idempotent |].
  intros s'. split.
  - intros H. rewrite <- !hex_encode_decode in H.
    apply (f_equal Utils.hexToBuffer) in H.
    rewrite !hex_decode_encode_bytes in H by apply hexToBuffer_bytes. exact H.
  - intros H. rewrite <- !hex_encode_decode, H. reflexivity.
Qed.

(** ** Satoshis and BTC *)

Lemma holds_from_spec f k :
  forall z, holds_from f z k = true ->
            forall n, z <= n < z + Z.of_nat k -> f n = true.
Proof.
  induction k as [| k IH]; intros z H n Hn; [lia |].
  cbn [holds_from] in H. apply andb_true_iff in H as [Hz Hrest].
  destruct (Z.eq_dec n z) as [-> | Hne]; [exact Hz |].
  apply (IH (z + 1) Hrest). lia.
Qed.

(** X3.  Converting satoshis to BTC and back is not the identity: in double
    arithmetic [btcToSats(satoshiToBTC(n))] is [n] or [n - 1] for every
    amount up to 10000 satoshis, and it is [n - 1] for instance at 3 and at
    29 satoshis.  (The same product and floor turn the configured
    [sendAmountBTC] into satoshis.) *)
Theorem X3_satoshi_roundtrip_loses_at_most_one :
  (forall n,
      0 <= n <= 10000 ->
      exists m,
        JS.BigInt (btcToSats (Utils.satoshiToBTC (JS.Number_of_Z n))) = Some m /\
        (m = n \/ m = n - 1)) /\
  JS.BigInt (btcToSats (Utils.satoshiToBTC 3)) = Some 2 /\
  JS.BigInt (btcToSats (Utils.satoshiToBTC 29)) = Some 28.
Proof.
  split; [| split; vm_compute; reflexivity].
  intros n Hn.
  assert (Hall : holds_from satoshi_roundtrip_close 0 (Z.to_nat 10001) = true)
    by (vm_compute; reflexivity).
  pose proof (holds_from_spec _ _ _ Hall n) as H.
  rewrite Z2Nat.id in H by lia. specialize (H ltac:(lia)).
  unfold satoshi_roundtrip_close in H.
  destruct (JS.BigInt (btcToSats (Utils.satoshiToBTC (JS.Number_of_Z n))))
    as [m |]; [| discriminate].
  exists m. split; [reflexivity |].
  apply orb_true_iff in H as [H | H]; apply Z.eqb_eq in H; auto.
Qed.

(** X3 at 12 satoshis, which come back as 11. *)
Lemma X3_satoshi_roundtrip_witness :
  exists m,
    JS.BigInt (btcToSats (Utils.satoshiToBTC (JS.Number_of_Z 12))) = Some m /\
    (m = 12 \/ m = 12 - 1).
Proof. apply (proj1 X3_satoshi_roundtrip_loses_at_most_one 12). lia. Defined.

(** ** The shape of the taproot transaction *)

Section TaprootShape.

Variable lib : P2TR.Lib.
Variable api : Mempool.
Variable config : Config.
Variable addresses : list string.
Variable answer : string.

(** Step 3, when it succeeds, has asked for the transaction of every selected
    UTXO, in order, and appended one unsigned input per UTXO. *)
Lemma addInputs_shape pubkey expected selected :
  forall p t p',
    P2TR.addInputs lib api pubkey expected selected p = (t, inr p') ->
    t = map (fun u => FetchTx (txid u)) selected /\
    P2TR.inputs p'
    = P2TR.inputs p
      ++ map (fun u =>
                {| P2TR.hash := txid u;
                   P2TR.index := vout u;
                   P2TR.witnessUtxo_script := JS.Buffer_hex_roundtrip expected;
                   P2TR.witnessUtxo_value := value u;
                   P2TR.tapInternalKey := pubkey;
                   P2TR.tapKeySig := None |}) selected.
Proof.
  induction selected as [| u rest IH]; intros p t p' H.
  - cbn in H. inversion H; subst. now rewrite app_nil_r.
  - cbn [P2TR.addInputs] in H. run_inv H as x Hemit H.
    apply emit_inr in Hemit. run_inv H as details Hd H.
    apply orFail_inr in Hd as [_ ->].
    destruct (match nth_error details (vout u) with
              | Some o => scriptpubkey o
              | None => None
              end) as [s |]; [| discriminate].
    destruct (s =? "")%string; [discriminate |].
    destruct (negb (JS.Buffer_hex_roundtrip s =? expected)%string) eqn:Hm;
      [discriminate |].
    apply negb_false_iff, String.eqb_eq in Hm.
    destruct (P2TR.addInput_accepts _ _ _); [| discriminate].
    apply IH in H as [Ht Hi]. cbn [P2TR.inputs] in Hi. subst.
    split; [reflexivity |]. rewrite Hi, <- app_assoc. reflexivity.
Qed.

Lemma signLoop_shape keyToUse pubkey selected indices :
  forall p t p',
    P2TR.signLoop lib keyToUse pubkey selected indices p = (t, inr p') ->
    t = map Signature indices /\
    P2TR.outputs p' = P2TR.outputs p /\
    map tr_unsigned (P2TR.inputs p') = map tr_unsigned (P2TR.inputs p).
Proof.
  induction indices as [| i rest IH]; intros p t p' H.
  - cbn in H. inversion H; subst. auto.
  - cbn [P2TR.signLoop] in H. run_inv H as p1 Hone H.
    apply signInput_inv in Hone as (call & hash & sig & _ & _ & _ & _ & -> & ->).
    apply IH in H as (Ht & Ho & Hi). subst.
    split; [reflexivity |]. split; [exact Ho |]. rewrite Hi.
    unfold P2TR.setTapKeySig. cbn [P2TR.inputs].
    apply (map_indexed_preserved tr_unsigned
             (fun j input => if Nat.eqb j i then with_sig sig input else input)).
    intros j x. now destruct (Nat.eqb j i).
Qed.

Lemma finish_inv b p t s :
  P2TR.finish lib api answer b p = (t, inr s) ->
  P2TR.psbt s = p /\ P2TR.unsigned s = b /\
  P2TR.finalize_toHex lib p = Some (P2TR.txHex s) /\
  t = (if (answer =? "Y")%string then [Broadcast (P2TR.txHex s)] else []) /\
  P2TR.how s
  = (if (answer =? "Y")%string
     then match post_tx api (P2TR.txHex s) with
          | Some txId => P2TR.Sent txId
          | None => P2TR.BroadcastFailed
          end
     else P2TR.Cancelled).
Proof.
  unfold P2TR.finish. intros H. run_inv H as hex Hhex H.
  apply orFail_inr in Hhex as [Hhex ->].
  destruct (answer =? "Y")%string.
  - run_inv H as x Hemit H. apply emit_inr in Hemit as ->.
    destruct (post_tx api hex) eqn:Hpost; cbn in H; inversion H; subst; cbn;
      rewrite Hpost; auto.
  - cbn in H. inversion H; subst. cbn. auto.
Qed.

Lemma bind_trace_nil {F A B : Type} (c : Run.M F A) (k : A -> Run.M F B) :
  Run.trace c = [] -> (forall a, Run.trace (k a) = []) ->
  Run.trace (Run.bind c k) = [].
Proof.
  intros Hc Hk. unfold Run.bind. destruct c as [t [f | a]]; [exact Hc |].
  specialize (Hk a). destruct (k a) as [t' r]. unfold Run.trace in *. cbn in *.
  now subst.
Qed.

Lemma addOutputs_trace amount recipients :
  forall p, Run.trace (P2TR.addOutputs lib amount recipients p) = [].
Proof.
  induction recipients as [| a rest IH]; intros p; [reflexivity |].
  cbn [P2TR.addOutputs]. apply bind_trace_nil; [apply addOutput_trace | apply IH].
Qed.

Lemma addChange_trace from totalInput total fee p :
  Run.trace (P2TR.addChange lib from totalInput total fee p) = [].
Proof.
  unfold P2TR.addChange. destruct (_ <? 0); [reflexivity |].
  destruct (546 <=? _); [| reflexivity].
  apply bind_trace_nil; [apply addOutput_trace | reflexivity].
Qed.

Lemma build_trace t b :
  P2TR.build lib api config addresses = (t, inr b) ->
  t = [FetchFees; FetchUtxos (P2TR.b_fromAddress b)]
      ++ map (fun u => FetchTx (txid u)) (P2TR.b_selectedUtxos b).
Proof.
  intros H.
  destruct (build_inv _ _ _ _ _ _ H)
    as (feeRate & utxos & amount & expected & p1 & p2 & tf & t1 & t2 & t3
        & Hrate & Hkeys & Hpay & Hutxos & Hne & Hamount & Htotal & Hsel & Hin
        & Hout & Hchange).
  assert (Htf : tf = [FetchFees]).
  { unfold P2TR.getFeeRate in Hrate.
    destruct (fees_recommended api); cbn in Hrate; now inversion Hrate. }
  pose proof (addInputs_shape _ _ _ _ _ _ Hin) as [Ht1 _].
  pose proof (addOutputs_trace amount addresses p1) as Ht2.
  rewrite Hout in Ht2. cbn in Ht2.
  pose proof (addChange_trace (P2TR.b_fromAddress b) (P2TR.b_totalInput b)
                (P2TR.b_totalAmountToSend b) (P2TR.b_finalFee b) p2) as Ht3.
  rewrite Hchange in Ht3. cbn in Ht3.
  unfold P2TR.build in H. rewrite Hrate in H.
  unfold Run.bind at 1 in H. rewrite Hkeys in H. cbn [Run.orFail] in H.
  rewrite bind_ret in H. rewrite Hpay in H. cbn [Run.orFail] in H.
  rewrite bind_ret in H. unfold Run.emit in H. unfold Run.bind at 1 in H.
  rewrite Hutxos in H. cbn [Run.orFail] in H. rewrite bind_ret in H.
  destruct utxos as [| u0 us]; [contradiction |]. cbn [List.length Nat.eqb] in H.
  rewrite Hamount in H. cbn [Run.orFail] in H. rewrite bind_ret in H.
  rewrite <- Htotal in H. rewrite Hsel in H. unfold Run.bind at 1 in H.
  rewrite Hin in H. unfold Run.bind at 1 in H.
  rewrite Hout in H. unfold Run.bind at 1 in H.
  rewrite Hchange in H. unfold Run.bind at 1 in H. cbn [Run.ret] in H.
  inversion H. subst. cbn. now rewrite !app_nil_r.
Qed.

End TaprootShape.

Lemma broadcasts_app t1 t2 : broadcasts (t1 ++ t2) = broadcasts t1 ++ broadcasts t2.
Proof. apply flat_map_app. Qed.

Lemma signed_inputs_app t1 t2 :
  signed_inputs (t1 ++ t2) = signed_inputs t1 ++ signed_inputs t2.
Proof. apply flat_map_app. Qed.

Lemma fetched_txs_app t1 t2 :
  fetched_txs (t1 ++ t2) = fetched_txs t1 ++ fetched_txs t2.
Proof. apply flat_map_app. Qed.

Lemma nothing_signed_projections t :
  Run.nothing_signed t = true -> broadcasts t = [] /\ signed_inputs t = [].
Proof.
  induction t as [| e t IH]; [auto |].
  cbn [Run.nothing_signed forallb]. intros H.
  apply andb_true_iff in H as [He Ht]. destruct (IH Ht) as [Hb Hs].
  destruct e; cbn in He; try discriminate; cbn; auto.
Qed.

Lemma signatures_projections indices :
  broadcasts (map Signature indices) = [] /\
  signed_inputs (map Signature indices) = indices /\
  fetched_txs (map Signature indices) = [].
Proof.
  unfold broadcasts, signed_inputs, fetched_txs.
  induction indices as [| i rest (Hb & Hs & Hf)]; [auto |].
  cbn. rewrite Hs. auto.
Qed.

Lemma fetches_projections (us : list utxo) :
  broadcasts (map (fun u => FetchTx (txid u)) us) = [] /\
  signed_inputs (map (fun u => FetchTx (txid u)) us) = [] /\
  fetched_txs (map (fun u => FetchTx (txid u)) us) = map txid us.
Proof.
  unfold broadcasts, signed_inputs, fetched_txs.
  induction us as [| u rest (Hb & Hs & Hf)]; [auto |].
  cbn. rewrite Hf. auto.
Qed.

Section TaprootRuns.

Variable lib : P2TR.Lib.
Variable api : Mempool.
Variable config : Config.
Variable addresses : list string.
Variable answer : string.

(** Whatever its outcome, the body of the signing loop signs at most its own
    input and broadcasts nothing. *)
Lemma signInput_trace keyToUse pubkey selected i p :
  Run.trace (P2TR.signInput lib keyToUse pubkey selected i p) = [] \/
  Run.trace (P2TR.signInput lib keyToUse pubkey selected i p) = [Signature i].
Proof.
  unfold P2TR.signInput.
  destruct (P2TR.sighashCall p selected i) as [call |]; [| now left].
  cbn [Run.orFail]. rewrite bind_ret.
  destruct (P2TR.hashForWitnessV1 lib call) as [hash |]; [| now left].
  cbn [Run.orFail]. rewrite bind_ret.
  destruct (P2TR.schnorr_sign lib hash keyToUse) as [sig |]; [| now left].
  cbn [Run.orFail]. rewrite bind_ret. right.
  unfold Run.emit. unfold Run.bind at 1.
  destruct (P2TR.schnorr_verify lib sig hash pubkey) as [ok |]; [| reflexivity].
  cbn [Run.orFail]. rewrite bind_ret.
  destruct (negb ok); reflexivity.
Qed.

(** Whatever its outcome, the signing loop over inputs [a], [a + 1], ... has
    signed an initial stretch of them, in order, and broadcast nothing. *)
Lemma signLoop_prefix keyToUse pubkey selected n :
  forall a p,
    exists m,
      (m <= n)%nat /\
      signed_inputs
        (Run.trace (P2TR.signLoop lib keyToUse pubkey selected (seq a n) p))
      = seq a m /\
      broadcasts
        (Run.trace (P2TR.signLoop lib keyToUse pubkey selected (seq a n) p)) = [].
Proof.
  induction n as [| n IH]; intros a p.
  - exists 0%nat. cbn. auto.
  - cbn [seq P2TR.signLoop].
    pose proof (signInput_trace keyToUse pubkey selected a p) as Hone.
    destruct (P2TR.signInput lib keyToUse pubkey selected a p) as [t1 [f | p1]] eqn:E.
    + cbn [Run.bind Run.trace fst] in *. unfold Run.bind. cbn [Run.trace fst].
      destruct Hone as [-> | ->].
      * exists 0%nat. split; [lia | auto].
      * exists 1%nat. split; [lia | auto].
    + apply signInput_inv in E as (_ & _ & _ & _ & _ & _ & _ & _ & ->).
      destruct (IH (S a) p1) as (m & Hm & Hs & Hb).
      unfold Run.bind.
      destruct (P2TR.signLoop lib keyToUse pubkey selected (seq (S a) n) p1)
        as [t2 r]. cbn [Run.trace fst] in *.
      exists (S m). split; [lia |].
      rewrite signed_inputs_app, broadcasts_app, Hs, Hb. auto.
Qed.

End TaprootRuns.

(** X4.  The outputs of every transaction the taproot script builds are one
    output per recipient, in the order of the address list, each paying the
    trimmed address the fixed amount, followed by one output paying the
    change to the funding address exactly when the change is at least 546
    satoshis. *)
Theorem X4_taproot_outputs :
  forall lib api config addresses t b,
    P2TR.build lib api config addresses = (t, inr b) ->
    exists amount,
      JS.BigInt (P2TR.amountInSats lib config) = Some amount /\
      P2TR.b_totalAmountToSend b = amount * Z.of_nat (List.length addresses) /\
      P2TR.outputs (P2TR.b_psbt b)
      = map (fun a => {| P2TR.address := trim a; P2TR.out_value := amount |}) addresses
        ++ (if 546 <=? P2TR.b_changeValue b
            then [ {| P2TR.address := P2TR.b_fromAddress b;
                      P2TR.out_value := P2TR.b_changeValue b |} ]
            else []) /\
      (In {| P2TR.address := P2TR.b_fromAddress b;
             P2TR.out_value := P2TR.b_changeValue b |}
          (skipn (List.length addresses) (P2TR.outputs (P2TR.b_psbt b)))
       <-> 546 <= P2TR.b_changeValue b).
Proof.
  intros lib api config addresses t b H.
  destruct (build_inv _ _ _ _ _ _ H)
    as (feeRate & utxos & amount & expected & p1 & p2 & tf & t1 & t2 & t3
        & _ & _ & _ & _ & _ & Hamount & Htotal & _ & Hin & Hout & Hchange).
  apply addInputs_inv in Hin as [Ho1 _]. cbn in Ho1.
  apply addOutputs_inv in Hout as [_ Ho2].
  apply addChange_inv in Hchange as (_ & _ & _ & Ho3).
  rewrite Ho2, Ho1 in Ho3. cbn [app] in Ho3.
  exists amount. split; [exact Hamount |]. split; [exact Htotal |].
  split; [exact Ho3 |].
  rewrite Ho3.
  rewrite <- (length_map
                (fun a => {| P2TR.address := trim a; P2TR.out_value := amount |})
                addresses) at 1.
  rewrite skipn_app, skipn_all, Nat.sub_diag. cbn [app skipn].
  destruct (546 <=? P2TR.b_changeValue b) eqn:Hc.
  - apply Z.leb_le in Hc. split; [intros _; exact Hc | intros _; now left].
  - apply Z.leb_gt in Hc. split; [intros [] | lia].
Qed.

(** X4 on the three-UTXO scenario, which returns 79015 satoshis, with the
    recipients read from a file that has a byte order mark, a no-break space
    and carriage returns. *)
Lemma X4_taproot_outputs_witness :
  exists t b,
    P2TR.build (Demo.lib 4) (Demo.api Demo.three "5120ab" "none" None Demo.rate5)
      (Demo.config JS.undefined JS.undefined) Demo.fileRecipients = (t, inr b) /\
    P2TR.outputs (P2TR.b_psbt b)
    = [ {| P2TR.address := "bc1qalice"; P2TR.out_value := 10000 |};
        {| P2TR.address := "bc1qbob"; P2TR.out_value := 10000 |};
        {| P2TR.address := "bc1pfunding"; P2TR.out_value := 79015 |} ].
Proof.
  assert (E : exists t b,
             P2TR.build (Demo.lib 4)
               (Demo.api Demo.three "5120ab" "none" None Demo.rate5)
               (Demo.config JS.undefined JS.undefined) Demo.fileRecipients
             = (t, inr b) /\ P2TR.b_changeValue b = 79015
             /\ P2TR.b_fromAddress b = "bc1pfunding")
    by (do 2 eexists; vm_compute; repeat split).
  destruct E as (t & b & E & Hc & Hf). exists t, b. split; [exact E |].
  destruct (X4_taproot_outputs _ _ _ _ _ _ E) as (amount & Hamount & _ & Hout & _).
  vm_compute in Hamount. inversion Hamount; subst amount.
  rewrite Hout, Hc, Hf. reflexivity.
Defined.

(** X5.  The inputs of every transaction the taproot script builds are one
    input per selected UTXO, in the order of selection, each bound to the
    UTXO's transaction id, output index and value, to the funding script and
    to the x-only public key, and none of them signed yet. *)
Theorem X5_taproot_inputs :
  forall lib api config addresses t b,
    P2TR.build lib api config addresses = (t, inr b) ->
    exists funding,
      P2TR.p2tr lib (P2TR.b_pubkey b) (network config)
      = Some (P2TR.b_fromAddress b, funding) /\
      P2TR.b_selectedUtxos b <> [] /\
      P2TR.inputs (P2TR.b_psbt b)
      = map (fun u =>
               {| P2TR.hash := txid u;
                  P2TR.index := vout u;
                  P2TR.witnessUtxo_script := funding;
                  P2TR.witnessUtxo_value := value u;
                  P2TR.tapInternalKey := P2TR.b_pubkey b;
                  P2TR.tapKeySig := None |}) (P2TR.b_selectedUtxos b).
Proof.
  intros lib api config addresses t b H.
  destruct (build_inv _ _ _ _ _ _ H)
    as (feeRate & utxos & amount & funding & p1 & p2 & tf & t1 & t2 & t3
        & _ & _ & Hpay & _ & Hne & _ & _ & Hsel & Hin & Hout & Hchange).
  exists funding. split; [exact Hpay |].
  destruct (selectUtxos_greedy _ _ _ _ _ _ _ _ _ Hsel Hne)
    as (k & Hk & Hpre & _).
  assert (Hsome : P2TR.b_selectedUtxos b <> []).
  { rewrite Hpre. destruct utxos as [| u0 us]; [contradiction |].
    destruct k as [| k]; [lia | discriminate]. }
  split; [exact Hsome |].
  pose proof (addInputs_inv _ _ _ _ _ _ _ _ Hin) as (_ & _ & _ & _ & _ & _ & Hall).
  assert (Hnorm : JS.Buffer_hex_roundtrip funding = funding).
  { destruct (P2TR.b_selectedUtxos b) as [| u0 us]; [contradiction |].
    apply Forall_inv in Hall as (s & _ & Hs).
    rewrite <- Hs. apply hex_roundtrip_idempotent. }
  apply addInputs_shape in Hin as [_ Hi]. cbn [P2TR.inputs app] in Hi.
  apply addOutputs_inv in Hout as [Hi2 _].
  apply addChange_inv in Hchange as (_ & _ & Hi3 & _).
  rewrite Hi3, Hi2, Hi, Hnorm. reflexivity.
Qed.

(** X5 on a wallet whose first UTXO is too small: two inputs. *)
Lemma X5_taproot_inputs_witness :
  exists t b,
    P2TR.build (Demo.lib 4) (Demo.api Demo.two "5120AB" "none" None Demo.rate5)
      (Demo.config JS.undefined JS.undefined) Demo.recipients = (t, inr b) /\
    map P2TR.hash (P2TR.inputs (P2TR.b_psbt b)) = ["a"; "b"] /\
    map P2TR.witnessUtxo_script (P2TR.inputs (P2TR.b_psbt b)) = ["5120ab"; "5120ab"].
Proof.
  assert (E : exists t b,
             P2TR.build (Demo.lib 4)
               (Demo.api Demo.two "5120AB" "none" None Demo.rate5)
               (Demo.config JS.undefined JS.undefined) Demo.recipients
             = (t, inr b) /\ P2TR.b_selectedUtxos b = [Demo.u "a" 15000; Demo.u "b" 10000])
    by (do 2 eexists; vm_compute; split; reflexivity).
  destruct E as (t & b & E & Hsel). exists t, b. split; [exact E |].
  destruct (X5_taproot_inputs _ _ _ _ _ _ E) as (funding & Hpay & _ & Hin).
  cbn in Hpay. inversion Hpay; subst funding.
  rewrite Hin, Hsel. split; reflexivity.
Defined.

(** X6.  What a transaction of the taproot script pays in fee (its inputs
    minus its outputs) is at least the computed fee and exceeds it by less
    than 546 satoshis; it is the computed fee exactly when there is a change
    output or the change is zero. *)
Theorem X6_taproot_fee_paid :
  forall lib api config addresses t b,
    P2TR.build lib api config addresses = (t, inr b) ->
    let paid :=
      sum_values (P2TR.b_selectedUtxos b)
      - sum_out_values (P2TR.outputs (P2TR.b_psbt b)) in
    P2TR.b_totalInput b = sum_values (P2TR.b_selectedUtxos b) /\
    P2TR.b_finalFee b <= paid < P2TR.b_finalFee b + 546 /\
    (paid = P2TR.b_finalFee b <->
     546 <= P2TR.b_changeValue b \/ P2TR.b_changeValue b = 0).
Proof.
  intros lib api config addresses t b H paid.
  destruct (build_inv _ _ _ _ _ _ H)
    as (feeRate & utxos & amount & expected & p1 & p2 & tf & t1 & t2 & t3
        & _ & _ & _ & _ & Hne & _ & Htotal & Hsel & Hin & Hout & Hchange).
  destruct (selectUtxos_greedy _ _ _ _ _ _ _ _ _ Hsel Hne)
    as (k & _ & _ & Htot & _).
  apply addInputs_inv in Hin as [Ho1 _]. cbn in Ho1.
  apply addOutputs_inv in Hout as [_ Ho2].
  apply addChange_inv in Hchange as (Hc & Hpos & _ & Ho3).
  rewrite Ho2, Ho1 in Ho3. cbn [app] in Ho3.
  assert (Hsum : sum_out_values (P2TR.outputs (P2TR.b_psbt b))
                 = P2TR.b_totalAmountToSend b
                   + (if 546 <=? P2TR.b_changeValue b
                      then P2TR.b_changeValue b else 0)).
  { rewrite Ho3. unfold sum_out_values. rewrite fold_right_app.
    destruct (546 <=? P2TR.b_changeValue b); cbn [fold_right P2TR.out_value].
    - assert (G : forall (l : list string) z,
                 fold_right (fun o acc => P2TR.out_value o + acc) z
                   (map (fun a => {| P2TR.address := trim a;
                                     P2TR.out_value := amount |}) l)
                 = amount * Z.of_nat (List.length l) + z).
      { induction l as [| a l IH]; intros z; [cbn; lia |].
        cbn [map fold_right List.length P2TR.out_value]. rewrite IH. lia. }
      rewrite G. lia.
    - fold (sum_out_values
              (map (fun a => {| P2TR.address := trim a; P2TR.out_value := amount |})
                 addresses)).
      rewrite sum_out_values_recipients. lia. }
  subst paid. rewrite Hsum, <- Htot.
  split; [reflexivity |].
  destruct (546 <=? P2TR.b_changeValue b) eqn:Hd;
    [apply Z.leb_le in Hd | apply Z.leb_gt in Hd]; lia.
Qed.

(** X6 on a single UTXO of 21085 satoshis: the computed fee is 985, the fee
    paid 1085. *)
Lemma X6_taproot_fee_paid_witness :
  exists t b,
    P2TR.build (Demo.lib 4) (Demo.api [Demo.u "a" 21085] "5120ab" "none" None Demo.rate5)
      (Demo.config JS.undefined JS.undefined) Demo.recipients = (t, inr b) /\
    P2TR.b_finalFee b
    <= sum_values (P2TR.b_selectedUtxos b)
       - sum_out_values (P2TR.outputs (P2TR.b_psbt b))
    < P2TR.b_finalFee b + 546.
Proof.
  assert (E : exists t b,
             P2TR.build (Demo.lib 4)
               (Demo.api [Demo.u "a" 21085] "5120ab" "none" None Demo.rate5)
               (Demo.config JS.undefined JS.undefined) Demo.recipients
             = (t, inr b))
    by (do 2 eexists; vm_compute; reflexivity).
  destruct E as (t & b & E). exists t, b. split; [exact E |].
  exact (proj1 (proj2 (X6_taproot_fee_paid _ _ _ _ _ _ E))).
Defined.

(** ** What a taproot run does, in order *)

Lemma batchSend_inv lib api config addresses answer t s :
  P2TR.batchSend lib api config addresses answer = (t, inr s) ->
  exists tb ts tf,
    P2TR.build lib api config addresses = (tb, inr (P2TR.unsigned s)) /\
    P2TR.signInputs lib (P2TR.b_privateKeyBytes (P2TR.unsigned s))
      (P2TR.b_pubkey (P2TR.unsigned s)) (P2TR.b_selectedUtxos (P2TR.unsigned s))
      (P2TR.b_psbt (P2TR.unsigned s)) = (ts, inr (P2TR.psbt s)) /\
    P2TR.finish lib api answer (P2TR.unsigned s) (P2TR.psbt s) = (tf, inr s) /\
    t = tb ++ ts ++ tf.
Proof.
  unfold P2TR.batchSend. intros H.
  apply bind_inr in H as (tb & b & t' & Hb & H & ->).
  apply bind_inr in H as (ts & p & tf & Hp & H & ->).
  pose proof (finish_inv _ _ _ _ _ _ _ H) as (Hpsbt & Hun & _).
  subst b p. exists tb, ts, tf. auto.
Qed.

(** X7.  Signing changes nothing but the signatures: the finished transaction
    has the outputs of the unsigned one and, signatures aside, its inputs;
    and it has as many inputs as UTXOs were selected. *)
Theorem X7_signing_keeps_the_transaction :
  forall lib api config addresses answer t s,
    P2TR.batchSend lib api config addresses answer = (t, inr s) ->
    P2TR.outputs (P2TR.psbt s) = P2TR.outputs (P2TR.b_psbt (P2TR.unsigned s)) /\
    map tr_unsigned (P2TR.inputs (P2TR.psbt s))
    = map tr_unsigned (P2TR.inputs (P2TR.b_psbt (P2TR.unsigned s))) /\
    List.length (P2TR.inputs (P2TR.psbt s))
    = List.length (P2TR.b_selectedUtxos (P2TR.unsigned s)) /\
    Forall (fun i => P2TR.tapKeySig i <> None) (P2TR.inputs (P2TR.psbt s)).
Proof.
  intros lib api config addresses answer t s H.
  destruct (batchSend_signatures_verified _ _ _ _ _ _ _ H) as (used & _ & Hver).
  destruct (batchSend_inv _ _ _ _ _ _ _ H) as (tb & ts & tf & Hb & Hs & _ & _).
  apply signInputs_inr in Hs as (keyToUse & Hkey & Hs).
  apply signLoop_shape in Hs as (_ & Ho & Hi).
  split; [exact Ho |]. split; [exact Hi |]. split.
  - apply (f_equal (@List.length _)) in Hi. rewrite !length_map in Hi.
    rewrite Hi.
    destruct (build_inv _ _ _ _ _ _ Hb)
      as (feeRate & utxos & amount & expected & p1 & p2 & tf' & t1 & t2 & t3
          & _ & _ & _ & _ & _ & _ & _ & _ & Hin & Hout & Hchange).
    apply addInputs_shape in Hin as [_ Hin]. cbn [P2TR.inputs app] in Hin.
    apply addOutputs_inv in Hout as [Hi2 _].
    apply addChange_inv in Hchange as (_ & _ & Hi3 & _).
    rewrite Hi3, Hi2, Hin, length_map. reflexivity.
  - eapply Forall_impl; [| exact Hver].
    intros i (hash & sig & Hsig & _). rewrite Hsig. discriminate.
Qed.

(** X7 on the run of two inputs. *)
Lemma X7_signing_keeps_the_transaction_witness :
  exists t s,
    P2TR.batchSend (Demo.lib 4) (Demo.api Demo.two "5120AB" "none" None Demo.rate5)
      (Demo.config JS.undefined JS.undefined) Demo.recipients "Y" = (t, inr s) /\
    P2TR.outputs (P2TR.psbt s) = P2TR.outputs (P2TR.b_psbt (P2TR.unsigned s)) /\
    List.length (P2TR.inputs (P2TR.psbt s)) = 2%nat.
Proof.
  assert (E : exists t s,
             P2TR.batchSend (Demo.lib 4)
               (Demo.api Demo.two "5120AB" "none" None Demo.rate5)
               (Demo.config JS.undefined JS.undefined) Demo.recipients "Y"
             = (t, inr s)
             /\ List.length (P2TR.b_selectedUtxos (P2TR.unsigned s)) = 2%nat)
    by (do 2 eexists; vm_compute; split; reflexivity).
  destruct E as (t & s & E & Hlen). exists t, s. split; [exact E |].
  destruct (X7_signing_keeps_the_transaction _ _ _ _ _ _ _ E) as (Ho & _ & Hl & _).
  split; [exact Ho | now rewrite Hl].
Defined.

(** X8.  The outside calls of a run of the taproot script that reaches its
    end are, in this order: the request for the recommended fees, the request
    for the UTXOs of the funding address, one request for the transaction of
    each selected UTXO (and of no other), one signature per input in
    ascending order, and, when the operator answered Y, one broadcast of the
    finished transaction. *)
Theorem X8_taproot_trace :
  forall lib api config addresses answer t s,
    P2TR.batchSend lib api config addresses answer = (t, inr s) ->
    let b := P2TR.unsigned s in
    t = [FetchFees; FetchUtxos (P2TR.b_fromAddress b)]
        ++ map (fun u => FetchTx (txid u)) (P2TR.b_selectedUtxos b)
        ++ map Signature (seq 0 (List.length (P2TR.b_selectedUtxos b)))
        ++ (if (answer =? "Y")%string then [Broadcast (P2TR.txHex s)] else []).
Proof.
  intros lib api config addresses answer t s H b.
  destruct (batchSend_inv _ _ _ _ _ _ _ H) as (tb & ts & tf & Hb & Hs & Hf & ->).
  fold b in Hb, Hs, Hf.
  apply finish_inv in Hf as (_ & _ & _ & -> & _).
  rewrite (build_trace _ _ _ _ _ _ Hb).
  apply signInputs_inr in Hs as (keyToUse & Hkey & Hs).
  pose proof (signLoop_shape _ _ _ _ _ _ _ _ Hs) as (-> & _ & Hi).
  apply (f_equal (@List.length _)) in Hi. rewrite !length_map in Hi.
  assert (Hlen : List.length (P2TR.inputs (P2TR.b_psbt b))
                 = List.length (P2TR.b_selectedUtxos b)).
  { destruct (build_inv _ _ _ _ _ _ Hb)
      as (feeRate & utxos & amount & expected & p1 & p2 & tf' & t1 & t2 & t3
          & _ & _ & _ & _ & _ & _ & _ & _ & Hin & Hout & Hchange).
    apply addInputs_shape in Hin as [_ Hin]. cbn [P2TR.inputs app] in Hin.
    apply addOutputs_inv in Hout as [Hi2 _].
    apply addChange_inv in Hchange as (_ & _ & Hi3 & _).
    rewrite Hi3, Hi2, Hin, length_map. reflexivity. }
  rewrite Hlen, <- app_assoc. reflexivity.
Qed.

(** X8 on the run of two inputs, confirmed by the operator. *)
Lemma X8_taproot_trace_witness :
  exists s,
    P2TR.batchSend (Demo.lib 4) (Demo.api Demo.two "5120AB" "none" None Demo.rate5)
      (Demo.config JS.undefined JS.undefined) Demo.recipients "Y"
    = ([FetchFees; FetchUtxos "bc1pfunding"; FetchTx "a"; FetchTx "b";
        Signature 0; Signature 1; Broadcast "020000000001"], inr s).
Proof.
  assert (E : exists t s,
             P2TR.batchSend (Demo.lib 4)
               (Demo.api Demo.two "5120AB" "none" None Demo.rate5)
               (Demo.config JS.undefined JS.undefined) Demo.recipients "Y"
             = (t, inr s)
             /\ P2TR.b_selectedUtxos (P2TR.unsigned s)
                = [Demo.u "a" 15000; Demo.u "b" 10000]
             /\ P2TR.b_fromAddress (P2TR.unsigned s) = "bc1pfunding"
             /\ P2TR.txHex s = "020000000001")
    by (do 2 eexists; vm_compute; repeat split).
  destruct E as (t & s & E & Hsel & Hfrom & Hhex). exists s.
  pose proof (X8_taproot_trace _ _ _ _ _ _ _ E) as Ht. cbn zeta in Ht.
  rewrite Hsel, Hfrom, Hhex in Ht. cbn in Ht. rewrite <- Ht. exact E.
Defined.

Section TaprootAllRuns.

Variable lib : P2TR.Lib.
Variable api : Mempool.
Variable config : Config.
Variable addresses : list string.
Variable answer : string.

(** Steps 7 and 8 sign nothing, and broadcast the finished transaction, once,
    only when they succeed and the operator answered Y. *)
Lemma finish_projections b p :
  signed_inputs (Run.trace (P2TR.finish lib api answer b p)) = [] /\
  broadcasts (Run.trace (P2TR.finish lib api answer b p))
  = match Run.outcome (P2TR.finish lib api answer b p) with
    | inr s => if (answer =? "Y")%string then [P2TR.txHex s] else []
    | inl _ => []
    end.
Proof.
  unfold P2TR.finish.
  destruct (P2TR.finalize_toHex lib p) as [hex |]; [| split; reflexivity].
  cbn [Run.orFail]. rewrite bind_ret.
  destruct (answer =? "Y")%string; [| split; reflexivity].
  destruct (post_tx api hex); split; reflexivity.
Qed.

(** The part of a run after a successful build. *)
Lemma after_build b :
  let rest :=
    Run.bind (P2TR.signInputs lib (P2TR.b_privateKeyBytes b) (P2TR.b_pubkey b)
                (P2TR.b_selectedUtxos b) (P2TR.b_psbt b))
      (fun p => P2TR.finish lib api answer b p) in
  exists m,
    (m <= List.length (P2TR.inputs (P2TR.b_psbt b)))%nat /\
    signed_inputs (Run.trace rest) = seq 0 m /\
    broadcasts (Run.trace rest)
    = match Run.outcome rest with
      | inr s => if (answer =? "Y")%string then [P2TR.txHex s] else []
      | inl _ => []
      end /\
    (forall s, Run.outcome rest = inr s ->
               m = List.length (P2TR.inputs (P2TR.b_psbt b))).
Proof.
  intros rest. subst rest. rewrite signInputs_unfold.
  destruct (P2TR.privateKeyToUse lib (P2TR.b_privateKeyBytes b)) as [keyToUse |].
  2: { exists 0%nat. cbn. repeat split; [lia | discriminate]. }
  destruct (signLoop_prefix lib keyToUse
              (P2TR.b_pubkey b) (P2TR.b_selectedUtxos b)
              (List.length (P2TR.inputs (P2TR.b_psbt b))) 0 (P2TR.b_psbt b))
    as (m & Hm & Hs & Hb).
  destruct (P2TR.signLoop lib _ _ _ _ _) as [ts [f | p]] eqn:E.
  - exists m. cbn [Run.bind Run.trace Run.outcome fst snd] in *.
    repeat split; auto. intros s Hs'. discriminate.
  - pose proof (signLoop_shape _ _ _ _ _ _ _ _ E) as (Hts & _ & _).
    destruct (finish_projections b p) as [Hfs Hfb].
    unfold Run.bind.
    destruct (P2TR.finish lib api answer b p) as [tf r].
    cbn [Run.trace Run.outcome fst snd] in *.
    exists (List.length (P2TR.inputs (P2TR.b_psbt b))).
    rewrite signed_inputs_app, broadcasts_app, Hfs, Hfb, app_nil_r, Hts.
    destruct (signatures_projections (seq 0 (List.length (P2TR.inputs (P2TR.b_psbt b)))))
      as (Hb0 & Hs0 & _).
    rewrite Hb0, Hs0. repeat split; auto.
Qed.

Lemma batchSend_after_build tb b :
  P2TR.build lib api config addresses = (tb, inr b) ->
  let rest :=
    Run.bind (P2TR.signInputs lib (P2TR.b_privateKeyBytes b) (P2TR.b_pubkey b)
                (P2TR.b_selectedUtxos b) (P2TR.b_psbt b))
      (fun p => P2TR.finish lib api answer b p) in
  P2TR.batchSend lib api config addresses answer
  = (tb ++ Run.trace rest, Run.outcome rest).
Proof.
  intros H rest. unfold P2TR.batchSend.
  rewrite (bind_ok _ _ _ _ H). reflexivity.
Qed.

Lemma build_inputs_length tb b :
  P2TR.build lib api config addresses = (tb, inr b) ->
  List.length (P2TR.inputs (P2TR.b_psbt b)) = List.length (P2TR.b_selectedUtxos b).
Proof.
  intros Hb.
  destruct (build_inv _ _ _ _ _ _ Hb)
    as (feeRate & utxos & amount & expected & p1 & p2 & tf' & t1 & t2 & t3
        & _ & _ & _ & _ & _ & _ & _ & _ & Hin & Hout & Hchange).
  apply addInputs_shape in Hin as [_ Hin]. cbn [P2TR.inputs app] in Hin.
  apply addOutputs_inv in Hout as [Hi2 _].
  apply addChange_inv in Hchange as (_ & _ & Hi3 & _).
  rewrite Hi3, Hi2, Hin, length_map. reflexivity.
Qed.

End TaprootAllRuns.

(** X9.  The prompt resolves to the typed line, trimmed and in upper case,
    and the script broadcasts when that is Y.  Upper-casing gives Y for the
    lines y and Y alone (the contract of the runtime taken here), so,
    whatever happens in a run of the taproot script, it broadcasts at most
    once, only the finished transaction of a run that reached its end, and
    only when the operator typed y or Y, white space around it aside; a run
    that fails, and a run the operator answered anything else to, broadcasts
    nothing. *)
Theorem X9_taproot_broadcast_needs_confirmation :
  forall lib api config addresses typed,
    (forall s, P2TR.toUpperCase lib s = "Y"%string <->
               s = "y"%string \/ s = "Y"%string) ->
    let run :=
      P2TR.batchSend lib api config addresses (P2TR.confirmBroadcast lib typed) in
    let confirmed := ((trim typed =? "y") || (trim typed =? "Y"))%string in
    broadcasts (Run.trace run)
    = match Run.outcome run with
      | inr s => if confirmed then [P2TR.txHex s] else []
      | inl _ => []
      end /\
    (confirmed = false -> broadcasts (Run.trace run) = []).
Proof.
  intros lib api config addresses typed Hupper run confirmed.
  assert (Hanswer : (P2TR.confirmBroadcast lib typed =? "Y")%string = confirmed).
  { subst confirmed. unfold P2TR.confirmBroadcast.
    destruct (P2TR.toUpperCase lib (trim typed) =? "Y")%string eqn:E.
    - apply String.eqb_eq, Hupper in E. symmetry. apply orb_true_iff.
      destruct E as [E | E]; [left | right]; now apply String.eqb_eq.
    - symmetry. apply orb_false_iff.
      split; apply String.eqb_neq; intros Ht;
        apply String.eqb_neq in E; apply E, Hupper; auto. }
  assert (Hmain : broadcasts (Run.trace run)
                  = match Run.outcome run with
                    | inr s => if confirmed then [P2TR.txHex s] else []
                    | inl _ => []
                    end).
  { subst run. rewrite <- Hanswer.
    pose proof (build_nothing_signed lib api config addresses) as Hb.
    destruct (P2TR.build lib api config addresses) as [tb [f | b]] eqn:E.
    - unfold P2TR.batchSend. rewrite E. cbn [Run.bind Run.trace Run.outcome fst snd].
      apply nothing_signed_projections in Hb. apply Hb.
    - rewrite (batchSend_after_build _ _ _ _ (P2TR.confirmBroadcast lib typed) _ _ E).
      cbn [Run.trace Run.outcome fst snd] in *.
      apply nothing_signed_projections in Hb as [Hb _].
      destruct (after_build lib api (P2TR.confirmBroadcast lib typed) b)
        as (m & _ & _ & Hbr & _).
      rewrite broadcasts_app, Hb. exact Hbr. }
  split; [exact Hmain |].
  intros Hno. rewrite Hmain, Hno. now destruct (Run.outcome run).
Qed.

(** Upper-casing the letters a to z gives Y for y and Y alone. *)
Lemma Demo_toUpperCase_Y s :
  Demo.toUpperCase s = "Y"%string <-> s = "y"%string \/ s = "Y"%string.
Proof.
  split.
  - destruct s as [| c [| c' r]]; [discriminate | | discriminate].
    destruct c as [[] [] [] [] [] [] [] []]; cbn; intros H;
      try discriminate; auto.
  - intros [-> | ->]; reflexivity.
Qed.

(** X9 on a run the operator answers with a lower-case y between blanks,
    which is broadcast, and on one answered with yes, which is not. *)
Lemma X9_taproot_broadcast_witness :
  broadcasts
    (Run.trace
       (P2TR.batchSend (Demo.lib 4) (Demo.api Demo.two "5120AB" "none" None Demo.rate5)
          (Demo.config JS.undefined JS.undefined) Demo.recipients
          (P2TR.confirmBroadcast (Demo.lib 4) " y "))) = ["020000000001"%string] /\
  broadcasts
    (Run.trace
       (P2TR.batchSend (Demo.lib 4) (Demo.api Demo.two "5120AB" "none" None Demo.rate5)
          (Demo.config JS.undefined JS.undefined) Demo.recipients
          (P2TR.confirmBroadcast (Demo.lib 4) "yes"))) = [].
Proof.
  split.
  - rewrite (proj1 (X9_taproot_broadcast_needs_confirmation (Demo.lib 4)
                      (Demo.api Demo.two "5120AB" "none" None Demo.rate5)
                      (Demo.config JS.undefined JS.undefined) Demo.recipients " y "
                      Demo_toUpperCase_Y)).
    vm_compute. reflexivity.
  - apply (proj2 (X9_taproot_broadcast_needs_confirmation (Demo.lib 4)
                    (Demo.api Demo.two "5120AB" "none" None Demo.rate5)
                    (Demo.config JS.undefined JS.undefined) Demo.recipients "yes"
                    Demo_toUpperCase_Y)).
    vm_compute. reflexivity.
Defined.

(** X10.  Whatever happens in a run of the taproot script, the inputs it has
    signed are inputs 0, 1, ..., m - 1, each once and in this order; nothing
    is signed unless steps 1 to 5 built the whole transaction; [m] never
    exceeds the number of selected UTXOs and equals it when the run reaches
    its end. *)
Theorem X10_taproot_signs_in_order :
  forall lib api config addresses answer,
    let run := P2TR.batchSend lib api config addresses answer in
    exists m,
      signed_inputs (Run.trace run) = seq 0 m /\
      (m <> 0%nat ->
       exists tb b,
         P2TR.build lib api config addresses = (tb, inr b) /\
         (m <= List.length (P2TR.b_selectedUtxos b))%nat) /\
      (forall s, Run.outcome run = inr s ->
                 m = List.length (P2TR.b_selectedUtxos (P2TR.unsigned s))).
Proof.
  intros lib api config addresses answer run. subst run.
  pose proof (build_nothing_signed lib api config addresses) as Hb.
  destruct (P2TR.build lib api config addresses) as [tb [f | b]] eqn:E.
  - exists 0%nat. unfold P2TR.batchSend. rewrite E.
    cbn [Run.bind Run.trace Run.outcome fst snd] in *.
    apply nothing_signed_projections in Hb as [_ Hs].
    split; [exact Hs |]. split; [contradiction | discriminate].
  - pose proof (batchSend_after_build _ _ _ _ answer _ _ E) as Hrun.
    cbn zeta in Hrun. cbn [Run.trace fst] in Hb.
    apply nothing_signed_projections in Hb as [_ Hs].
    destruct (after_build lib api answer b) as (m & Hm & Hsig & _ & Hend).
    cbn zeta in Hsig, Hend.
    rewrite (build_inputs_length _ _ _ _ _ _ E) in Hm, Hend.
    exists m. rewrite Hrun. cbn [Run.trace Run.outcome fst snd].
    rewrite signed_inputs_app, Hs. split; [exact Hsig |]. split.
    + intros _. exists tb, b. auto.
    + intros s Hout. rewrite (Hend s Hout).
      assert (Hfull : P2TR.batchSend lib api config addresses answer
                      = (tb ++ Run.trace
                                 (Run.bind
                                    (P2TR.signInputs lib (P2TR.b_privateKeyBytes b)
                                       (P2TR.b_pubkey b) (P2TR.b_selectedUtxos b)
                                       (P2TR.b_psbt b))
                                    (fun p => P2TR.finish lib api answer b p)),
                         inr s)) by (rewrite Hrun, <- Hout; reflexivity).
      destruct (batchSend_inv _ _ _ _ _ _ _ Hfull) as (tb' & _ & _ & Hb' & _).
      rewrite E in Hb'. inversion Hb'. reflexivity.
Qed.

(** X10 on the run of two inputs. *)
Lemma X10_taproot_signs_in_order_witness :
  exists m,
    signed_inputs
      (Run.trace
         (P2TR.batchSend (Demo.lib 4)
            (Demo.api Demo.two "5120AB" "none" None Demo.rate5)
            (Demo.config JS.undefined JS.undefined) Demo.recipients "Y"))
    = seq 0 m /\ m = 2%nat.
Proof.
  destruct (X10_taproot_signs_in_order (Demo.lib 4)
              (Demo.api Demo.two "5120AB" "none" None Demo.rate5)
              (Demo.config JS.undefined JS.undefined) Demo.recipients "Y")
    as (m & Hsig & _ & Hend).
  exists m. split; [exact Hsig |].
  assert (E : exists s,
             Run.outcome
               (P2TR.batchSend (Demo.lib 4)
                  (Demo.api Demo.two "5120AB" "none" None Demo.rate5)
                  (Demo.config JS.undefined JS.undefined) Demo.recipients "Y")
             = inr s
             /\ List.length (P2TR.b_selectedUtxos (P2TR.unsigned s)) = 2%nat)
    by (eexists; vm_compute; split; reflexivity).
  destruct E as (s & E & Hlen). now rewrite (Hend s E).
Defined.

(** ** UTXOs behind the stopping point *)

Lemma selectLoop_ignores_the_rest lib addresses feeRate total utxos more :
  forall sel0 tot0 fee0 sel tot fee,
    utxos <> [] ->
    P2TR.selectLoop lib addresses feeRate total utxos sel0 tot0 fee0
    = Some (sel, tot, fee) ->
    total + fee <= tot ->
    P2TR.selectLoop lib addresses feeRate total (utxos ++ more) sel0 tot0 fee0
    = Some (sel, tot, fee).
Proof.
  induction utxos as [| u rest IH]; intros sel0 tot0 fee0 sel tot fee Hne H Hle;
    [contradiction |].
  cbn [app P2TR.selectLoop] in *.
  destruct (P2TR.feeFor lib addresses feeRate (List.length (sel0 ++ [u])))
    as [f |]; [| discriminate].
  destruct (total + f <=? tot0 + value u) eqn:Hc; [exact H |].
  destruct rest as [| u' rest'].
  - cbn in H. inversion H; subst. apply Z.leb_gt in Hc. lia.
  - apply IH; [discriminate | exact H | exact Hle].
Qed.

(** X11.  The taproot selection depends only on the UTXOs up to the stopping
    point: when it succeeds on a response, it returns the same selection,
    total and fee on any longer response that starts with the same UTXOs. *)
Theorem X11_selection_ignores_later_utxos :
  forall lib addresses feeRate total utxos more t sel tot fee,
    utxos <> [] ->
    P2TR.selectUtxos lib addresses feeRate total utxos = (t, inr (sel, tot, fee)) ->
    P2TR.selectUtxos lib addresses feeRate total (utxos ++ more)
    = (t, inr (sel, tot, fee)).
Proof.
  intros lib addresses feeRate total utxos more t sel tot fee Hne H.
  pose proof (selectUtxos_covers _ _ _ _ _ _ _ _ _ H) as Hcov.
  unfold P2TR.selectUtxos in *.
  destruct (P2TR.feeFor lib addresses feeRate 1) as [f1 |]; [| discriminate].
  cbn [Run.orFail] in *. rewrite bind_ret in *.
  destruct (P2TR.selectLoop lib addresses feeRate total utxos [] 0 0)
    as [[[sel' tot'] fee'] |] eqn:Hloop; [| discriminate].
  cbn [Run.orFail] in H. rewrite bind_ret in H.
  destruct (tot' <? total + fee') eqn:Hchk; [discriminate |].
  cbn in H. inversion H; subst. clear H.
  rewrite (selectLoop_ignores_the_rest _ _ _ _ _ more _ _ _ _ _ _ Hne Hloop)
    by lia.
  cbn [Run.orFail]. rewrite bind_ret, Hchk. reflexivity.
Qed.

(** X11 on the three-UTXO scenario with a fourth UTXO appended. *)
Lemma X11_selection_ignores_later_utxos_witness :
  P2TR.selectUtxos (Demo.lib 4) Demo.recipients (JS.number 5) 20000
    (Demo.three ++ [Demo.u "d" 1])
  = ([], inr ([Demo.u "a" 100000], 100000, 985)).
Proof.
  apply (X11_selection_ignores_later_utxos (Demo.lib 4) Demo.recipients
           (JS.number 5) 20000 Demo.three [Demo.u "d" 1]).
  - discriminate.
  - vm_compute. reflexivity.
Defined.

(** ** A fee rate that is not a number *)

Lemma SFcompare_refl_not_nan x :
  x <> S754_nan -> SFcompare x x = Some Eq.
Proof.
  destruct x as [s | s | | s m e]; intros H; try reflexivity; try contradiction.
  - now destruct s.
  - cbn. destruct s; rewrite Z.compare_refl, ?Pos.compare_refl; reflexivity.
Qed.

Lemma isNaN_spec x : JS.isNaN x = true <-> Prim2SF x = S754_nan.
Proof.
  unfold JS.isNaN. rewrite eqb_spec. unfold SFeqb. split.
  - intros H. destruct (Prim2SF x) eqn:E; try reflexivity; exfalso;
      rewrite SFcompare_refl_not_nan in H by discriminate; discriminate.
  - intros ->. reflexivity.
Qed.

Lemma mul_nan_r x y : JS.isNaN y = true -> JS.isNaN (x * y) = true.
Proof.
  rewrite !isNaN_spec, mul_spec. intros ->. unfold SF64mul, SFmul.
  now destruct (Prim2SF x).
Qed.

Lemma mul_nan_l x y : JS.isNaN x = true -> JS.isNaN (x * y) = true.
Proof.
  rewrite !isNaN_spec, mul_spec. intros ->. reflexivity.
Qed.

Lemma add_nan_r x y : JS.isNaN y = true -> JS.isNaN (x + y) = true.
Proof.
  rewrite !isNaN_spec, add_spec. intros ->. unfold SF64add, SFadd.
  now destruct (Prim2SF x).
Qed.

Lemma sub_nan_r x y : JS.isNaN y = true -> JS.isNaN (x - y) = true.
Proof.
  rewrite !isNaN_spec, sub_spec. intros ->. unfold SF64sub, SFsub.
  now destruct (Prim2SF x).
Qed.

Lemma ltb_nan_r x y : JS.isNaN y = true -> (x <? y)%float = false.
Proof.
  rewrite isNaN_spec, ltb_spec. intros ->. unfold SFltb, SFcompare.
  now destruct (Prim2SF x).
Qed.

Lemma round_nan up x : JS.isNaN x = true -> JS.isNaN (JS.round_integral up x) = true.
Proof.
  intros H. pose proof H as H'. apply isNaN_spec in H'.
  unfold JS.round_integral. now rewrite H'.
Qed.

Lemma BigInt_nan x : JS.isNaN x = true -> JS.BigInt x = None.
Proof. intros H. apply isNaN_spec in H. unfold JS.BigInt. now rewrite H. Qed.

Section EarlyStop.

(** The run fails in one of the three ways of steps 1 and 2, having asked for
    no previous transaction. *)
Let stops {X : Type} (run : P2TR.M X) : Prop :=
  exists f,
    Run.outcome run = inl f /\
    (f = P2TR.WifError \/ f = P2TR.Uncaught \/ f = P2TR.NoUtxo) /\
    fetched_txs (Run.trace run) = [].

Lemma stops_orFail {A B : Type} f (o : option A) (k : A -> P2TR.M B) :
  f = P2TR.WifError \/ f = P2TR.Uncaught \/ f = P2TR.NoUtxo ->
  (forall a, o = Some a -> stops (k a)) ->
  stops (Run.bind (Run.orFail f o) k).
Proof.
  intros Hf Hk. destruct o as [a |].
  - cbn [Run.orFail]. rewrite bind_ret. now apply Hk.
  - exists f. cbn. auto.
Qed.

Lemma stops_after {A B : Type} (t : list event) (a : A) (k : A -> P2TR.M B) :
  fetched_txs t = [] -> stops (k a) -> stops (Run.bind (t, inr a) k).
Proof.
  intros Ht (f & Ho & Hkind & Hfetch). unfold stops, Run.bind.
  destruct (k a) as [t' r]. cbn [Run.trace Run.outcome fst snd] in *.
  exists f. rewrite fetched_txs_app, Ht, Hfetch. auto.
Qed.

Lemma stops_bind {A B : Type} (c : P2TR.M A) (k : A -> P2TR.M B) :
  stops c -> stops (Run.bind c k).
Proof.
  intros (f & Ho & Hkind & Hfetch). unfold stops, Run.bind.
  destruct c as [t [g | a]]; cbn [Run.trace Run.outcome fst snd] in *;
    [| discriminate].
  exists g. inversion Ho; subst. auto.
Qed.

End EarlyStop.

(** X12.  With a fee rate that is not a number (no usable recommended rate
    and no configured one, say) no fee estimate of the taproot script
    converts to a [BigInt]: the run ends in a failure before it asks for any
    previous transaction, so that nothing is built, signed or broadcast. *)
Theorem X12_taproot_rate_not_a_number :
  forall lib api config addresses answer feeRate,
    Run.outcome (P2TR.getFeeRate api config) = inr feeRate ->
    JS.isNaN (JS.ToNumber (P2TR.StringToNumber lib) feeRate) = true ->
    (forall k, P2TR.feeFor lib addresses feeRate k = None) /\
    exists f,
      Run.outcome (P2TR.batchSend lib api config addresses answer) = inl f /\
      (f = P2TR.WifError \/ f = P2TR.Uncaught \/ f = P2TR.NoUtxo) /\
      fetched_txs (Run.trace (P2TR.batchSend lib api config addresses answer)) = [].
Proof.
  intros lib api config addresses answer feeRate Hrate Hnan.
  assert (Hfee : forall k, P2TR.feeFor lib addresses feeRate k = None).
  { intros k. unfold P2TR.feeFor. apply BigInt_nan, mul_nan_r, Hnan. }
  split; [exact Hfee |].
  assert (Hget : P2TR.getFeeRate api config = ([FetchFees], inr feeRate)).
  { unfold P2TR.getFeeRate in *.
    destruct (fees_recommended api); cbn in Hrate; inversion Hrate; reflexivity. }
  unfold P2TR.batchSend. apply stops_bind.
  unfold P2TR.build. rewrite Hget.
  apply stops_after; [reflexivity |].
  apply stops_orFail; [auto |]. intros [priv pubkey] _.
  apply stops_orFail; [auto |]. intros [from expected] _.
  apply (stops_after [FetchUtxos from] tt); [reflexivity |].
  apply stops_orFail; [auto |]. intros utxos _.
  destruct (Nat.eqb (List.length utxos) 0); [exists P2TR.NoUtxo; cbn; auto |].
  apply stops_orFail; [auto |]. intros amount _.
  apply stops_bind. unfold P2TR.selectUtxos. rewrite Hfee.
  exists P2TR.Uncaught. cbn. auto.
Qed.

(** X12 with no configured rate and a failed request for the recommended
    one. *)
Lemma X12_taproot_rate_not_a_number_witness :
  exists f,
    Run.outcome
      (P2TR.batchSend (Demo.lib 4) (Demo.api Demo.three "5120ab" "none" None None)
         (Demo.config JS.undefined JS.undefined) Demo.recipients "Y") = inl f /\
    fetched_txs
      (Run.trace
         (P2TR.batchSend (Demo.lib 4) (Demo.api Demo.three "5120ab" "none" None None)
            (Demo.config JS.undefined JS.undefined) Demo.recipients "Y")) = [].
Proof.
  destruct (X12_taproot_rate_not_a_number (Demo.lib 4)
              (Demo.api Demo.three "5120ab" "none" None None)
              (Demo.config JS.undefined JS.undefined) Demo.recipients "Y"
              JS.undefined eq_refl eq_refl)
    as (_ & f & Hout & _ & Hfetch).
  exists f. split; [exact Hout | exact Hfetch].
Defined.

Section WpkhFailures.

Variable lib : P2WPKH.Lib.
Variable api : Mempool.

Lemma wpkh_addInputs_fail utxos :
  forall p amount t f,
    P2WPKH.addInputs lib api utxos p amount = (t, inl f) ->
    (f = P2WPKH.FetchFailed \/ f = P2WPKH.LibraryError) /\
    Run.nothing_signed t = true.
Proof.
  induction utxos as [| u rest IH]; intros p amount t f H; [discriminate |].
  cbn [P2WPKH.addInputs] in H.
  run_fail H as x Hemit H; [discriminate |]. apply emit_inr in Hemit as ->.
  run_fail H as details Hd H.
  { apply orFail_inl in Hd as (_ & -> & ->). subst. auto. }
  apply orFail_inr in Hd as [_ ->]. subst.
  destruct (match nth_error details (vout u) with
            | Some o => scriptpubkey o
            | None => None
            end) as [s |].
  2: { apply IH in H as [Hf Ht]. split; [exact Hf | exact Ht]. }
  destruct (s =? "")%string.
  { apply IH in H as [Hf Ht]. split; [exact Hf | exact Ht]. }
  destruct (P2WPKH.addInput_accepts _ _ _).
  - apply IH in H as [Hf Ht]. split; [exact Hf | exact Ht].
  - inversion H; subst. auto.
Qed.

Lemma wpkh_addOutput_fail p o t f :
  P2WPKH.addOutput lib p o = (t, inl f) -> f = P2WPKH.LibraryError.
Proof.
  unfold P2WPKH.addOutput. destruct (P2WPKH.addOutput_accepts _ _ _); [discriminate |].
  intros H. now inversion H.
Qed.

Lemma wpkh_addOutputs_fail amount recipients :
  forall p t f,
    P2WPKH.addOutputs lib amount recipients p = (t, inl f) -> f = P2WPKH.LibraryError.
Proof.
  induction recipients as [| a rest IH]; intros p t f H; [discriminate |].
  cbn [P2WPKH.addOutputs] in H. run_fail H as p' H1 H.
  - eapply wpkh_addOutput_fail; eauto.
  - eapply IH; eauto.
Qed.

Lemma wpkh_signLoop_fail keyPair indices :
  forall p t f,
    P2WPKH.signLoop lib keyPair indices p = (t, inl f) -> f = P2WPKH.LibraryError.
Proof.
  induction indices as [| i rest IH]; intros p t f H; [discriminate |].
  cbn [P2WPKH.signLoop] in H. run_fail H as sig H1 H.
  - now apply orFail_inl in H1 as (_ & _ & ->).
  - run_fail H as x H2 H; [discriminate |]. eapply IH; eauto.
Qed.

End WpkhFailures.

(** X13.  With a fee rate that is not a number (a response without
    [fastestFee], say) [main.js] does not stop: the estimated fee is [NaN],
    the balance check, a comparison with [NaN], never reports a shortage,
    and no change output is created, so that a transaction it returns pays
    everything above the recipients' amounts as fee. *)
Theorem X13_main_rate_not_a_number :
  forall lib api config addresses key amountBTC tf feeRate,
    P2WPKH.getFeeRate api config = (tf, inr feeRate) ->
    JS.isNaN (JS.ToNumber (P2WPKH.StringToNumber lib) feeRate) = true ->
    (forall t needed sendTotal fee available shortfall,
        P2WPKH.createTransaction lib api config addresses key amountBTC
        <> (t, inl (P2WPKH.InsufficientFunds needed sendTotal fee available shortfall))) /\
    (forall t c,
        P2WPKH.createTransaction lib api config addresses key amountBTC = (t, inr c) ->
        JS.isNaN (P2WPKH.c_estimatedFee c) = true /\
        P2WPKH.outputs (P2WPKH.c_psbt c)
        = map (fun a =>
                 {| P2WPKH.address := a;
                    P2WPKH.out_value :=
                      JS.Math_floor
                        (JS.ToNumber (P2WPKH.StringToNumber lib) amountBTC
                         * 100000000)%float |}) addresses).
Proof.
  intros lib api config addresses key amountBTC tf feeRate Hget Hnan.
  assert (Hfee : forall i o, JS.isNaN (P2WPKH.estimatedFee lib feeRate i o) = true).
  { intros i o. unfold P2WPKH.estimatedFee, JS.Math_ceil.
    apply round_nan, mul_nan_l, Hnan. }
  split.
  - intros t needed sendTotal fee available shortfall H.
    unfold P2WPKH.createTransaction in H.
    run_fail H as keyPair Hstep1 H;
      [apply orFail_inl in Hstep1 as (_ & _ & ?); discriminate |].
    run_fail H as x Hstep2 H; [discriminate |].
    run_fail H as utxos Hstep3 H;
      [apply orFail_inl in Hstep3 as (_ & _ & ?); discriminate |].
    destruct (Nat.eqb (List.length utxos) 0); [discriminate |].
    run_fail H as fr Hstep4 H; [rewrite Hget in Hstep4; discriminate |].
    rewrite Hget in Hstep4. inversion Hstep4; subst fr.
    run_fail H as pi Hstep5 H.
    { apply wpkh_addInputs_fail in Hstep5 as [[? | ?] _]; discriminate. }
    destruct pi as [p inputAmount].
    destruct (Nat.eqb (List.length (P2WPKH.inputs p)) 0); [discriminate |].
    rewrite ltb_nan_r in H by (apply add_nan_r, Hfee).
    run_fail H as p1 Hstep6 H; [apply wpkh_addOutputs_fail in Hstep6; discriminate |].
    run_fail H as p2 Hstep7 H.
    { destruct (546 <? _)%float; [| discriminate].
      apply wpkh_addOutput_fail in Hstep7. discriminate. }
    run_fail H as p3 Hstep8 H; [apply wpkh_signLoop_fail in Hstep8; discriminate |].
    run_fail H as valid Hstep9 H;
      [apply orFail_inl in Hstep9 as (_ & _ & ?); discriminate |].
    run_fail H as hex Hstep10 H;
      [apply orFail_inl in Hstep10 as (_ & _ & ?); discriminate |].
    discriminate.
  - intros t c H.
    destruct (createTransaction_inv _ _ _ _ _ _ _ _ H)
      as (keyPair & utxos & fr & tf' & _ & _ & _ & Hget' & _ & _ & Hf & _ & _ & _
          & Hout).
    rewrite Hget in Hget'. inversion Hget'; subst fr tf'.
    split; [rewrite Hf; apply Hfee |].
    rewrite Hout, ltb_nan_r, app_nil_r by (apply sub_nan_r, Hfee). reflexivity.
Qed.

(** X13 on a response whose recommended fees are missing: one UTXO of 100000
    satoshis, one recipient of 10000 satoshis, and no other output. *)
Lemma X13_main_rate_not_a_number_witness :
  exists t c,
    P2WPKH.createTransaction Demo.wlib
      (Demo.api [Demo.u "a" 100000] "0014cd" "none" None
         (Some {| halfHourFee := JS.undefined; fastestFee := JS.undefined |}))
      (Demo.config (JS.number 0.0001) JS.undefined)
      ["bc1qalice"] "wif" (JS.number 0.0001) = (t, inr c) /\
    P2WPKH.outputs (P2WPKH.c_psbt c)
    = [ {| P2WPKH.address := "bc1qalice"; P2WPKH.out_value := 10000%float |} ].
Proof.
  assert (E : exists t c,
             P2WPKH.createTransaction Demo.wlib
               (Demo.api [Demo.u "a" 100000] "0014cd" "none" None
                  (Some {| halfHourFee := JS.undefined; fastestFee := JS.undefined |}))
               (Demo.config (JS.number 0.0001) JS.undefined)
               ["bc1qalice"] "wif" (JS.number 0.0001) = (t, inr c))
    by (do 2 eexists; vm_compute; reflexivity).
  destruct E as (t & c & E). exists t, c. split; [exact E |].
  destruct (X13_main_rate_not_a_number Demo.wlib
              (Demo.api [Demo.u "a" 100000] "0014cd" "none" None
                 (Some {| halfHourFee := JS.undefined; fastestFee := JS.undefined |}))
              (Demo.config (JS.number 0.0001) JS.undefined)
              ["bc1qalice"] "wif" (JS.number 0.0001) [FetchFees] JS.undefined
              eq_refl eq_refl) as [_ Hc].
  destruct (Hc t c E) as [_ Hout]. rewrite Hout. vm_compute. reflexivity.
Defined.

(** ** The self-check of [main.js] *)

Section Validation.

Variable lib : P2WPKH.Lib.
Variable api : Mempool.
Variable v : P2WPKH.Psbt -> option bool.

Lemma wv_addInputs utxos :
  forall p amount,
    P2WPKH.addInputs (with_validation lib v) api utxos p amount
    = P2WPKH.addInputs lib api utxos p amount.
Proof.
  induction utxos as [| u rest IH]; intros p amount; [reflexivity |].
  cbn [P2WPKH.addInputs]. apply bind_ext. intros _. apply bind_ext. intros details.
  destruct (match nth_error details (vout u) with
            | Some o => scriptpubkey o
            | None => None
            end) as [s |]; [| apply IH].
  destruct (s =? "")%string; [apply IH |].
  cbn [with_validation P2WPKH.addInput_accepts].
  destruct (P2WPKH.addInput_accepts lib p _); [apply IH | reflexivity].
Qed.

Lemma wv_addOutputs amount recipients :
  forall p,
    P2WPKH.addOutputs (with_validation lib v) amount recipients p
    = P2WPKH.addOutputs lib amount recipients p.
Proof.
  induction recipients as [| a rest IH]; intros p; [reflexivity |].
  cbn [P2WPKH.addOutputs]. apply bind_ext. intros p'. apply IH.
Qed.

Lemma wv_signLoop keyPair indices :
  forall p,
    P2WPKH.signLoop (with_validation lib v) keyPair indices p
    = P2WPKH.signLoop lib keyPair indices p.
Proof.
  induction indices as [| i rest IH]; intros p; [reflexivity |].
  cbn [P2WPKH.signLoop]. apply bind_ext. intros sig. apply bind_ext. intros _.
  apply IH.
Qed.

End Validation.

(** X14.  [main.js] throws away what [validateSignaturesOfAllInputs]
    returns: as long as that call does not throw, [createTransaction] behaves
    the same whether it answers [true] or [false], so a transaction whose
    signatures were found invalid is finalised and returned all the same. *)
Theorem X14_main_ignores_validation_result :
  forall lib api config addresses key amountBTC v,
    (forall p, v p <> None) ->
    P2WPKH.createTransaction (with_validation lib v) api config addresses key amountBTC
    = P2WPKH.createTransaction (with_validation lib (fun _ => Some true)) api config
        addresses key amountBTC.
Proof.
  intros lib api config addresses key amountBTC v Hv.
  unfold P2WPKH.createTransaction.
  cbn [with_validation P2WPKH.fromWIF P2WPKH.p2wpkh_address P2WPKH.StringToNumber
       P2WPKH.validateSignaturesOfAllInputs P2WPKH.finalize_toHex].
  apply bind_ext. intros keyPair. apply bind_ext. intros _.
  apply bind_ext. intros utxos.
  destruct (Nat.eqb (List.length utxos) 0); [reflexivity |].
  apply bind_ext. intros feeRate.
  rewrite !wv_addInputs. apply bind_ext. intros [p inputAmount].
  destruct (Nat.eqb (List.length (P2WPKH.inputs p)) 0); [reflexivity |].
  change (P2WPKH.estimatedFee (with_validation lib v))
    with (P2WPKH.estimatedFee lib).
  change (P2WPKH.estimatedFee (with_validation lib (fun _ => Some true)))
    with (P2WPKH.estimatedFee lib).
  destruct (_ <? _)%float; [reflexivity |].
  rewrite !wv_addOutputs. apply bind_ext. intros p1.
  change (P2WPKH.addOutput (with_validation lib v)) with (P2WPKH.addOutput lib).
  change (P2WPKH.addOutput (with_validation lib (fun _ => Some true)))
    with (P2WPKH.addOutput lib).
  apply bind_ext. intros p2.
  rewrite !wv_signLoop. apply bind_ext. intros p3.
  destruct (v p3) as [b |] eqn:E; [| now apply Hv in E].
  cbn [Run.orFail]. rewrite !bind_ret. reflexivity.
Qed.

(** X14 on a library whose validation of the signatures fails. *)
Lemma X14_main_ignores_validation_result_witness :
  exists t c,
    P2WPKH.createTransaction (with_validation Demo.wlib (fun _ => Some false))
      (Demo.api [Demo.u "a" 100000] "0014cd" "none" None None)
      (Demo.config (JS.number 0.0001) (JS.number 5))
      ["bc1qalice"] "wif" (JS.number 0.0001) = (t, inr c) /\
    P2WPKH.c_txHex c = "020000000001".
Proof.
  rewrite (X14_main_ignores_validation_result Demo.wlib
             (Demo.api [Demo.u "a" 100000] "0014cd" "none" None None)
             (Demo.config (JS.number 0.0001) (JS.number 5))
             ["bc1qalice"] "wif" (JS.number 0.0001) (fun _ => Some false))
    by discriminate.
  do 2 eexists. vm_compute. split; reflexivity.
Defined.

(** ** What a run of [main.js] does, in order *)

Lemma bind_no_broadcast {F A B : Type} (c : Run.M F A) (k : A -> Run.M F B) :
  broadcasts (Run.trace c) = [] ->
  (forall a, broadcasts (Run.trace (k a)) = []) ->
  broadcasts (Run.trace (Run.bind c k)) = [].
Proof.
  intros Hc Hk. unfold Run.bind. destruct c as [t [f | a]]; [exact Hc |].
  specialize (Hk a). destruct (k a) as [t' r]. unfold Run.trace in *.
  cbn [fst] in *. now rewrite broadcasts_app, Hc, Hk.
Qed.

Lemma orFail_no_broadcast {F A : Type} (f : F) (o : option A) :
  broadcasts (Run.trace (Run.orFail f o)) = [].
Proof. now destruct o. Qed.

Section WpkhRuns.

Variable lib : P2WPKH.Lib.
Variable api : Mempool.
Variable config : Config.
Variable addresses : list string.

Lemma wpkh_getFeeRate_trace :
  Run.trace (P2WPKH.getFeeRate api config)
  = if valid_configured_rate (feeRate config) then [] else [FetchFees].
Proof.
  unfold P2WPKH.getFeeRate. fold (valid_configured_rate (feeRate config)).
  destruct (valid_configured_rate (feeRate config)); [reflexivity |].
  now destruct (fees_recommended api).
Qed.

Lemma wpkh_addInputs_trace utxos :
  forall p amount t r,
    P2WPKH.addInputs lib api utxos p amount = (t, inr r) ->
    t = map (fun u => FetchTx (txid u)) utxos.
Proof.
  induction utxos as [| u rest IH]; intros p amount t r H.
  - cbn in H. now inversion H.
  - cbn [P2WPKH.addInputs] in H. run_inv H as x Hemit H.
    apply emit_inr in Hemit. run_inv H as details Hd H.
    apply orFail_inr in Hd as [_ ->]. subst. cbn [map app]. f_equal.
    destruct (match nth_error details (vout u) with
              | Some o => scriptpubkey o
              | None => None
              end) as [s |]; [| now apply IH in H].
    destruct (s =? "")%string; [now apply IH in H |].
    destruct (P2WPKH.addInput_accepts _ _ _); [now apply IH in H | discriminate].
Qed.

Lemma wpkh_addInputs_no_broadcast utxos :
  forall p amount,
    broadcasts (Run.trace (P2WPKH.addInputs lib api utxos p amount)) = [].
Proof.
  induction utxos as [| u rest IH]; intros p amount; [reflexivity |].
  cbn [P2WPKH.addInputs].
  apply bind_no_broadcast; [reflexivity | intros _].
  apply bind_no_broadcast; [apply orFail_no_broadcast | intros details].
  destruct (match nth_error details (vout u) with
            | Some o => scriptpubkey o
            | None => None
            end) as [s |]; [| apply IH].
  destruct (s =? "")%string; [apply IH |].
  destruct (P2WPKH.addInput_accepts _ _ _); [apply IH | reflexivity].
Qed.

Lemma wpkh_addOutput_no_broadcast p o :
  broadcasts (Run.trace (P2WPKH.addOutput lib p o)) = [].
Proof. unfold P2WPKH.addOutput. now destruct (P2WPKH.addOutput_accepts _ _ _). Qed.

Lemma wpkh_addOutputs_no_broadcast amount recipients :
  forall p, broadcasts (Run.trace (P2WPKH.addOutputs lib amount recipients p)) = [].
Proof.
  induction recipients as [| a rest IH]; intros p; [reflexivity |].
  cbn [P2WPKH.addOutputs].
  apply bind_no_broadcast; [apply wpkh_addOutput_no_broadcast | apply IH].
Qed.

Lemma wpkh_signLoop_no_broadcast keyPair indices :
  forall p, broadcasts (Run.trace (P2WPKH.signLoop lib keyPair indices p)) = [].
Proof.
  induction indices as [| i rest IH]; intros p; [reflexivity |].
  cbn [P2WPKH.signLoop].
  apply bind_no_broadcast; [apply orFail_no_broadcast | intros sig].
  apply bind_no_broadcast; [reflexivity | intros _; apply IH].
Qed.

Lemma wpkh_signLoop_trace keyPair indices :
  forall p t p',
    P2WPKH.signLoop lib keyPair indices p = (t, inr p') ->
    t = map Signature indices.
Proof.
  induction indices as [| i rest IH]; intros p t p' H.
  - cbn in H. now inversion H.
  - cbn [P2WPKH.signLoop] in H. run_inv H as sig Hsig H.
    apply orFail_inr in Hsig as [_ ->]. run_inv H as x Hemit H.
    apply emit_inr in Hemit as ->. apply IH in H. subst. reflexivity.
Qed.

Lemma createTransaction_no_broadcast key amountBTC :
  broadcasts
    (Run.trace (P2WPKH.createTransaction lib api config addresses key amountBTC)) = [].
Proof.
  unfold P2WPKH.createTransaction.
  apply bind_no_broadcast; [apply orFail_no_broadcast | intros keyPair].
  apply bind_no_broadcast; [reflexivity | intros _].
  apply bind_no_broadcast; [apply orFail_no_broadcast | intros utxos].
  destruct (Nat.eqb (List.length utxos) 0); [reflexivity |].
  apply bind_no_broadcast.
  { rewrite wpkh_getFeeRate_trace. now destruct (valid_configured_rate _). }
  intros feeRate.
  apply bind_no_broadcast; [apply wpkh_addInputs_no_broadcast | intros [p inputAmount]].
  destruct (Nat.eqb (List.length (P2WPKH.inputs p)) 0); [reflexivity |].
  destruct (_ <? _)%float; [reflexivity |].
  apply bind_no_broadcast; [apply wpkh_addOutputs_no_broadcast | intros p1].
  apply bind_no_broadcast.
  { destruct (546 <? _)%float; [apply wpkh_addOutput_no_broadcast | reflexivity]. }
  intros p2.
  apply bind_no_broadcast; [apply wpkh_signLoop_no_broadcast | intros p3].
  apply bind_no_broadcast; [apply orFail_no_broadcast | intros valid].
  apply bind_no_broadcast; [apply orFail_no_broadcast | intros hex].
  reflexivity.
Qed.

(** The trace of a [createTransaction] that returns. *)
Lemma createTransaction_trace key amountBTC t c :
  P2WPKH.createTransaction lib api config addresses key amountBTC = (t, inr c) ->
  exists keyPair utxos,
    P2WPKH.fromWIF lib key = Some keyPair /\
    address_utxo api (P2WPKH.p2wpkh_address lib keyPair) = Some utxos /\
    t = [FetchUtxos (P2WPKH.p2wpkh_address lib keyPair)]
        ++ (if valid_configured_rate (feeRate config) then [] else [FetchFees])
        ++ map (fun u => FetchTx (txid u)) utxos
        ++ map Signature (seq 0 (List.length (filter (has_script api) utxos))).
Proof.
  intros H. unfold P2WPKH.createTransaction in H.
  apply bind_inr in H as (t1 & keyPair & t1' & Hkey & H & ->).
  apply orFail_inr in Hkey as [Hkey ->].
  apply bind_inr in H as (t2 & x & t2' & Hemit & H & ->).
  apply emit_inr in Hemit as ->.
  apply bind_inr in H as (t3 & utxos & t3' & Hutxos & H & ->).
  apply orFail_inr in Hutxos as [Hutxos ->].
  destruct (Nat.eqb (List.length utxos) 0); [discriminate |].
  apply bind_inr in H as (t4 & feeRate & t4' & Hrate & H & ->).
  pose proof wpkh_getFeeRate_trace as Htf. rewrite Hrate in Htf. cbn in Htf. subst t4.
  apply bind_inr in H as (t5 & pi & t5' & Hin & H & ->). destruct pi as [p inputAmount].
  pose proof (wpkh_addInputs_trace _ _ _ _ _ Hin) as ->.
  destruct (Nat.eqb (List.length (P2WPKH.inputs p)) 0); [discriminate |].
  destruct (_ <? _)%float; [discriminate |].
  apply bind_inr in H as (t6 & p1 & t6' & Hout & H & ->).
  assert (Ht6 : t6 = []).
  { clear - Hout. revert p t6 p1 Hout.
    induction addresses as [| a rest IH]; intros p t6 p1 Hout.
    - cbn in Hout. now inversion Hout.
    - cbn [P2WPKH.addOutputs] in Hout.
      apply bind_inr in Hout as (ta & q & tb & Hone & Hout & ->).
      apply wpkh_addOutput_inv in Hone as (_ & _ & ->).
      now rewrite (IH _ _ _ Hout). }
  pose proof (wpkh_addOutputs_inv _ _ _ _ _ _ Hout) as [Hi1 _].
  apply bind_inr in H as (t7 & p2 & t7' & Hchange & H & ->).
  assert (H7 : t7 = [] /\ P2WPKH.inputs p2 = P2WPKH.inputs p1).
  { destruct (546 <? _)%float.
    - apply wpkh_addOutput_inv in Hchange as (Hi & _ & ->). auto.
    - cbn in Hchange. inversion Hchange. auto. }
  destruct H7 as [-> Hi2].
  apply bind_inr in H as (t8 & p3 & t8' & Hsign & H & ->).
  pose proof (wpkh_signLoop_trace _ _ _ _ _ Hsign) as ->.
  apply bind_inr in H as (t9 & valid & t9' & Hvalid & H & ->).
  apply orFail_inr in Hvalid as [_ ->].
  apply bind_inr in H as (t10 & hex & t10' & Hhex & H & ->).
  apply orFail_inr in Hhex as [_ ->].
  cbn in H. inversion H; subst.
  exists keyPair, utxos. split; [exact Hkey |]. split; [exact Hutxos |].
  apply wpkh_addInputs_inv in Hin as (_ & _ & Hi0 & _). cbn [P2WPKH.inputs app] in Hi0.
  assert (Hlen : List.length (P2WPKH.inputs p2)
                 = List.length (filter (has_script api) utxos)).
  { rewrite Hi2, Hi1. apply (f_equal (@List.length _)) in Hi0.
    cbn [map app] in Hi0. now rewrite !length_map in Hi0. }
  rewrite Hlen. cbn. now rewrite !app_nil_r.
Qed.

End WpkhRuns.

(** X15.  A run of [main.js] that reaches its end has, in this order, asked
    for the UTXOs of the funding address, asked for the recommended fees
    unless a valid rate is configured, asked for the transaction of every
    UTXO of the response (used or skipped), signed the inputs in ascending
    order, one per UTXO that has a script, and broadcast the transaction,
    without asking anyone. *)
Theorem X15_main_trace :
  forall lib api config addresses t c txId,
    P2WPKH.main lib api config addresses = (t, inr (c, txId)) ->
    exists keyPair utxos,
      P2WPKH.fromWIF lib (privateKey config) = Some keyPair /\
      address_utxo api (P2WPKH.p2wpkh_address lib keyPair) = Some utxos /\
      post_tx api (P2WPKH.c_txHex c) = Some txId /\
      t = [FetchUtxos (P2WPKH.p2wpkh_address lib keyPair)]
          ++ (if valid_configured_rate (feeRate config) then [] else [FetchFees])
          ++ map (fun u => FetchTx (txid u)) utxos
          ++ map Signature (seq 0 (List.length (filter (has_script api) utxos)))
          ++ [Broadcast (P2WPKH.c_txHex c)].
Proof.
  intros lib api config addresses t c txId H.
  unfold P2WPKH.main in H.
  apply bind_inr in H as (t1 & c' & t1' & Hc & H & ->).
  apply bind_inr in H as (t2 & x & t2' & Hemit & H & ->).
  apply emit_inr in Hemit as ->.
  apply bind_inr in H as (t3 & id & t3' & Hpost & H & ->).
  apply orFail_inr in Hpost as [Hpost ->].
  cbn in H. inversion H; subst c' id.
  destruct (createTransaction_trace _ _ _ _ _ _ _ _ Hc)
    as (keyPair & utxos & Hkey & Hutxos & ->).
  exists keyPair, utxos. split; [exact Hkey |]. split; [exact Hutxos |].
  split; [exact Hpost |].
  cbn [app]. rewrite <- !app_assoc. reflexivity.
Qed.

(** X15 on the three-UTXO scenario with a configured rate. *)
Lemma X15_main_trace_witness :
  exists r,
    P2WPKH.main Demo.wlib (Demo.api Demo.three "0014cd" "none" None None)
      (Demo.config (JS.number 0.0001) (JS.number 5)) ["bc1qalice"; "bc1qbob"]
    = ([FetchUtxos "bc1qfunding"; FetchTx "a"; FetchTx "b"; FetchTx "c";
        Signature 0; Signature 1; Signature 2; Broadcast "020000000001"], inr r).
Proof.
  assert (E : exists t c txId,
             P2WPKH.main Demo.wlib (Demo.api Demo.three "0014cd" "none" None None)
               (Demo.config (JS.number 0.0001) (JS.number 5)) ["bc1qalice"; "bc1qbob"]
             = (t, inr (c, txId)) /\ P2WPKH.c_txHex c = "020000000001")
    by (do 3 eexists; vm_compute; split; reflexivity).
  destruct E as (t & c & txId & E & Hhex). exists (c, txId).
  destruct (X15_main_trace _ _ _ _ _ _ _ E) as (keyPair & utxos & Hkey & Hu & _ & Ht).
  cbn in Hkey. inversion Hkey; subst keyPair.
  cbn in Hu. inversion Hu; subst utxos.
  rewrite Hhex in Ht. vm_compute in Ht. rewrite <- Ht. exact E.
Defined.

(** X16.  Whatever happens in a run of [main.js], it broadcasts exactly when
    [createTransaction] has returned a transaction, that transaction and
    once; a run in which [createTransaction] fails broadcasts nothing. *)
Theorem X16_main_broadcasts_what_it_built :
  forall lib api config addresses,
    broadcasts (Run.trace (P2WPKH.main lib api config addresses))
    = match Run.outcome
              (P2WPKH.createTransaction lib api config addresses (privateKey config)
                 (sendAmountBTC config)) with
      | inr c => [P2WPKH.c_txHex c]
      | inl _ => []
      end.
Proof.
  intros lib api config addresses. unfold P2WPKH.main.
  pose proof (createTransaction_no_broadcast lib api config addresses
                (privateKey config) (sendAmountBTC config)) as Hnb.
  destruct (P2WPKH.createTransaction lib api config addresses (privateKey config)
              (sendAmountBTC config)) as [t [f | c]].
  - exact Hnb.
  - cbn [Run.trace Run.outcome fst snd] in *. unfold Run.bind at 1.
    unfold Run.emit. unfold Run.bind at 1.
    destruct (post_tx api (P2WPKH.c_txHex c)); cbn;
      rewrite broadcasts_app, Hnb; reflexivity.
Qed.

(** ** Which failures of [createTransaction] can follow a signature *)

Section Refusals.

Let quiet {B : Type} (run : Run.M P2WPKH.failure B) : Prop :=
  forall f, Run.outcome run = inl f -> f <> P2WPKH.LibraryError ->
            Run.nothing_signed (Run.trace run) = true.

Let library_only {B : Type} (run : Run.M P2WPKH.failure B) : Prop :=
  forall f, Run.outcome run = inl f -> f = P2WPKH.LibraryError.

Lemma quiet_bind {B C : Type} (c : Run.M P2WPKH.failure B)
    (k : B -> Run.M P2WPKH.failure C) :
  Run.nothing_signed (Run.trace c) = true ->
  (forall b, quiet (k b)) -> quiet (Run.bind c k).
Proof.
  unfold quiet. intros Hc Hk f. unfold Run.bind.
  destruct c as [t [g | b]]; [intros _ _; exact Hc |].
  specialize (Hk b). destruct (k b) as [t' r].
  unfold Run.trace, Run.outcome in *. cbn [fst snd] in *.
  intros Hf Hne. rewrite nothing_signed_app, Hc. exact (Hk f Hf Hne).
Qed.

Lemma library_only_bind {B C : Type} (c : Run.M P2WPKH.failure B)
    (k : B -> Run.M P2WPKH.failure C) :
  library_only c -> (forall b, library_only (k b)) -> library_only (Run.bind c k).
Proof.
  unfold library_only. intros Hc Hk f. unfold Run.bind.
  destruct c as [t [g | b]].
  - intros H. apply Hc. cbn in *. now inversion H.
  - specialize (Hk b). destruct (k b) as [t' r]. exact (Hk f).
Qed.

Ltac raised :=
  let f := fresh "f" in
  let H := fresh "H" in
  cbn; intros f H; inversion H; try discriminate.

Lemma raises_bind (P : P2WPKH.failure -> Prop) {B C : Type}
    (c : Run.M P2WPKH.failure B) (k : B -> Run.M P2WPKH.failure C) :
  (forall f, Run.outcome c = inl f -> P f) ->
  (forall b f, Run.outcome (k b) = inl f -> P f) ->
  forall f, Run.outcome (Run.bind c k) = inl f -> P f.
Proof.
  intros Hc Hk f. unfold Run.bind. destruct c as [t [g | b]].
  - intros H. apply Hc. cbn in *. now inversion H.
  - specialize (Hk b). destruct (k b) as [t' r]. exact (Hk f).
Qed.

Lemma createTransaction_raises lib api config addresses key amountBTC f :
  Run.outcome (P2WPKH.createTransaction lib api config addresses key amountBTC)
  = inl f ->
  f <> P2WPKH.BroadcastError.
Proof.
  revert f. unfold P2WPKH.createTransaction.
  apply raises_bind.
  { destruct (P2WPKH.fromWIF lib key); raised. }
  intros keyPair. apply raises_bind; [raised | intros _].
  apply raises_bind.
  { destruct (address_utxo api _); raised. }
  intros utxos.
  destruct (Nat.eqb (List.length utxos) 0);
    [raised |].
  apply raises_bind.
  { unfold P2WPKH.getFeeRate. destruct (_ && _ && _); [raised |].
    destruct (fees_recommended api); raised. }
  intros feeRate. apply raises_bind.
  { intros f Hf. destruct (P2WPKH.addInputs lib api utxos _ 0) as [t r] eqn:E.
    cbn in Hf. subst r. apply wpkh_addInputs_fail in E as [[-> | ->] _]; discriminate. }
  intros [p inputAmount].
  destruct (Nat.eqb (List.length (P2WPKH.inputs p)) 0);
    [raised |].
  destruct (_ <? _)%float; [raised |].
  apply raises_bind.
  { intros f Hf. destruct (P2WPKH.addOutputs _ _ _ _) as [t r] eqn:E.
    cbn in Hf. subst r. apply wpkh_addOutputs_fail in E as ->. discriminate. }
  intros p1. apply raises_bind.
  { destruct (546 <? _)%float; [| raised].
    intros f Hf. destruct (P2WPKH.addOutput _ _ _) as [t r] eqn:E.
    cbn in Hf. subst r. apply wpkh_addOutput_fail in E as ->. discriminate. }
  intros p2. apply raises_bind.
  { intros f Hf. destruct (P2WPKH.signLoop _ _ _ _) as [t r] eqn:E.
    cbn in Hf. subst r. apply wpkh_signLoop_fail in E as ->. discriminate. }
  intros p3. apply raises_bind.
  { destruct (P2WPKH.validateSignaturesOfAllInputs lib p3); raised. }
  intros valid. apply raises_bind.
  { destruct (P2WPKH.finalize_toHex lib p3); raised. }
  intros hex. raised.
Qed.

Lemma library_only_quiet {B : Type} (run : Run.M P2WPKH.failure B) :
  library_only run -> quiet run.
Proof. unfold library_only, quiet. intros H f Hf Hne. now apply H in Hf. Qed.

Lemma library_only_orFail {B : Type} (o : option B) :
  library_only (Run.orFail P2WPKH.LibraryError o).
Proof. unfold library_only. destruct o; cbn; intros f H; now inversion H. Qed.

Lemma createTransaction_quiet lib api config addresses key amountBTC :
  quiet (P2WPKH.createTransaction lib api config addresses key amountBTC).
Proof.
  unfold P2WPKH.createTransaction.
  apply quiet_bind; [now destruct (P2WPKH.fromWIF lib key) | intros keyPair].
  apply quiet_bind; [reflexivity | intros _].
  apply quiet_bind; [now destruct (address_utxo api _) | intros utxos].
  destruct (Nat.eqb (List.length utxos) 0); [intros f _ _; reflexivity |].
  apply quiet_bind.
  { rewrite wpkh_getFeeRate_trace. now destruct (valid_configured_rate _). }
  intros feeRate.
  apply quiet_bind.
  { destruct (P2WPKH.addInputs lib api utxos _ 0) as [t [f | [p a]]] eqn:E.
    - now apply wpkh_addInputs_fail in E.
    - now apply wpkh_addInputs_inv in E. }
  intros [p inputAmount].
  destruct (Nat.eqb (List.length (P2WPKH.inputs p)) 0); [intros f _ _; reflexivity |].
  destruct (_ <? _)%float; [intros f _ _; reflexivity |].
  apply library_only_quiet.
  apply library_only_bind.
  { intros f Hf. destruct (P2WPKH.addOutputs _ _ _ _) as [t r] eqn:E.
    cbn in Hf. subst r. eapply wpkh_addOutputs_fail; eauto. }
  intros p1. apply library_only_bind.
  { destruct (546 <? _)%float; [| intros f Hf; discriminate].
    intros f Hf. destruct (P2WPKH.addOutput _ _ _) as [t r] eqn:E.
    cbn in Hf. subst r. eapply wpkh_addOutput_fail; eauto. }
  intros p2. apply library_only_bind.
  { intros f Hf. destruct (P2WPKH.signLoop _ _ _ _) as [t r] eqn:E.
    cbn in Hf. subst r. eapply wpkh_signLoop_fail; eauto. }
  intros p3. apply library_only_bind; [apply library_only_orFail | intros valid].
  apply library_only_bind; [apply library_only_orFail | intros hex].
  intros f Hf. discriminate.
Qed.

End Refusals.

(** X17.  The refusals that [createTransaction] of [main.js] raises itself
    (undecodable key, failed request, no UTXO, no usable input, insufficient
    balance) all come before the first signature: when the run fails with
    anything but an error of the bitcoin library, nothing has been signed,
    and so a run that has signed an input can only fail inside the library. *)
Theorem X17_createTransaction_refuses_before_signing :
  forall lib api config addresses key amountBTC f,
    Run.outcome (P2WPKH.createTransaction lib api config addresses key amountBTC)
    = inl f ->
    f <> P2WPKH.LibraryError ->
    signed_inputs
      (Run.trace (P2WPKH.createTransaction lib api config addresses key amountBTC)) = []
    /\ (f = P2WPKH.WifError \/ f = P2WPKH.FetchFailed \/ f = P2WPKH.NoUtxo \/
        f = P2WPKH.NoFeeRate \/ f = P2WPKH.NoValidInput \/
        exists a b c d e, f = P2WPKH.InsufficientFunds a b c d e).
Proof.
  intros lib api config addresses key amountBTC f Hf Hne. split.
  - apply nothing_signed_projections.
    exact (createTransaction_quiet lib api config addresses key amountBTC
             f Hf Hne).
  - pose proof (createTransaction_raises _ _ _ _ _ _ _ Hf) as Hnb.
    destruct f; try congruence; eauto 12.
Qed.

(** X17 on a wallet that cannot pay: the refusal comes after three fetches
    and no signature. *)
Lemma X17_createTransaction_refuses_witness :
  exists f,
    Run.outcome
      (P2WPKH.createTransaction Demo.wlib (Demo.api Demo.two "0014cd" "none" None None)
         (Demo.config (JS.number 1) (JS.number 5)) ["bc1qalice"; "bc1qbob"]
         "wif" (JS.number 1)) = inl f /\
    f <> P2WPKH.LibraryError /\
    signed_inputs
      (Run.trace
         (P2WPKH.createTransaction Demo.wlib
            (Demo.api Demo.two "0014cd" "none" None None)
            (Demo.config (JS.number 1) (JS.number 5)) ["bc1qalice"; "bc1qbob"]
            "wif" (JS.number 1))) = [].
Proof.
  assert (E : exists f,
             Run.outcome
               (P2WPKH.createTransaction Demo.wlib
                  (Demo.api Demo.two "0014cd" "none" None None)
                  (Demo.config (JS.number 1) (JS.number 5)) ["bc1qalice"; "bc1qbob"]
                  "wif" (JS.number 1)) = inl f /\
             (exists a b c d e, f = P2WPKH.InsufficientFunds a b c d e))
    by (eexists; vm_compute; split; [reflexivity | do 5 eexists; reflexivity]).
  destruct E as (f & Hf & a & b & c & d & e & Hshape).
  assert (Hne : f <> P2WPKH.LibraryError) by (rewrite Hshape; discriminate).
  exists f. split; [exact Hf |]. split; [exact Hne |].
  exact (proj1 (X17_createTransaction_refuses_before_signing _ _ _ _ _ _ f Hf Hne)).
Defined.
